(** * Enrichment pipeline of the Prague real-estate analysis

    A shallow embedding of [data_preprocessing.py]: the record parser
    ([safe_eval], [extract_details]), the floor normalizer
    ([extract_floor_num]), the geo distance engine ([haversine],
    [get_metro_distances]) and the orchestrator ([process_raw_data]).

    Conventions of the embedding.
    - A Python [str] is a Rocq [string] holding its UTF-8 encoding.  A
      substring test on the encodings is a substring test on the code
      points, because UTF-8 is self-synchronising.
    - A Python [float] is [pyfloat]: either [NaN] or a real number.  The
      rounding of binary64 and the two infinities are outside the model.
    - A Python exception is a value of [exn]; a computation that may raise
      returns an [outcome].  [Unmodelled] is no Python exception: it marks
      the few places where a run leaves the part of pandas that is
      modelled. *)

From Stdlib Require Import Reals Lra ZArith String Ascii List.
From stdpp Require Import gmap strings list.

Set Default Proof Using "Type".
Set Warnings "-register-all".
Local Open Scope string_scope.

(** ** Exceptions and outcomes *)

Inductive exn : Type :=
| KeyError (key : string)
| TypeError
| AttributeError
| ValueError (msg : string)
| SyntaxError
| MemoryError
| RecursionError
| FileNotFoundError (msg : string)
| Unmodelled (what : string).

Inductive outcome (A : Type) : Type :=
| Ok (a : A)
| Raise (e : exn).
Arguments Ok {A} a.
Arguments Raise {A} e.

Definition outcome_bind {A B} (k : A → outcome B) (m : outcome A) : outcome B :=
  match m with
  | Ok a => k a
  | Raise e => Raise e
  end.

#[global] Instance outcome_mret : MRet outcome := @Ok.
#[global] Instance outcome_mbind : MBind outcome := @outcome_bind.
#[global] Instance outcome_mthrow : MThrow exn outcome := @Raise.

Definition returns {A} (m : outcome A) : Prop := ∃ a, m = Ok a.

(** [foldM f l s]: a [for] loop over [l] that threads the state [s] and
    stops at the first exception. *)
Fixpoint foldM {A S} (f : S → A → outcome S) (l : list A) (s : S) : outcome S :=
  match l with
  | [] => Ok s
  | x :: l' => s' ← f s x; foldM f l' s'
  end.

(** ** Python values *)

Inductive pyfloat : Type :=
| NaN
| Num (r : R).

(** The values a table cell or an evaluated literal can be.  A [dict] and a
    [set] list their entries in insertion order, with distinct keys. *)
Inductive pyval : Type :=
| PNone
| PBool (b : bool)
| PInt (z : Z)
| PFloat (x : pyfloat)
| PStr (s : string)
| PList (l : list pyval)
| PTuple (l : list pyval)
| PDict (kv : list (pyval * pyval))
| PSet (l : list pyval)
| PBytes (s : string).

(** [pd.isna] on a scalar: [None] and [nan]. *)
Definition isna (v : pyval) : bool :=
  match v with
  | PNone | PFloat NaN => true
  | _ => false
  end.

(** A row of a table ([pandas.Series] indexed by column name) and a Python
    [dict] with string keys are finite maps.  Subscripting raises
    [KeyError] on an absent key. *)
Definition getitem (d : gmap string pyval) (k : string) : outcome pyval :=
  match d !! k with
  | Some v => Ok v
  | None => Raise (KeyError k)
  end.

(** A [pandas.DataFrame] with a default integer index: the ordered column
    labels and the rows in index order.  Column labels are unique, as they
    are in every table [read_csv] loads. *)
Record DataFrame : Type := {
  columns : list string;
  rows : list (gmap string pyval)
}.

(** ** Geo distance engine: the [math] functions *)

Module PyMath.
Local Open Scope R_scope.

(** The conversion the [math] functions apply to their argument: a float is
    taken as it is, an [int] or [bool] is converted, anything else is a
    [TypeError]. *)
Definition as_float (v : pyval) : outcome pyfloat :=
  match v with
  | PFloat x => Ok x
  | PInt z => Ok (Num (IZR z))
  | PBool b => Ok (Num (if b then 1 else 0))
  | _ => Raise TypeError
  end.

(** Arithmetic on floats: [nan] is absorbing. *)
Definition lift1 (f : R → R) (x : pyfloat) : pyfloat :=
  match x with
  | Num r => Num (f r)
  | NaN => NaN
  end.

Definition lift2 (f : R → R → R) (x y : pyfloat) : pyfloat :=
  match x, y with
  | Num r1, Num r2 => Num (f r1 r2)
  | _, _ => NaN
  end.

Definition fadd := lift2 Rplus.
Definition fsub := lift2 Rminus.
Definition fmul := lift2 Rmult.
(** [x / 2]: the only divisor of the source is the constant 2, so
    [ZeroDivisionError] cannot occur. *)
Definition fdiv := lift2 Rdiv.
(** [x ** 2] *)
Definition fpow (x : pyfloat) (n : nat) : pyfloat := lift1 (fun r => r ^ n) x.

(** Comparisons: every comparison with [nan] is [False]. *)
Definition fltb (x y : pyfloat) : bool :=
  match x, y with
  | Num r1, Num r2 => if Rlt_dec r1 r2 then true else false
  | _, _ => false
  end.

Definition fleb (x y : pyfloat) : bool :=
  match x, y with
  | Num r1, Num r2 => if Rle_dec r1 r2 then true else false
  | _, _ => false
  end.

Arguments fltb : simpl never.
Arguments fleb : simpl never.

Definition radians (v : pyval) : outcome pyfloat :=
  x ← as_float v; mret (lift1 (fun r => r * (PI / 180)) x).

Definition fsin := lift1 sin.
Definition fcos := lift1 cos.

(** [math.sqrt] raises [ValueError] on a negative argument. *)
Definition math_sqrt (x : pyfloat) : outcome pyfloat :=
  match x with
  | NaN => Ok NaN
  | Num r => if Rlt_dec r 0 then Raise (ValueError "math domain error")
             else Ok (Num (sqrt r))
  end.

(** [math.asin] raises [ValueError] outside [-1, 1]. *)
Definition math_asin (x : pyfloat) : outcome pyfloat :=
  match x with
  | NaN => Ok NaN
  | Num r => if Rlt_dec r (-1) then Raise (ValueError "math domain error")
             else if Rlt_dec 1 r then Raise (ValueError "math domain error")
             else Ok (Num (asin r))
  end.

End PyMath.

(** ** Geo distance engine: [haversine] *)

Module Geo.
Import PyMath.
Local Open Scope R_scope.

(** def haversine(lon1, lat1, lon2, lat2) *)
Definition haversine (lon1 lat1 lon2 lat2 : pyval) : outcome pyfloat :=
  lon1 ← radians lon1;
  lat1 ← radians lat1;
  lon2 ← radians lon2;
  lat2 ← radians lat2;
  let dlon := fsub lon2 lon1 in
  let dlat := fsub lat2 lat1 in
  let a := fadd (fpow (fsin (fdiv dlat (Num 2))) 2)
                (fmul (fmul (fcos lat1) (fcos lat2))
                      (fpow (fsin (fdiv dlon (Num 2))) 2)) in
  s ← math_sqrt a;
  t ← math_asin s;
  let c := fmul (Num 2) t in
  let r := Num 6371000 in
  mret (fmul c r).

(** The same distance on four real angles given in degrees, for the
    statements below. *)
Definition hav_arg (lon1 lat1 lon2 lat2 : R) : R :=
  sin ((lat2 * (PI / 180) - lat1 * (PI / 180)) / 2) ^ 2
  + cos (lat1 * (PI / 180)) * cos (lat2 * (PI / 180))
    * sin ((lon2 * (PI / 180) - lon1 * (PI / 180)) / 2) ^ 2.

Definition great_circle (lon1 lat1 lon2 lat2 : R) : R :=
  2 * asin (sqrt (hav_arg lon1 lat1 lon2 lat2)) * 6371000.

(** [dist < results[key]] for a float [dist]: the stored value is a number
    (the integer sentinel or an earlier distance). *)
Definition lt_stored (dist : pyfloat) (stored : pyval) : outcome bool :=
  y ← as_float stored; mret (fltb dist y).

(** [f'dist_{station_line}'].  Only the text of a [str] is modelled: the
    text of a number, of [None], of a truth value or of a container is
    never [A], [B] or [C], so for these the key built here is in no
    dictionary of this program. *)
Definition dist_key (station_line : pyval) : option string :=
  match station_line with
  | PStr s => Some ("dist_" ++ s)
  | _ => None
  end.

(** The dictionary [results] before the loop. *)
Definition results_init : gmap string pyval :=
  <["dist_A" := PInt 99999]>
  (<["dist_B" := PInt 99999]>
  (<["dist_C" := PInt 99999]>
  (<["nearest_name" := PNone]>
  (<["global_min_dist" := PInt 99999]> ∅)))).

(** The body of [for _, station in metro_df.iterrows()]. *)
Definition scan_station (flat_lat flat_lon : pyval)
    (results station : gmap string pyval) : outcome (gmap string pyval) :=
  station_line ← getitem station "line";
  station_name ← getitem station "name";
  station_lat ← getitem station "lat";
  station_lng ← getitem station "lng";
  dist ← haversine flat_lon flat_lat station_lng station_lat;
  results ←
    match dist_key station_line with
    | Some col_name =>
        match results !! col_name with
        | Some stored =>
            b ← lt_stored dist stored;
            mret (if b : bool then <[col_name := PFloat dist]> results
                  else results)
        | None => mret results
        end
    | None => mret results
    end;
  stored ← getitem results "global_min_dist";
  b ← lt_stored dist stored;
  mret (if b : bool
        then <["nearest_name" := station_name]>
               (<["global_min_dist" := PFloat dist]> results)
        else results).

(** def get_metro_distances(row, metro_df).  The returned [Series] is the
    list of its four entries. *)
Definition get_metro_distances (row : gmap string pyval) (metro_df : DataFrame)
    : outcome (list pyval) :=
  flat_lat ← getitem row "latitude";
  flat_lon ← getitem row "longitude";
  if isna flat_lat || isna flat_lon
  then mret [PFloat NaN; PFloat NaN; PFloat NaN; PNone]
  else
    results ← foldM (scan_station flat_lat flat_lon) (rows metro_df) results_init;
    dist_A ← getitem results "dist_A";
    dist_B ← getitem results "dist_B";
    dist_C ← getitem results "dist_C";
    nearest_name ← getitem results "nearest_name";
    mret [dist_A; dist_B; dist_C; nearest_name].

(** *** Reading the result

    A station row with its coordinates read as numbers, and the distance
    from a listing at latitude [lat0] and longitude [lon0] to it. *)
Record station : Type := {
  st_line : pyval;
  st_name : pyval;
  st_lat : R;
  st_lng : R
}.

Definition number (v : pyval) : option R :=
  match as_float v with
  | Ok (Num r) => Some r
  | _ => None
  end.

Definition view_station (r : gmap string pyval) : option station :=
  line ← r !! "line";
  name ← r !! "name";
  lat ← r !! "lat" ≫= number;
  lng ← r !! "lng" ≫= number;
  Some {| st_line := line; st_name := name; st_lat := lat; st_lng := lng |}.

Definition dist_to (lat0 lon0 : R) (s : station) : R :=
  great_circle lon0 lat0 (st_lng s) (st_lat s).

Definition sentinel : R := 99999.





(** [name] is the name of a station that is as near as every station. *)
Definition nearest_name (lat0 lon0 : R) (sts : list station) (name : pyval) : Prop :=
  ∃ s, s ∈ sts ∧ name = st_name s ∧
       ∀ s', s' ∈ sts → dist_to lat0 lon0 s <= dist_to lat0 lon0 s'.

(** The loop state as the five values it holds. *)
Definition results_of (a b c n g : pyval) : gmap string pyval :=
  <["dist_A" := a]>
  (<["dist_B" := b]>
  (<["dist_C" := c]>
  (<["nearest_name" := n]>
  (<["global_min_dist" := g]> ∅)))).

(** The loop body on the five values, for a station read as numbers. *)
Definition on_line (L : string) (s : station) : bool :=
  match st_line s with
  | PStr l => if decide (l = L) then true else false
  | _ => false
  end.

Definition closer (d : R) (stored : pyval) : bool :=
  match as_float stored with
  | Ok y => fltb (Num d) y
  | Raise _ => false
  end.

Definition line_step (lat0 lon0 : R) (L : string) (s : station) (v : pyval)
    : pyval :=
  if on_line L s && closer (dist_to lat0 lon0 s) v
  then PFloat (Num (dist_to lat0 lon0 s)) else v.

Record summary : Type := {
  sum_A : pyval; sum_B : pyval; sum_C : pyval;
  sum_name : pyval; sum_global : pyval
}.

Definition summary_results (st : summary) : gmap string pyval :=
  results_of (sum_A st) (sum_B st) (sum_C st) (sum_name st) (sum_global st).

Definition scan_step (lat0 lon0 : R) (st : summary) (s : station) : summary :=
  let near := closer (dist_to lat0 lon0 s) (sum_global st) in
  {| sum_A := line_step lat0 lon0 "A" s (sum_A st);
     sum_B := line_step lat0 lon0 "B" s (sum_B st);
     sum_C := line_step lat0 lon0 "C" s (sum_C st);
     sum_name := if near then st_name s else sum_name st;
     sum_global := if near then PFloat (Num (dist_to lat0 lon0 s))
                   else sum_global st |}.

Definition is_number (v : pyval) : Prop := ∃ m, as_float v = Ok (Num m).

Definition numeric_summary (st : summary) : Prop :=
  is_number (sum_A st) ∧ is_number (sum_B st) ∧ is_number (sum_C st) ∧
  is_number (sum_global st).

Definition summary_init : summary :=
  {| sum_A := PInt 99999; sum_B := PInt 99999; sum_C := PInt 99999;
     sum_name := PNone; sum_global := PInt 99999 |}.




(** A listing on the equator at longitude 0; a station of line A on the
    opposite meridian, and two stations of line B at the listing's own
    coordinates. *)
Definition row_equator : gmap string pyval :=
  <["latitude" := PInt 0]> (<["longitude" := PInt 0]> ∅).

Definition station_row (line name : string) (lat lng : Z) : gmap string pyval :=
  <["line" := PStr line]> (<["name" := PStr name]>
  (<["lat" := PInt lat]> (<["lng" := PInt lng]> ∅))).

Definition metro_three : DataFrame :=
  {| columns := ["line"; "name"; "lat"; "lng"];
     rows := [station_row "A" "X" 0 180; station_row "B" "P" 0 0;
              station_row "B" "Q" 0 0] |}.

End Geo.

(** ** Geo distance engine: the scan over any station table

    The loop of [get_metro_distances] read row by row, for a table whose
    rows need not hold numbers: what the body reads off a row, and what it
    does to the five values of [results] with it. *)

Module GeoScan.
Import PyMath Geo.
Local Open Scope R_scope.

(** The line, the name and the distance the loop body has at hand once it
    has read a station row. *)
Record sighting : Type := {
  seen_line : pyval;
  seen_name : pyval;
  seen_dist : pyfloat
}.

(** The first five statements of the loop body. *)
Definition sight (flat_lat flat_lon : pyval) (station : gmap string pyval)
    : outcome sighting :=
  station_line ← getitem station "line";
  station_name ← getitem station "name";
  station_lat ← getitem station "lat";
  station_lng ← getitem station "lng";
  dist ← haversine flat_lon flat_lat station_lng station_lat;
  mret {| seen_line := station_line; seen_name := station_name; seen_dist := dist |}.

(** [dist < stored] on a stored number. *)
Definition nearer (dist : pyfloat) (stored : pyval) : bool :=
  match as_float stored with
  | Ok y => fltb dist y
  | Raise _ => false
  end.

Definition line_is (L : string) (line : pyval) : bool :=
  match line with
  | PStr l => if decide (l = L) then true else false
  | _ => false
  end.

(** The two [if] statements of the loop body on the five values. *)
Definition line_step_at (L : string) (s : sighting) (v : pyval) : pyval :=
  if line_is L (seen_line s) && nearer (seen_dist s) v
  then PFloat (seen_dist s) else v.

Definition scan_sighting (st : summary) (s : sighting) : summary :=
  let near := nearer (seen_dist s) (sum_global st) in
  {| sum_A := line_step_at "A" s (sum_A st);
     sum_B := line_step_at "B" s (sum_B st);
     sum_C := line_step_at "C" s (sum_C st);
     sum_name := if near then seen_name s else sum_name st;
     sum_global := if near then PFloat (seen_dist s) else sum_global st |}.

(** A value a run can leave under a distance key: the integer sentinel, or
    a distance below it. *)
Definition within_sentinel (v : pyval) : Prop :=
  v = PInt 99999 ∨ ∃ m, v = PFloat (Num m) ∧ 0 <= m < sentinel.

(** A distance the loop never stores: [nan], or the sentinel and more. *)
Definition never_stored (dist : pyfloat) : Prop :=
  dist = NaN ∨ ∃ x, dist = Num x ∧ sentinel <= x.

(** A station row the loop reads without a change to [results]. *)
Definition unseen (flat_lat flat_lon : pyval) (station : gmap string pyval) : Prop :=
  ∃ s, sight flat_lat flat_lon station = Ok s ∧ never_stored (seen_dist s).


(** What holds of the five values after the sightings [l]. *)
Definition scanned (l : list sighting) (st : summary) : Prop :=
  within_sentinel (sum_A st) ∧ within_sentinel (sum_B st) ∧
  within_sentinel (sum_C st) ∧ within_sentinel (sum_global st) ∧
  ((sum_global st = PInt 99999 ∧ sum_A st = PInt 99999 ∧ sum_B st = PInt 99999 ∧
    sum_C st = PInt 99999 ∧ sum_name st = PNone) ∨
   (∃ s m, s ∈ l ∧ seen_dist s = Num m ∧ m < sentinel ∧
      sum_global st = PFloat (Num m) ∧ sum_name st = seen_name s ∧
      ∀ v x, v ∈ [sum_A st; sum_B st; sum_C st] → as_float v = Ok (Num x) → m <= x)).

(** The entries returned, read off the sightings of the rows. *)
Definition entries (l : list sighting) : list pyval :=
  let st := fold_left scan_sighting l summary_init in
  [sum_A st; sum_B st; sum_C st; sum_name st].

(** A station whose latitude was not found, as [load_metro_data] records
    it and [read_csv] reads it back. *)
Definition station_unlocated (line name : string) (lng : Z) : gmap string pyval :=
  <["line" := PStr line]> (<["name" := PStr name]>
  (<["lat" := PFloat NaN]> (<["lng" := PInt lng]> ∅))).

End GeoScan.

(** ** Text: the [str] operations the parser and the normalizer use *)

Module Text.
Local Open Scope N_scope.

(** [needle in s] *)
Fixpoint str_in (needle s : string) : bool :=
  String.prefix needle s ||
  match s with
  | EmptyString => false
  | String _ s' => str_in needle s'
  end.

(** Lower case of one code point.  The table is that of the Unicode
    character database for Basic Latin, Latin-1 Supplement and Latin
    Extended-A (U+0000 to U+017F), which hold every letter of Czech; the
    only letter of these blocks whose lower case is two code points is
    U+0130.  Code points above U+017F are left as they are. *)
Definition lower_cp (c : N) : list N :=
  if (0x41 <=? c) && (c <=? 0x5A) then [c + 0x20]
  else if (0xC0 <=? c) && (c <=? 0xDE) && negb (c =? 0xD7) then [c + 0x20]
  else if c =? 0x130 then [0x69; 0x307]
  else if c =? 0x178 then [0xFF]
  else if ((0x100 <=? c) && (c <=? 0x137) || (0x14A <=? c) && (c <=? 0x177))
          && N.even c then [c + 1]
  else if ((0x139 <=? c) && (c <=? 0x148) || (0x179 <=? c) && (c <=? 0x17E))
          && N.odd c then [c + 1]
  else [c].

(** UTF-8 of a code point below U+0800. *)
Definition utf8_encode (c : N) : string :=
  if c <? 0x80 then String (ascii_of_N c) EmptyString
  else String (ascii_of_N (0xC0 + c / 64))
         (String (ascii_of_N (0x80 + c mod 64)) EmptyString).

Definition utf8_encode_all (cs : list N) : string :=
  fold_right (fun c acc => utf8_encode c ++ acc)%string EmptyString cs.

Definition is_continuation (b : N) : bool := (0x80 <=? b) && (b <=? 0xBF).

(** [s.lower()] on the UTF-8 text: an ASCII byte and a two-byte sequence
    with lead byte C2 to C5 (U+0080 to U+017F) are lowered by [lower_cp];
    every other byte is copied. *)
Fixpoint str_lower (s : string) : string :=
  match s with
  | EmptyString => EmptyString
  | String b s' =>
      let n := N_of_ascii b in
      if n <? 0x80 then (utf8_encode_all (lower_cp n) ++ str_lower s')%string
      else if (0xC2 <=? n) && (n <=? 0xC5) then
        match s' with
        | String b2 s'' =>
            let n2 := N_of_ascii b2 in
            if is_continuation n2
            then (utf8_encode_all (lower_cp ((n - 0xC0) * 64 + (n2 - 0x80)))
                  ++ str_lower s'')%string
            else String b (str_lower s')
        | EmptyString => String b EmptyString
        end
      else String b (str_lower s')
  end.

(** An ASCII decimal digit and its value.  The pattern class [\d] of a
    [str] pattern matches the decimal digits of other scripts too; these
    are outside the model. *)
Definition is_digit (b : ascii) : bool :=
  (48 <=? N_of_ascii b) && (N_of_ascii b <=? 57).

Definition digit_value (b : ascii) : Z := Z.of_N (N_of_ascii b - 48).

Arguments is_digit : simpl never.
Arguments digit_value : simpl never.

(** The longest run of digits at the start of [s]. *)
Fixpoint take_digits (s : string) : string :=
  match s with
  | String b s' => if is_digit b then String b (take_digits s') else EmptyString
  | EmptyString => EmptyString
  end.

(** [-?\d+] matched at the start of [s]: the text matched, if any.  When a
    minus sign is not followed by a digit the engine retries without the
    sign, and then fails at once, the sign being no digit. *)
Definition match_signed_int (s : string) : option string :=
  match s with
  | String "-" s' =>
      match take_digits s' with
      | EmptyString => None
      | ds => Some (String "-" ds)
      end
  | _ =>
      match take_digits s with
      | EmptyString => None
      | ds => Some ds
      end
  end.

(** [re.search(r'(-?\d+)', s)]: the match at the leftmost position that
    has one; [group(1)] is the whole match. *)
Fixpoint re_search_signed_int (s : string) : option string :=
  match match_signed_int s with
  | Some m => Some m
  | None =>
      match s with
      | EmptyString => None
      | String _ s' => re_search_signed_int s'
      end
  end.

(** [int(text)] on a text matched by [-?\d+]. *)
Definition digits_value (ds : string) : Z :=
  fold_left (fun acc b => (10 * acc + digit_value b)%Z) (list_ascii_of_string ds) 0%Z.

Definition int_of_text (m : string) : Z :=
  match m with
  | String "-" ds => (- digits_value ds)%Z
  | _ => digits_value m
  end.

(** *** The same operations, said without an algorithm *)

Definition is_substring (needle s : string) : Prop :=
  ∃ pre post, s = (pre ++ needle ++ post)%string.

Fixpoint all_digits (s : string) : bool :=
  match s with
  | EmptyString => true
  | String b s' => is_digit b && all_digits s'
  end.

Fixpoint no_digit (s : string) : bool :=
  match s with
  | EmptyString => true
  | String b s' => negb (is_digit b) && no_digit s'
  end.

Definition starts_with_digit (s : string) : bool :=
  match s with
  | String b _ => is_digit b
  | EmptyString => false
  end.

(** [m] is the first signed integer substring of [s]: a longest run of
    digits [ds], with the minus sign before it when there is one, and no
    digit before it in [s]. *)
Definition first_signed_int (s m : string) : Prop :=
  ∃ pre ds post,
    s = (pre ++ m ++ post)%string ∧ ds ≠ EmptyString ∧ all_digits ds = true ∧
    no_digit pre = true ∧ starts_with_digit post = false ∧
    (m = String "-" ds ∨ (m = ds ∧ ∀ p, pre ≠ (p ++ "-")%string)).

End Text.

(** ** Record parser *)

Module Parser.
Import Text.
Local Open Scope R_scope.

(** The truth value of an object, as [not name] takes it. *)
Definition truthy (v : pyval) : bool :=
  match v with
  | PNone => false
  | PBool b => b
  | PInt z => negb (z =? 0)%Z
  | PFloat NaN => true
  | PFloat (Num r) => if Req_dec_T r 0 then false else true
  | PStr s | PBytes s => if decide (s = EmptyString) then false else true
  | PList l | PTuple l | PSet l => if l is [] then false else true
  | PDict kv => if kv is [] then false else true
  end.

(** [v == s] for a [str] [s]: only an equal [str] is equal to it. *)
Definition is_str (s : string) (v : pyval) : bool :=
  match v with
  | PStr s' => if decide (s' = s) then true else false
  | _ => false
  end.

(** [item.get(key)] on the entries of a [dict]: the value under [key], or
    [None]. *)
Fixpoint dict_get (key : string) (kv : list (pyval * pyval)) : pyval :=
  match kv with
  | [] => PNone
  | (k, v) :: kv' => if is_str key k then v else dict_get key kv'
  end.

(** [needle in container] for a [str] needle: a substring test on a [str],
    a membership test on a list, tuple, set or on the keys of a mapping, and
    a [TypeError] on everything else. *)
Definition py_in (needle : string) (container : pyval) : outcome bool :=
  match container with
  | PStr s => Ok (str_in needle s)
  | PList l | PTuple l | PSet l => Ok (existsb (is_str needle) l)
  | PDict kv => Ok (existsb (fun e => is_str needle (fst e)) kv)
  | PNone | PBool _ | PInt _ | PFloat _ | PBytes _ => Raise TypeError
  end.

(** The dictionary [extracted]: its entries in insertion order.  An
    assignment to a key that is present replaces the value in place. *)
Fixpoint dict_set (key : string) (v : pyval) (d : list (string * pyval))
    : list (string * pyval) :=
  match d with
  | [] => [(key, v)]
  | (k, w) :: d' =>
      if decide (k = key) then (key, v) :: d' else (k, w) :: dict_set key v d'
  end.

Fixpoint dict_lookup (key : string) (d : list (string * pyval)) : option pyval :=
  match d with
  | [] => None
  | (k, w) :: d' => if decide (k = key) then Some w else dict_lookup key d'
  end.

(** The labels of the [if]/[elif] chain with the key each one fills, in the
    order they are tested. *)
Definition labels : list (string * string) :=
  [ ("Užitná ploch", "usable_area");
    ("Celková plocha", "total_area");
    ("Podlaží", "floor");
    ("Stavba", "building_type");
    ("Stav objektu", "building_condition");
    ("Vlastnictví", "ownership");
    ("Terasa", "terrace");
    ("Výtah", "elevator") ].

(** The chain: the key of the first label that is in [name]. *)
Fixpoint route (chain : list (string * string)) (name : pyval)
    : outcome (option string) :=
  match chain with
  | [] => Ok None
  | (label, key) :: chain' =>
      b ← py_in label name;
      if b : bool then Ok (Some key) else route chain' name
  end.

(** The body of [for item in details_list]. *)
Definition collect_item (extracted : list (string * pyval)) (item : pyval)
    : outcome (list (string * pyval)) :=
  match item with
  | PDict kv =>
      let name := dict_get "name" kv in
      let value := dict_get "value" kv in
      if negb (truthy name) then Ok extracted
      else
        k ← route labels name;
        match k with
        | Some key => Ok (dict_set key value extracted)
        | None => Ok extracted
        end
  | _ => Ok extracted
  end.

Section Evaluator.

(** [ast.literal_eval], the evaluator of the Python library.  It returns
    the value of a literal and raises [ValueError], [TypeError],
    [SyntaxError], [MemoryError] or [RecursionError] otherwise. *)
Variable literal_eval : pyval → outcome pyval.

(** def safe_eval(x) *)
Definition safe_eval (x : pyval) : outcome pyval :=
  match literal_eval x with
  | Ok v => Ok v
  | Raise (ValueError _) => Ok PNone
  | Raise SyntaxError => Ok PNone
  | Raise e => Raise e
  end.

(** def extract_details(detail_str) *)
Definition extract_details (detail_str : pyval)
    : outcome (list (string * pyval)) :=
  details_list ← safe_eval detail_str;
  match details_list with
  | PList items => foldM collect_item items []
  | _ => Ok []
  end.

End Evaluator.

(** An evaluator given by the texts it can read: it returns the listed
    value of a listed text, raises [SyntaxError] on any other text and
    [ValueError] on what is no text. *)
Definition literal_eval_of (readings : list (string * pyval)) (x : pyval)
    : outcome pyval :=
  match x with
  | PStr s =>
      match dict_lookup s readings with
      | Some v => Ok v
      | None => Raise SyntaxError
      end
  | _ => Raise (ValueError "malformed node or string")
  end.

(** *** Which entry fills a key *)

(** The key a name given as a text is routed to. *)
Fixpoint key_of_name (chain : list (string * string)) (name : string)
    : option string :=
  match chain with
  | [] => None
  | (label, key) :: chain' =>
      if str_in label name then Some key else key_of_name chain' name
  end.

(** The value an entry offers to [key]: the entry is a mapping whose name
    is a non-empty text routed to [key]. *)
Definition offers (key : string) (item : pyval) : option pyval :=
  match item with
  | PDict kv =>
      match dict_get "name" kv with
      | PStr n =>
          if decide (n ≠ EmptyString ∧ key_of_name labels n = Some key)
          then Some (dict_get "value" kv) else None
      | _ => None
      end
  | _ => None
  end.

Definition first_offer (key : string) (items : list pyval) : option pyval :=
  head (omap (offers key) items).

Definition last_offer (key : string) (items : list pyval) : option pyval :=
  last (omap (offers key) items).

(** An entry the loop passes without an exception for certain: it is no
    mapping, or its name is absent, [None] or a text. *)
Definition tame (item : pyval) : bool :=
  match item with
  | PDict kv =>
      match dict_get "name" kv with
      | PNone | PStr _ => true
      | _ => false
      end
  | _ => true
  end.

(** Two entries of a blob both named by the floor label. *)
Definition blob_two_floors : string :=
  "[{'name': 'Podlaží', 'value': '1. patro'}, {'name': 'Podlaží', 'value': '3. patro'}]".

Definition two_floors : pyval :=
  PList [ PDict [(PStr "name", PStr "Podlaží"); (PStr "value", PStr "1. patro")];
          PDict [(PStr "name", PStr "Podlaží"); (PStr "value", PStr "3. patro")] ].

(** The reading of the parser under which the first entry routed to a key
    is the one stored. *)
Definition first_match_claim : Prop :=
  ∀ (literal_eval : pyval → outcome pyval) x items,
    literal_eval x = Ok (PList items) → forallb tame items = true →
    ∃ d, extract_details literal_eval x = Ok d ∧
         ∀ key, dict_lookup key d = first_offer key items.

(** A blob whose only entry is named by a number. *)
Definition blob_numeric_name : string := "[{'name': 1, 'value': 2}]".

Definition numeric_name : pyval :=
  PList [ PDict [(PStr "name", PInt 1); (PStr "value", PInt 2)] ].

End Parser.

(** ** Record parser: the entries the loop body raises on *)

Module ParserErrors.
Import Parser.

(** A name on which [label in name] is a [TypeError]: it is no text and no
    container. *)
Definition no_container (name : pyval) : bool :=
  match name with
  | PNone | PBool _ | PInt _ | PFloat _ | PBytes _ => true
  | PStr _ | PList _ | PTuple _ | PDict _ | PSet _ => false
  end.

(** An entry of the list that is a mapping whose name passes [if not name]
    and then fails the first membership test. *)
Definition risky (item : pyval) : bool :=
  match item with
  | PDict kv => truthy (dict_get "name" kv) && no_container (dict_get "name" kv)
  | _ => false
  end.

(** A blob with an entry named by a list and what it evaluates to. *)
Definition blob_list_name : string := "[{'name': ['Podlaží'], 'value': 4}]".

Definition list_name : pyval :=
  PList [ PDict [(PStr "name", PList [PStr "Podlaží"]); (PStr "value", PInt 4)] ].

End ParserErrors.

(** ** Floor normalizer *)

Module Floor.
Import Text.

(** def extract_floor_num(floor_str) *)
Definition extract_floor_num (floor_str : pyval) : Z :=
  match floor_str with
  | PStr floor_str =>
      let floor_str := str_lower floor_str in
      if str_in "přízemí" floor_str then 0%Z
      else if str_in "suterén" floor_str then (-1)%Z
      else
        match re_search_signed_int floor_str with
        | Some m => int_of_text m
        | None => 0%Z
        end
  | _ => 0%Z
  end.

End Floor.

(** ** Tables: the pandas operations of the orchestrator *)

Module Pandas.
Import PyMath.

(** The cell of a row under a column label; a cell that is not there reads
    as [nan], as in a table built from incomplete records. *)
Definition cell (r : gmap string pyval) (c : string) : pyval :=
  default (PFloat NaN) (r !! c).

(** [df[c]] *)
Definition column (c : string) (df : DataFrame) : outcome (list pyval) :=
  if decide (c ∈ columns df)
  then Ok ((fun r => cell r c) <$> rows df)
  else Raise (KeyError c).

(** [df[c] = values], [values] having one entry per row: an existing column
    is overwritten in place, a new one is appended. *)
Definition assign (c : string) (values : list pyval) (df : DataFrame) : DataFrame :=
  {| columns := if decide (c ∈ columns df) then columns df
                else (columns df ++ [c])%list;
     rows := zip_with (fun r v => <[c := v]> r) (rows df) values |}.

(** [df.drop(columns=cs, errors='ignore')] *)
Definition drop (cs : list string) (df : DataFrame) : DataFrame :=
  {| columns := filter (fun c => c ∉ cs) (columns df);
     rows := (fun r => foldr delete r cs) <$> rows df |}.

(** [df.dropna(subset=[c])] followed by [reset_index(drop=True)]: the rows
    keep their order and are numbered anew. *)
Definition dropna (c : string) (df : DataFrame) : DataFrame :=
  {| columns := columns df;
     rows := filter (fun r => isna (cell r c) = false) (rows df) |}.

(** [df.rename(columns=mapping)].  A renaming that makes two labels equal
    gives a table with a repeated label, which is outside the model. *)
Fixpoint rename_label (mapping : list (string * string)) (c : string) : string :=
  match mapping with
  | [] => c
  | (old, new) :: mapping' =>
      if decide (old = c) then new else rename_label mapping' c
  end.

Definition rename (mapping : list (string * string)) (df : DataFrame)
    : outcome DataFrame :=
  let cols := rename_label mapping <$> columns df in
  if decide (NoDup cols)
  then Ok {| columns := cols;
             rows := (fun r => list_to_map
                         ((fun c => (rename_label mapping c, cell r c)) <$> columns df))
                     <$> rows df |}
  else Raise (Unmodelled "repeated column label").

(** One entry of [(df[col] <= threshold).astype(int)]: a missing value
    compares false, a number is compared, anything else is a [TypeError]. *)
Definition le_flag (threshold : Z) (v : pyval) : outcome pyval :=
  if isna v then Ok (PInt 0)
  else x ← as_float v;
       Ok (PInt (if fleb x (Num (IZR threshold)) then 1 else 0)).

(** The column labels of [pd.DataFrame(records)]: the keys of the records
    in the order they first appear. *)
Definition record_columns (records : list (list (string * pyval))) : list string :=
  foldl (fun (acc : list string) k => if decide (k ∈ acc) then acc else (acc ++ [k])%list) []
        (mjoin ((fun d : list (string * pyval) => fst <$> d) <$> records)).

(** [pd.concat([df, pd.DataFrame(records)], axis=1)], both with the default
    index and one record per row: the columns of the records are appended,
    a key a record lacks reading as [nan].  A key that is already a column
    label would be repeated, which is outside the model. *)
Definition concat_records (df : DataFrame) (records : list (list (string * pyval)))
    : outcome DataFrame :=
  let new_cols := record_columns records in
  if decide (Exists (fun c => c ∈ columns df) new_cols)
  then Raise (Unmodelled "repeated column label")
  else Ok {| columns := (columns df ++ new_cols)%list;
             rows := zip_with
                       (fun r d => foldr (fun c r' =>
                          <[c := default (PFloat NaN) (Parser.dict_lookup c d)]> r')
                          r new_cols)
                       (rows df) records |}.

(** [df'] has the rows of [df], in the same order, with the same cells in
    the columns [K], and has a column of [K] exactly when [df] has it. *)
Definition same_cells (K : string → Prop) (df df' : DataFrame) : Prop :=
  length (rows df') = length (rows df) ∧
  (∀ c, K c → (c ∈ columns df' ↔ c ∈ columns df)) ∧
  (∀ i r r' c, K c → rows df !! i = Some r → rows df' !! i = Some r' →
               cell r' c = cell r c).

(** [col.replace('poi_', '500m_')]: every occurrence is replaced, from the
    left. *)
Fixpoint replace_poi (col : string) : string :=
  match col with
  | String "p" (String "o" (String "i" (String "_" rest))) =>
      String "5" (String "0" (String "0" (String "m" (String "_" (replace_poi rest)))))
  | String b rest => String b (replace_poi rest)
  | EmptyString => EmptyString
  end.

End Pandas.

(** ** Pipeline orchestrator *)

Module Pipeline.
Import PyMath Text Parser Floor Geo Pandas.

Definition cols_to_drop : list string :=
  [ "Unnamed: 0"; "hash_id"; "advert_images"; "advert_images_all";
    "premise_logo"; "user_id"; "premise_id"; "price_summary";
    "price_currency_cb"; "price_unit_cb"; "price_summary_unit_cb";
    "has_matterport_url"; "has_video"; "advert_name"; "premise" ].

Definition cols_to_remove : list string :=
  [ "locality"; "locality_dict"; "detail"; "floor"; "price";
    "price_czk_m2"; "price_summary_czk"; "building_condition"; "total_area" ].

Definition categorical_cols : list string :=
  [ "category_main_cb"; "category_sub_cb"; "category_type_cb";
    "city"; "district"; "building_type"; "ownership"; "condition" ].

Definition column_mapping : list (string * string) :=
  [ ("price_czk", "price");
    ("lat", "latitude");
    ("lon", "longitude");
    ("usable_area", "area_usable");
    ("terrace", "has_terrace");
    ("elevator", "has_elevator");
    ("floor_num", "floor_number") ].

(** [x.get(key) if isinstance(x, dict) else None] *)
Definition dict_field (key : string) (x : pyval) : pyval :=
  match x with
  | PDict kv => dict_get key kv
  | _ => PNone
  end.

(** The file system as far as the pipeline sees it: the table stored under
    each path. *)
Definition read_csv (fs : gmap string DataFrame) (path : string)
    : outcome DataFrame :=
  match fs !! path with
  | Some df => Ok df
  | None => Raise (FileNotFoundError ("No such file or directory: " ++ path))
  end.

Section Libraries.

(** [ast.literal_eval] *)
Variable literal_eval : pyval → outcome pyval.

(** [pd.get_dummies(df, columns=cols, drop_first=True)] *)
Variable get_dummies : DataFrame → list string → outcome DataFrame.

(** One entry of
    [pd.to_numeric(col.astype(str).str.replace(r'[^\d.]', '', regex=True), errors='coerce')] *)
Variable to_numeric_cleaned : pyval → pyval.

(** One entry of [col.fillna(0).astype(int)] *)
Variable astype_int : pyval → outcome pyval.

(** [safe_eval(x).get('name') if safe_eval(x) else None] *)
Definition category_name (x : pyval) : outcome pyval :=
  test ← safe_eval literal_eval x;
  if truthy test then
    v ← safe_eval literal_eval x;
    match v with
    | PDict kv => Ok (dict_get "name" kv)
    | _ => Raise AttributeError
    end
  else Ok PNone.

(** [df[col] = df[col].apply(f)] for a column that is there. *)
Definition apply_column (col : string) (f : pyval → outcome pyval)
    (df : DataFrame) : outcome DataFrame :=
  values ← column col df;
  values' ← mapM f values;
  Ok (assign col values' df).

(** The same under [if col in df.columns]. *)
Definition apply_if_present (f : pyval → outcome pyval) (df : DataFrame)
    (col : string) : outcome DataFrame :=
  if decide (col ∈ columns df) then apply_column col f df else Ok df.

(** Lines 187 to 201: the unused columns go, then the rows without a
    price. *)
Definition keep_priced (df : DataFrame) : DataFrame :=
  dropna "price_czk" (drop cols_to_drop df).

(** Lines 203 to 209. *)
Definition extract_locality (df : DataFrame) : outcome DataFrame :=
  locality ← column "locality" df;
  locality_dict ← mapM (safe_eval literal_eval) locality;
  let df := assign "locality_dict" locality_dict df in
  let df := assign "city" (dict_field "city" <$> locality_dict) df in
  let df := assign "district" (dict_field "district" <$> locality_dict) df in
  let df := assign "lat" (dict_field "gps_lat" <$> locality_dict) df in
  let df := assign "lon" (dict_field "gps_lon" <$> locality_dict) df in
  Ok df.

(** Lines 211 to 214. *)
Definition extract_categories (df : DataFrame) : outcome DataFrame :=
  foldM (apply_if_present category_name)
        ["category_main_cb"; "category_sub_cb"; "category_type_cb"] df.

(** Lines 216 to 220. *)
Definition extract_property_details (df : DataFrame) : outcome DataFrame :=
  detail ← column "detail" df;
  details_extracted ← mapM (extract_details literal_eval) detail;
  concat_records df details_extracted.

(** Lines 222 to 236. *)
Definition clean_details (df : DataFrame) : outcome DataFrame :=
  df ← apply_if_present (fun v => Ok (to_numeric_cleaned v)) df "usable_area";
  df ← (if decide ("floor" ∈ columns df)
        then floor ← column "floor" df;
             Ok (assign "floor_num" ((fun v => PInt (extract_floor_num v)) <$> floor) df)
        else Ok df);
  foldM (apply_if_present astype_int) ["terrace"; "elevator"] df.

(** Lines 243 to 249. *)
Definition poi_flag_column (df : DataFrame) (col : string) : outcome DataFrame :=
  values ← column col df;
  flags ← mapM (le_flag 500) values;
  Ok (assign (replace_poi col) flags df).

Definition poi_features (df : DataFrame) : outcome DataFrame :=
  let dist_cols := filter (fun col => String.prefix "poi_" col = true) (columns df) in
  df ← foldM poi_flag_column dist_cols df;
  Ok (drop dist_cols df).

(** Lines 251 to 258. *)
Definition encode_categories (df : DataFrame) : outcome DataFrame :=
  get_dummies df (filter (fun c => c ∈ columns df) categorical_cols).

(** Lines 272 to 276.  Each row is handed to [get_metro_distances]; the
    four entries of the answers become four columns.  What pandas does
    here with a table of no rows is outside the model. *)
Definition metro_distances (metro : DataFrame) (df : DataFrame) : outcome DataFrame :=
  answers ← mapM (fun row => get_metro_distances row metro) (rows df);
  if decide (rows df = []) then Raise (Unmodelled "apply on a table of no rows")
  else
    let entry (k : nat) := (fun a : list pyval => default (PFloat NaN) (a !! k)) <$> answers in
    Ok (assign "nearest_station" (entry 3%nat)
       (assign "metro_dist_C" (entry 2%nat)
       (assign "metro_dist_B" (entry 1%nat)
       (assign "metro_dist_A" (entry 0%nat) df)))).

(** Lines 278 to 282. *)
Definition metro_flag_column (df : DataFrame) (line : string) : outcome DataFrame :=
  let col := "metro_dist_" ++ line in
  if decide (col ∈ columns df) then
    values ← column col df;
    flags ← mapM (le_flag 1000) values;
    Ok (assign ("1000m_dist_" ++ line) flags df)
  else Ok df.

Definition metro_features (df : DataFrame) : outcome DataFrame :=
  foldM metro_flag_column ["A"; "B"; "C"] df.

(** Lines 187 to 287: the transformation of the loaded tables. *)
Definition enrich (df metro : DataFrame) : outcome DataFrame :=
  let df := keep_priced df in
  df ← extract_locality df;
  df ← extract_categories df;
  df ← extract_property_details df;
  df ← clean_details df;
  let df := drop cols_to_remove df in
  df ← poi_features df;
  df ← encode_categories df;
  df ← rename column_mapping df;
  df ← metro_distances metro df;
  df ← metro_features df;
  get_dummies df ["nearest_station"].

(** def process_raw_data(raw_data_path, metro_path, output_path=None).
    The file system is passed in and handed back with the table returned
    or the exception raised; the progress messages are left out. *)
Definition process_raw_data (fs : gmap string DataFrame)
    (raw_data_path metro_path : string) (output_path : option string)
    : outcome DataFrame * gmap string DataFrame :=
  match read_csv fs raw_data_path with
  | Raise (FileNotFoundError _) =>
      (Raise (FileNotFoundError ("Raw data file not found: " ++ raw_data_path)), fs)
  | Raise e => (Raise e, fs)
  | Ok df =>
      match read_csv fs metro_path with
      | Raise (FileNotFoundError _) =>
          (Raise (FileNotFoundError ("Metro stations file not found: " ++ metro_path)), fs)
      | Raise e => (Raise e, fs)
      | Ok metro =>
          if decide ("price_czk" ∉ columns df)
          then (Raise (ValueError "Missing required column: price_czk"), fs)
          else
            match enrich df metro with
            | Raise e => (Raise e, fs)
            | Ok out =>
                match output_path with
                | Some path =>
                    if truthy (PStr path) then (Ok out, <[path := out]> fs)
                    else (Ok out, fs)
                | None => (Ok out, fs)
                end
            end
      end
  end.

End Libraries.

(** *** What is assumed of [pd.get_dummies]

    A label is touched by the encoding of the columns [cs] when it is one
    of them or when it starts with one of them followed by an underscore,
    as the indicator columns do.  The encoding keeps every other column, the
    rows and their order. *)
Definition dummy_name (cs : list string) (c : string) : Prop :=
  c ∈ cs ∨ ∃ c', c' ∈ cs ∧ String.prefix (c' ++ "_") c = true.

Definition get_dummies_keeps
    (get_dummies : DataFrame → list string → outcome DataFrame) : Prop :=
  ∀ df cs out, get_dummies df cs = Ok out →
               same_cells (fun c => ¬ dummy_name cs c) df out.

(** [pd.get_dummies] on a table whose listed columns hold one level at
    most: with [drop_first] the columns go and no indicator column comes. *)
Definition get_dummies_one_level (df : DataFrame) (cs : list string)
    : outcome DataFrame :=
  Ok (drop cs df).

(** The columns the first four stages leave alone. *)
Definition head_safe (c : string) : Prop :=
  c ∉ ["locality_dict"; "city"; "district"; "lat"; "lon";
       "category_main_cb"; "category_sub_cb"; "category_type_cb";
       "usable_area"; "total_area"; "floor"; "building_type";
       "building_condition"; "ownership"; "terrace"; "elevator"; "floor_num"].

(** The columns the stages between the cleaning and the renaming leave
    alone, and those the stages after the renaming leave alone. *)
Definition middle_safe (c : string) : Prop :=
  (c ∉ cols_to_remove) ∧ String.prefix "poi_" c = false ∧
  String.prefix "500m_" c = false ∧ ¬ dummy_name categorical_cols c.

Definition tail_safe (c : string) : Prop :=
  (c ∉ ["metro_dist_A"; "metro_dist_B"; "metro_dist_C"; "nearest_station";
        "1000m_dist_A"; "1000m_dist_B"; "1000m_dist_C"]) ∧
  ¬ dummy_name ["nearest_station"] c.

(** The columns that no stage touches. *)
Definition passes_through (c : string) : Prop :=
  (c ∉ cols_to_drop) ∧ head_safe c ∧ middle_safe c ∧
  (c ∉ (fst <$> column_mapping)) ∧ tail_safe c.

(** The keys the record parser can fill. *)
Definition detail_keys : list string := snd <$> labels.

(** *** Two small runs

    Instances of the library functions for the cells of the tables below.
    The cleaning of the usable area: [str] of the cell with every
    character that is no digit and no point removed, read as a number.  A
    text without a point, an integer (its sign is removed with the rest), a
    boolean and a missing cell are covered; a text with a point, a float
    and a container are not, and read as [nan] here. *)
Definition to_numeric_digits (v : pyval) : pyval :=
  let read (s : string) :=
    let kept := string_of_list_ascii (List.filter is_digit (list_ascii_of_string s)) in
    if decide (kept = "") then PFloat NaN else PInt (digits_value kept) in
  match v with
  | PStr s => if str_in "." s then PFloat NaN else read s
  | PInt z => PInt (Z.abs z)
  | _ => PFloat NaN
  end.

(** The cast of the presence flags on a missing cell, a boolean or an
    integer. *)
Definition astype_int_exact (v : pyval) : outcome pyval :=
  if isna v then Ok (PInt 0)
  else match v with
       | PBool b => Ok (PInt (if b then 1 else 0))
       | PInt z => Ok (PInt z)
       | _ => Raise (Unmodelled "astype(int)")
       end.

(** The blobs of the listings and what [ast.literal_eval] reads in them. *)
Definition locality_blob : string :=
  "{'city': 'Praha', 'district': 'Praha 1', 'gps_lat': None, 'gps_lon': None}".

Definition detail_blob_flat : string :=
  "[{'name': 'Užitná plocha', 'value': '54'}, {'name': 'Podlaží', 'value': '2. patro'}, {'name': 'Výtah', 'value': True}]".

Definition detail_blob_house : string :=
  "[{'name': 'Užitná plocha', 'value': '120'}, {'name': 'Podlaží', 'value': 'přízemí'}, {'name': 'Terasa', 'value': True}]".

Definition readings : list (string * pyval) :=
  [ (locality_blob,
     PDict [(PStr "city", PStr "Praha"); (PStr "district", PStr "Praha 1");
            (PStr "gps_lat", PNone); (PStr "gps_lon", PNone)]);
    (detail_blob_flat,
     PList [ PDict [(PStr "name", PStr "Užitná plocha"); (PStr "value", PStr "54")];
             PDict [(PStr "name", PStr "Podlaží"); (PStr "value", PStr "2. patro")];
             PDict [(PStr "name", PStr "Výtah"); (PStr "value", PBool true)] ]);
    (detail_blob_house,
     PList [ PDict [(PStr "name", PStr "Užitná plocha"); (PStr "value", PStr "120")];
             PDict [(PStr "name", PStr "Podlaží"); (PStr "value", PStr "přízemí")];
             PDict [(PStr "name", PStr "Terasa"); (PStr "value", PBool true)] ]) ].

(** Three listings, the second without a price; one point-of-interest
    column, with a distance on the bound and one a metre beyond it. *)
Definition listing (id : Z) (price : pyval) (detail : string) (poi_bus : Z)
    : gmap string pyval :=
  list_to_map [ ("hash_id", PInt id); ("price_czk", price);
                ("locality", PStr locality_blob); ("detail", PStr detail);
                ("poi_bus", PInt poi_bus) ].

Definition three_listings : DataFrame :=
  {| columns := ["hash_id"; "price_czk"; "locality"; "detail"; "poi_bus"];
     rows := [ listing 11 (PInt 5000000) detail_blob_flat 500;
               listing 12 (PFloat NaN) detail_blob_flat 100;
               listing 13 (PInt 9000000) detail_blob_house 501 ] |}.

Definition estate_path : string := "data/data_estate.csv".
Definition stations_path : string := "data/metro_stations.csv".
Definition processed_path : string := "data/data_estate_processed.csv".

Definition files_three : gmap string DataFrame :=
  <[estate_path := three_listings]> (<[stations_path := metro_three]> ∅).

(** A row of an enriched table, with the label and the cell of its one
    point-of-interest flag left open, and the labels that go with it. *)
Definition enriched (price area terrace elevator floor_number : Z)
    (flag_label : string) (flag : pyval) : gmap string pyval :=
  list_to_map [ ("price", PInt price); ("latitude", PNone); ("longitude", PNone);
                ("area_usable", PInt area); ("has_terrace", PInt terrace);
                ("has_elevator", PInt elevator); ("floor_number", PInt floor_number);
                (flag_label, flag);
                ("metro_dist_A", PFloat NaN); ("metro_dist_B", PFloat NaN);
                ("metro_dist_C", PFloat NaN);
                ("1000m_dist_A", PInt 0); ("1000m_dist_B", PInt 0);
                ("1000m_dist_C", PInt 0) ].

Definition transit_labels : list string :=
  [ "metro_dist_A"; "metro_dist_B"; "metro_dist_C";
    "1000m_dist_A"; "1000m_dist_B"; "1000m_dist_C" ].

(** What the run on the three listings gives. *)
Definition two_enriched_with (near far : pyval) : DataFrame :=
  {| columns := ([ "price"; "latitude"; "longitude"; "area_usable"; "has_elevator";
                   "has_terrace"; "floor_number"; "500m_bus" ] ++ transit_labels)%list;
     rows := [ enriched 5000000 54 0 1 2 "500m_bus" near;
               enriched 9000000 120 1 0 0 "500m_bus" far ] |}.

Definition two_enriched : DataFrame := two_enriched_with (PInt 1) (PInt 0).

(** One listing with two point-of-interest columns whose labels give the
    same companion label; the first distance is within the bound, the
    second is not. *)
Definition colliding_listings : DataFrame :=
  {| columns := ["price_czk"; "locality"; "detail"; "poi_500m_a"; "poi_poi_a"];
     rows := [ list_to_map [ ("price_czk", PInt 5000000);
                             ("locality", PStr locality_blob);
                             ("detail", PStr detail_blob_flat);
                             ("poi_500m_a", PInt 100); ("poi_poi_a", PInt 900) ] ] |}.

Definition files_colliding : gmap string DataFrame :=
  <[estate_path := colliding_listings]> (<[stations_path := metro_three]> ∅).

(** What the run on it gives. *)
Definition collided_with (flag : pyval) : DataFrame :=
  {| columns := ([ "price"; "latitude"; "longitude"; "area_usable"; "has_elevator";
                   "floor_number"; "500m_500m_a" ] ++ transit_labels)%list;
     rows := [ delete "has_terrace" (enriched 5000000 54 0 1 2 "500m_500m_a" flag) ] |}.

Definition collided : DataFrame := collided_with (PInt 0).

End Pipeline.

(** ** Pipeline orchestrator: what is read off a run *)

Module PipelineReadings.
Import Pandas Pipeline.

(** A label that no stage after the removal of the intermediate columns
    adds or takes away. *)
Definition settled (c : string) : Prop :=
  String.prefix "poi_" c = false ∧ String.prefix "500m_" c = false ∧
  ¬ dummy_name categorical_cols c ∧
  (c ∉ (fst <$> column_mapping)) ∧ (c ∉ (snd <$> column_mapping)) ∧ tail_safe c.

(** The intermediate columns other than [price], whose label the renaming
    gives to the column [price_czk]. *)
Definition intermediate_cols : list string :=
  [ "locality"; "locality_dict"; "detail"; "floor";
    "price_czk_m2"; "price_summary_czk"; "building_condition"; "total_area" ].

(** A cell of a flag column. *)
Definition binary (v : pyval) : Prop := v = PInt 0 ∨ v = PInt 1.

End PipelineReadings.

(** ** Listing scraper: the pagination of [sreality_scrape] *)

Module Scrape.
Import PyMath Parser.
Local Open Scope Z_scope.

Definition limit : Z := 22.

Definition condition_map : list (Z * string) :=
  [ (1, "very good"); (2, "good"); (4, "in development"); (6, "new") ].

(** How the body of [for condition_code, condition_name in ...] ends: the
    [while] loop is left and the records are kept; a
    [requests.exceptions.RequestException] is caught by the handler, which
    keeps nothing; or another exception leaves [sreality_scrape]. *)
Inductive ended (A : Type) : Type :=
| Done (a : A)
| RequestFailed
| Crashed (e : exn).
Arguments Done {A} a.
Arguments RequestFailed {A}.
Arguments Crashed {A} e.

(** [offset < total_results] for the [int] [offset]. *)
Definition int_lt (offset : Z) (total_results : pyval) : outcome bool :=
  match total_results with
  | PInt t => Ok (offset <? t)
  | PBool b => Ok (offset <? (if b then 1 else 0))
  | PFloat x => Ok (fltb (Num (IZR offset)) x)
  | _ => Raise TypeError
  end.

Definition entry (key : string) (kv : list (pyval * pyval)) : option pyval :=
  snd <$> find (fun e => is_str key (fst e)) kv.

(** [data.get(key, default)] *)
Definition get_default (key : string) (fallback : pyval) (data : pyval)
    : outcome pyval :=
  match data with
  | PDict kv =>
      match entry key kv with
      | Some v => Ok v
      | None => Ok fallback
      end
  | _ => Raise AttributeError
  end.

(** [data[key]] for a [str] key. *)
Definition subscript (data : pyval) (key : string) : outcome pyval :=
  match data with
  | PDict kv =>
      match entry key kv with
      | Some v => Ok v
      | None => Raise (KeyError key)
      end
  | _ => Raise TypeError
  end.

(** The characters of a text held as UTF-8: a byte that is no continuation
    byte starts a character. *)
Fixpoint characters (s : string) : list string :=
  match s with
  | EmptyString => []
  | String b s' =>
      match s' with
      | EmptyString => [String b EmptyString]
      | String b' _ =>
          if Text.is_continuation (N_of_ascii b')
          then match characters s' with
               | c :: cs => String b c :: cs
               | [] => [String b EmptyString]
               end
          else String b EmptyString :: characters s'
      end
  end.

(** [all_results.extend(results)]: the items of a sequence, the keys of a
    [dict], the characters of a text, the bytes of a byte string as
    integers. *)
Definition extend (all_results : list pyval) (results : pyval)
    : outcome (list pyval) :=
  match results with
  | PList l | PTuple l | PSet l => Ok (all_results ++ l)%list
  | PDict kv => Ok (all_results ++ (fst <$> kv))%list
  | PStr s => Ok (all_results ++ (PStr <$> characters s))%list
  | PBytes s =>
      Ok (all_results
          ++ ((fun b => PInt (Z.of_N (N_of_ascii b))) <$> list_ascii_of_string s))%list
  | PNone | PBool _ | PInt _ | PFloat _ => Raise TypeError
  end.

(** One pass through the [while] loop: the loop goes on with a new state,
    or the body of the [for] loop has ended. *)
Inductive pass : Type :=
| Next (offset : Z) (total_results : option pyval) (all_results : list pyval)
| Stop (r : ended (list pyval)).

Section Server.

(** [requests.get(url)], [response.raise_for_status()] and
    [response.json()] for the URL of a condition and an offset: the parsed
    body, or [None] for a [RequestException].  In a run each URL is asked
    for once at most, the offset growing with every pass.  The variable
    [total_results] is [None] while it holds [float(inf)]; no parsed body
    holds an infinite number. *)
Variable fetch : Z → Z → option pyval.

Definition page_pass (condition offset : Z) (total_results : option pyval)
    (all_results : list pyval) : pass :=
  match (match total_results with
         | None => Ok true
         | Some t => int_lt offset t
         end) with
  | Raise e => Stop (Crashed e)
  | Ok false => Stop (Done all_results)
  | Ok true =>
      match fetch condition offset with
      | None => Stop RequestFailed
      | Some data =>
          match get_default "results" (PList []) data with
          | Raise e => Stop (Crashed e)
          | Ok results =>
              if negb (truthy results) then Stop (Done all_results)
              else
                match extend all_results results with
                | Raise e => Stop (Crashed e)
                | Ok all_results =>
                    match total_results with
                    | Some t => Next (offset + limit) (Some t) all_results
                    | None =>
                        match (pagination ← subscript data "pagination";
                               subscript pagination "total") with
                        | Raise e => Stop (Crashed e)
                        | Ok total => Next (offset + limit) (Some total) all_results
                        end
                    end
                end
          end
      end
  end.

(** The [while] loop, with a bound on the number of passes; [None] when
    the bound is reached. *)
Fixpoint pages (fuel : nat) (condition offset : Z) (total_results : option pyval)
    (all_results : list pyval) : option (ended (list pyval)) :=
  match fuel with
  | O => None
  | S fuel =>
      match page_pass condition offset total_results all_results with
      | Stop r => Some r
      | Next offset total_results all_results =>
          pages fuel condition offset total_results all_results
      end
  end.

Definition download (fuel : nat) (condition : Z) : option (ended (list pyval)) :=
  pages fuel condition 0 None [].

(** The [for] loop over the conditions.  A table is built from the records
    of a condition, tagged with its name; the building is left to pandas and
    the table is kept here as the name and the records. *)
Fixpoint scrape_conditions (fuel : nat) (conditions : list (Z * string))
    (all_dfs : list (string * list pyval))
    : option (ended (list (string * list pyval))) :=
  match conditions with
  | [] => Some (Done all_dfs)
  | (condition_code, condition_name) :: conditions =>
      match download fuel condition_code with
      | None => None
      | Some (Done all_results) =>
          scrape_conditions fuel conditions
            (all_dfs ++ [(condition_name, all_results)])%list
      | Some RequestFailed => scrape_conditions fuel conditions all_dfs
      | Some (Crashed e) => Some (Crashed e)
      end
  end.

(** def sreality_scrape().  [pd.concat] of no table raises [ValueError]. *)
Definition sreality_scrape (fuel : nat)
    : option (ended (list (string * list pyval))) :=
  match scrape_conditions fuel condition_map [] with
  | Some (Done []) => Some (Crashed (ValueError "No objects to concatenate"))
  | r => r
  end.

(** What the [for] loop keeps of a condition. *)
Definition kept (fuel : nat) (condition : Z * string) : option (string * list pyval) :=
  match download fuel (fst condition) with
  | Some (Done all_results) => Some (snd condition, all_results)
  | _ => None
  end.

End Server.

(** A server that holds the listings [L] of every condition and answers
    each request with the page at the offset and the number of listings. *)
Definition page_of (L : list pyval) (offset : Z) : pyval :=
  PDict [ (PStr "results", PList (take 22 (drop (Z.to_nat offset) L)));
          (PStr "pagination", PDict [(PStr "total", PInt (Z.of_nat (length L)))]) ].

Definition consistent (fetch : Z → Z → option pyval) (condition : Z) (L : list pyval)
    : Prop :=
  ∀ offset, 0 <= offset → ∃ kv,
    fetch condition offset = Some (PDict kv) ∧
    entry "results" kv = Some (PList (take 22 (drop (Z.to_nat offset) L))) ∧
    ∃ kv', entry "pagination" kv = Some (PDict kv') ∧
           entry "total" kv' = Some (PInt (Z.of_nat (length L))).

(** A server that answers the first request of a condition and fails on
    every later one. *)
Definition first_page_only (L : list pyval) (condition offset : Z) : option pyval :=
  if offset =? 0 then Some (page_of L 0) else None.

End Scrape.

(** ** A listing that aborts the run *)

Module PipelineAbort.
Import PyMath Parser Pandas Pipeline.

(** One listing whose detail blob has an entry named by a number. *)
Definition risky_listings : DataFrame :=
  {| columns := ["price_czk"; "locality"; "detail"];
     rows := [ list_to_map [ ("price_czk", PInt 5000000);
                             ("locality", PStr locality_blob);
                             ("detail", PStr blob_numeric_name) ] ] |}.

End PipelineAbort.

(** * Properties *)

(** ** Outcomes *)

Lemma bind_Ok {A B} (m : outcome A) (k : A → outcome B) b :
  m ≫= k = Ok b ↔ ∃ a, m = Ok a ∧ k a = Ok b.
Proof.
  destruct m as [a|e]; simpl; split.
  - intros H; exists a; auto.
  - intros (a' & Ha & Hk); congruence.
  - discriminate.
  - intros (a' & Ha & _); discriminate.
Qed.

Lemma bind_Raise {A B} (m : outcome A) (k : A → outcome B) e :
  m = Raise e → m ≫= k = Raise e.
Proof. intros ->; reflexivity. Qed.


(** ** The floor normalizer *)

Module FloorFacts.
Import Text Floor.
#[local] Arguments String.append !s1 s2 : simpl nomatch.

Lemma prefix_spec n s :
  String.prefix n s = true ↔ ∃ post, s = (n ++ post)%string.
Proof.
  revert s. induction n as [|a n IH]; intros s.
  - split; [intros _; by exists s | by destruct s].
  - destruct s as [|b s]; simpl.
    + split; [discriminate | intros [post H]; discriminate].
    + destruct (ascii_dec a b) as [->|Hne].
      * rewrite IH. split; intros [post H]; exists post; congruence.
      * split; [discriminate | intros [post H]; congruence].
Qed.

Lemma str_in_spec n s : str_in n s = true ↔ is_substring n s.
Proof.
  unfold is_substring. induction s as [|b s IH].
  - change (str_in n EmptyString) with (String.prefix n EmptyString || false).
    rewrite orb_false_r, prefix_spec. split.
    + intros [post H]. by exists EmptyString, post.
    + intros (pre & post & H). destruct pre; [by exists post|discriminate].
  - change (str_in n (String b s))
      with (String.prefix n (String b s) || str_in n s).
    rewrite orb_true_iff, IH, prefix_spec. split.
    + intros [[post H] | (pre & post & H)].
      * by exists EmptyString, post.
      * exists (String b pre), post. simpl. by rewrite H.
    + intros (pre & post & H). destruct pre as [|c pre]; simpl in H.
      * left. by exists post.
      * right. exists pre, post. congruence.
Qed.

Lemma str_in_false n s : str_in n s = false ↔ ¬ is_substring n s.
Proof. rewrite <- str_in_spec. destruct (str_in n s); split; congruence. Qed.

Lemma take_digits_split s :
  ∃ post, s = (take_digits s ++ post)%string ∧ starts_with_digit post = false
          ∧ all_digits (take_digits s) = true.
Proof.
  induction s as [|b s (post & Hs & Hp & Hd)]; simpl.
  - by exists EmptyString.
  - destruct (is_digit b) eqn:Hb.
    + exists post. simpl. rewrite Hb, Hd. split; [congruence | auto].
    + exists (String b s). simpl. auto.
Qed.


Lemma take_digits_empty s :
  take_digits s = EmptyString ↔ starts_with_digit s = false.
Proof.
  destruct s as [|b s]; simpl; [easy|].
  destruct (is_digit b); split; congruence.
Qed.


(** A match at the start of the text. *)
Lemma match_signed_int_Some s m :
  match_signed_int s = Some m →
  ∃ ds post, s = (m ++ post)%string ∧ ds ≠ EmptyString ∧ all_digits ds = true ∧
    starts_with_digit post = false ∧ (m = String "-" ds ∨ m = ds).
Proof.
  unfold match_signed_int. intros H.
  assert (Hplain : ∀ t, match take_digits t with
                        | EmptyString => None | ds => Some ds end = Some m →
            ∃ post, t = (m ++ post)%string ∧ m ≠ EmptyString ∧
                    all_digits m = true ∧ starts_with_digit post = false).
  { intros t Ht. destruct (take_digits_split t) as (post & Hs & Hp & Hd).
    destruct (take_digits t) as [|b ds] eqn:Htd; [discriminate|].
    injection Ht as <-. by exists post. }
  destruct s as [|b s'].
  - destruct (Hplain EmptyString H) as (post & ? & ? & ? & ?).
    exists m, post. auto 10.
  - destruct (ascii_dec b "-") as [->|Hne].
    + destruct (take_digits_split s') as (post & Hs & Hp & Hd).
      destruct (take_digits s') as [|c ds] eqn:Htd; [discriminate|].
      injection H as <-. exists (String c ds), post.
      split; [simpl in Hs |- *; congruence|]. auto 10.
    + assert (H' : match take_digits (String b s') with
                   | EmptyString => None | ds => Some ds end = Some m).
      { destruct b as [[] [] [] [] [] [] [] []]; try exact H; congruence. }
      destruct (Hplain _ H') as (post & ? & ? & ? & ?).
      exists m, post. auto 10.
Qed.

Lemma match_signed_int_None s :
  match_signed_int s = None →
  starts_with_digit s = false ∧
  ∀ s', s = String "-" s' → starts_with_digit s' = false.
Proof.
  unfold match_signed_int. intros H. destruct s as [|b s']; [easy|].
  destruct (ascii_dec b "-") as [->|Hne].
  - split; [reflexivity|]. intros s'' [= <-].
    apply take_digits_empty. by destruct (take_digits s').
  - assert (H' : match take_digits (String b s') with
                 | EmptyString => None | ds => Some ds end = None).
    { destruct b as [[] [] [] [] [] [] [] []]; try exact H; congruence. }
    split; [|congruence].
    apply take_digits_empty. by destruct (take_digits (String b s')).
Qed.


Lemma re_search_unfold s :
  re_search_signed_int s =
    match match_signed_int s with
    | Some m => Some m
    | None => match s with
              | EmptyString => None
              | String _ s' => re_search_signed_int s'
              end
    end.
Proof. by destruct s. Qed.

(** The search returns the first signed integer substring. *)
Lemma re_search_sound s m :
  re_search_signed_int s = Some m → first_signed_int s m.
Proof.
  induction s as [|b s IH]; rewrite re_search_unfold.
  - destruct (match_signed_int EmptyString) as [m'|] eqn:Hm; [|discriminate].
    intros [= <-]. destruct (match_signed_int_Some _ _ Hm)
      as (ds & post & Hs & Hne & Hd & Hp & Hcase).
    exists EmptyString, ds, post. repeat split; try assumption.
    destruct Hcase as [->| ->]; [by left|right]. split; [reflexivity|].
    intros [|c p]; discriminate.
  - destruct (match_signed_int (String b s)) as [m'|] eqn:Hm.
    + intros [= <-]. destruct (match_signed_int_Some _ _ Hm)
        as (ds & post & Hs & Hne & Hd & Hp & Hcase).
      exists EmptyString, ds, post. repeat split; try assumption.
      destruct Hcase as [->| ->]; [by left|right]. split; [reflexivity|].
      intros [|c p]; discriminate.
    + intros Hrec. destruct (IH Hrec)
        as (pre & ds & post & Hs & Hne & Hd & Hpre & Hp & Hcase).
      destruct (match_signed_int_None _ Hm) as [Hb Hminus]. simpl in Hb.
      exists (String b pre), ds, post. repeat split; try assumption.
      * simpl. by rewrite Hs.
      * simpl. by rewrite Hb.
      * destruct Hcase as [->|[-> Hend]]; [by left|right].
        split; [reflexivity|]. intros [|c p]; simpl.
        -- intros [= -> ->]. specialize (Hminus _ eq_refl).
           simpl in Hs. rewrite Hs in Hminus.
           destruct ds as [|d ds]; [congruence|]. simpl in *.
           apply andb_true_iff in Hd as [Hd _]. congruence.
        -- intros [= -> ->]. by apply (Hend p).
Qed.

Lemma re_search_none s : re_search_signed_int s = None → no_digit s = true.
Proof.
  induction s as [|b s IH]; [reflexivity|]. rewrite re_search_unfold.
  destruct (match_signed_int (String b s)) eqn:Hm; [discriminate|].
  intros Hrec. destruct (match_signed_int_None _ Hm) as [Hb _].
  simpl in *. by rewrite Hb, IH.
Qed.





Example lower_czech :
  str_lower "PŘÍZEMÍ, Suterén, ĚŠČŘŽÝÁÍÉŮÚŇŤĎ" = "přízemí, suterén, ěščřžýáíéůúňťď".
Proof. reflexivity. Qed.

Example int_of_text_samples :
  int_of_text "2" = 2%Z ∧ int_of_text "-1" = (-1)%Z ∧ int_of_text "012" = 12%Z.
Proof. repeat split. Qed.



(** The normalizer is total and its answer is decided by the cascade: the
    search finds a signed integer exactly when the text holds a digit. *)
Lemma extract_floor_num_digit s :
  ¬ is_substring "přízemí" (str_lower s) →
  ¬ is_substring "suterén" (str_lower s) →
  no_digit (str_lower s) = false →
  ∃ m, first_signed_int (str_lower s) m ∧
       extract_floor_num (PStr s) = int_of_text m.
Proof.
  intros Hg Hb Hn. apply str_in_false in Hg. apply str_in_false in Hb.
  unfold extract_floor_num. rewrite Hg, Hb.
  destruct (re_search_signed_int (str_lower s)) as [m|] eqn:Hm.
  - exists m. split; [by apply re_search_sound | reflexivity].
  - apply re_search_none in Hm. congruence.
Qed.

End FloorFacts.

(** ** The haversine formula *)

Module GeoFacts.
Import PyMath Geo.
Local Open Scope R_scope.

Lemma sin_sqr_bound x : 0 <= sin x ^ 2 <= 1.
Proof.
  pose proof (sin2_cos2 x) as H. unfold Rsqr in H.
  pose proof (pow2_ge_0 (sin x)). pose proof (pow2_ge_0 (cos x)).
  split; [assumption | nra].
Qed.

Lemma cos_product p q : cos p * cos q = (cos (q - p) + cos (q + p)) / 2.
Proof. rewrite cos_minus, cos_plus. lra. Qed.

Lemma cos_half_angle x : cos x = 1 - 2 * sin (x / 2) ^ 2.
Proof.
  replace x with (2 * (x / 2)) at 1 by lra.
  rewrite cos_2a_sin. simpl. lra.
Qed.

(** The argument handed to [sqrt] and then to [asin] stays in [0, 1]: over
    the reals neither call can leave its domain. *)
Lemma hav_arg_range lon1 lat1 lon2 lat2 :
  0 <= hav_arg lon1 lat1 lon2 lat2 <= 1.
Proof.
  unfold hav_arg.
  set (p := lat1 * (PI / 180)). set (q := lat2 * (PI / 180)).
  set (l := (lon2 * (PI / 180) - lon1 * (PI / 180)) / 2).
  rewrite (cos_product p q), (cos_half_angle (q - p)).
  pose proof (sin_sqr_bound ((q - p) / 2)) as Hu.
  pose proof (sin_sqr_bound l) as Hv.
  pose proof (COS_bound (q + p)) as Hk.
  set (u := sin ((q - p) / 2) ^ 2) in *. set (v := sin l ^ 2) in *.
  set (k := cos (q + p)) in *.
  split; nra.
Qed.

Lemma sqrt_unit x : 0 <= x <= 1 → 0 <= sqrt x <= 1.
Proof.
  intros [H0 H1]. split; [apply sqrt_pos|].
  rewrite <- sqrt_1. apply sqrt_le_1; lra.
Qed.

Lemma asin_nonneg x : 0 <= x <= 1 → 0 <= asin x.
Proof.
  intros [H0 H1]. destruct (Req_dec x 0) as [->|Hx].
  - rewrite asin_0. lra.
  - destruct (Req_dec x 1) as [->|Hx1].
    + rewrite asin_1. pose proof PI2_RGT_0. lra.
    + rewrite asin_atan by lra. rewrite <- atan_0. left.
      apply atan_increasing. apply Rdiv_lt_0_compat; [lra|].
      apply sqrt_lt_R0. unfold Rsqr. nra.
Qed.

Lemma great_circle_nonneg lon1 lat1 lon2 lat2 :
  0 <= great_circle lon1 lat1 lon2 lat2.
Proof.
  unfold great_circle.
  pose proof (asin_nonneg _ (sqrt_unit _ (hav_arg_range lon1 lat1 lon2 lat2))).
  nra.
Qed.

(** On numbers [haversine] returns, and returns the great-circle value. *)
Lemma haversine_number lon1 lat1 lon2 lat2 r1 r2 r3 r4 :
  as_float lon1 = Ok (Num r1) → as_float lat1 = Ok (Num r2) →
  as_float lon2 = Ok (Num r3) → as_float lat2 = Ok (Num r4) →
  haversine lon1 lat1 lon2 lat2 = Ok (Num (great_circle r1 r2 r3 r4)).
Proof.
  intros H1 H2 H3 H4. unfold haversine, radians.
  rewrite H1, H2, H3, H4.
  cbv [mbind mret outcome_mbind outcome_mret outcome_bind lift1 lift2
       fadd fsub fmul fdiv fpow fsin fcos math_sqrt].
  fold (hav_arg r1 r2 r3 r4).
  pose proof (hav_arg_range r1 r2 r3 r4) as Ha.
  pose proof (sqrt_unit _ Ha) as Hs.
  destruct (Rlt_dec (hav_arg r1 r2 r3 r4) 0); [lra|].
  cbv [math_asin lift2].
  destruct (Rlt_dec (sqrt (hav_arg r1 r2 r3 r4)) (-1)); [lra|].
  destruct (Rlt_dec 1 (sqrt (hav_arg r1 r2 r3 r4))); [lra|].
  reflexivity.
Qed.

Lemma great_circle_self lon lat : great_circle lon lat lon lat = 0.
Proof.
  unfold great_circle, hav_arg.
  replace ((lat * (PI / 180) - lat * (PI / 180)) / 2) with 0 by lra.
  replace ((lon * (PI / 180) - lon * (PI / 180)) / 2) with 0 by lra.
  rewrite sin_0.
  replace (0 ^ 2 + cos (lat * (PI / 180)) * cos (lat * (PI / 180)) * 0 ^ 2)
    with 0 by (simpl; lra).
  rewrite sqrt_0, asin_0. lra.
Qed.

Lemma sin_sqr_opp x : sin (- x) ^ 2 = sin x ^ 2.
Proof. rewrite sin_neg. simpl. lra. Qed.

Lemma hav_arg_sym lon1 lat1 lon2 lat2 :
  hav_arg lon1 lat1 lon2 lat2 = hav_arg lon2 lat2 lon1 lat1.
Proof.
  unfold hav_arg.
  replace ((lat2 * (PI / 180) - lat1 * (PI / 180)) / 2)
    with (- ((lat1 * (PI / 180) - lat2 * (PI / 180)) / 2)) by lra.
  replace ((lon2 * (PI / 180) - lon1 * (PI / 180)) / 2)
    with (- ((lon1 * (PI / 180) - lon2 * (PI / 180)) / 2)) by lra.
  rewrite !sin_sqr_opp. lra.
Qed.

Lemma great_circle_sym lon1 lat1 lon2 lat2 :
  great_circle lon1 lat1 lon2 lat2 = great_circle lon2 lat2 lon1 lat1.
Proof. unfold great_circle. now rewrite hav_arg_sym. Qed.

(** *** The search for the nearest stations *)

Lemma results_of_lookup a b c n g :
  results_of a b c n g !! "dist_A" = Some a ∧
  results_of a b c n g !! "dist_B" = Some b ∧
  results_of a b c n g !! "dist_C" = Some c ∧
  results_of a b c n g !! "nearest_name" = Some n ∧
  results_of a b c n g !! "global_min_dist" = Some g.
Proof. unfold results_of. repeat split; by simplify_map_eq. Qed.

Lemma results_of_dist_key a b c n g l :
  results_of a b c n g !! ("dist_" ++ l) =
    if decide (l = "A") then Some a
    else if decide (l = "B") then Some b
    else if decide (l = "C") then Some c
    else None.
Proof.
  unfold results_of. rewrite !lookup_insert, lookup_empty.
  change ("dist_" ++ l) with (String "d" (String "i" (String "s" (String "t" (String "_" l))))).
  repeat case_decide; simplify_eq; try reflexivity; try congruence.
Qed.

Ltac map_ext_inserts :=
  unfold results_of; apply map_eq; intros k;
  rewrite ?lookup_insert, ?lookup_empty;
  repeat case_decide; simplify_eq; try reflexivity; try congruence.

Lemma results_of_set_A x a b c n g :
  <["dist_A" := x]> (results_of a b c n g) = results_of x b c n g.
Proof. map_ext_inserts. Qed.
Lemma results_of_set_B x a b c n g :
  <["dist_B" := x]> (results_of a b c n g) = results_of a x c n g.
Proof. map_ext_inserts. Qed.
Lemma results_of_set_C x a b c n g :
  <["dist_C" := x]> (results_of a b c n g) = results_of a b x n g.
Proof. map_ext_inserts. Qed.
Lemma results_of_set_nearest x y a b c n g :
  <["nearest_name" := x]> (<["global_min_dist" := y]> (results_of a b c n g))
  = results_of a b c x y.
Proof. map_ext_inserts. Qed.

Lemma results_init_summary : results_init = summary_results summary_init.
Proof. reflexivity. Qed.

Lemma view_station_inv r s :
  view_station r = Some s →
  ∃ lat lng, r !! "line" = Some (st_line s) ∧ r !! "name" = Some (st_name s) ∧
    r !! "lat" = Some lat ∧ as_float lat = Ok (Num (st_lat s)) ∧
    r !! "lng" = Some lng ∧ as_float lng = Ok (Num (st_lng s)).
Proof.
  unfold view_station, number. intros H.
  destruct (r !! "line") as [line|]; [|discriminate].
  destruct (r !! "name") as [name|]; [|discriminate].
  destruct (r !! "lat") as [lat|]; [|discriminate]. simpl in H.
  destruct (as_float lat) as [[|x]|] eqn:Hlat; try discriminate. simpl in H.
  destruct (r !! "lng") as [lng|]; [|discriminate]. simpl in H.
  destruct (as_float lng) as [[|y]|] eqn:Hlng; try discriminate.
  simpl in H. injection H as <-. exists lat, lng. simpl. auto 10.
Qed.

Lemma line_step_number lat0 lon0 L s v :
  is_number v → is_number (line_step lat0 lon0 L s v).
Proof.
  intros Hv. unfold line_step.
  destruct (on_line L s && closer _ v); [|assumption].
  eexists; reflexivity.
Qed.

Lemma scan_step_numeric lat0 lon0 st s :
  numeric_summary st → numeric_summary (scan_step lat0 lon0 st s).
Proof.
  intros (HA & HB & HC & HG). unfold numeric_summary, scan_step; simpl.
  repeat split; try by apply line_step_number.
  destruct (closer _ _); [eexists; reflexivity | assumption].
Qed.

(** The update of one line's entry, as the loop body performs it. *)
Lemma line_update lat0 lon0 s a b c n g :
  is_number a → is_number b → is_number c →
  match dist_key (st_line s) with
  | Some col_name =>
      match results_of a b c n g !! col_name with
      | Some stored =>
          lt ← lt_stored (Num (dist_to lat0 lon0 s)) stored;
          mret (if lt : bool
                then <[col_name := PFloat (Num (dist_to lat0 lon0 s))]>
                       (results_of a b c n g)
                else results_of a b c n g)
      | None => mret (results_of a b c n g)
      end
  | None => mret (results_of a b c n g)
  end
  = Ok (results_of (line_step lat0 lon0 "A" s a) (line_step lat0 lon0 "B" s b)
                   (line_step lat0 lon0 "C" s c) n g).
Proof.
  intros [ma Ha] [mb Hb] [mc Hc].
  unfold line_step, on_line, dist_key, closer, lt_stored.
  destruct (st_line s) as [| | | |l| | | | |]; try reflexivity.
  rewrite results_of_dist_key.
  destruct (decide (l = "A")) as [->|HnA].
  { rewrite Ha. simpl. destruct (fltb _ _); simpl;
      [by rewrite results_of_set_A | reflexivity]. }
  destruct (decide (l = "B")) as [->|HnB].
  { rewrite Hb. simpl. destruct (fltb _ _); simpl;
      [by rewrite results_of_set_B | reflexivity]. }
  destruct (decide (l = "C")) as [->|HnC].
  { rewrite Hc. simpl. destruct (fltb _ _); simpl;
      [by rewrite results_of_set_C | reflexivity]. }
  reflexivity.
Qed.

Lemma scan_station_step lat lon lat0 lon0 r s st :
  as_float lat = Ok (Num lat0) → as_float lon = Ok (Num lon0) →
  view_station r = Some s → numeric_summary st →
  scan_station lat lon (summary_results st) r
  = Ok (summary_results (scan_step lat0 lon0 st s)).
Proof.
  intros Hlat Hlon Hs (HA & HB & HC & [mg HG]).
  destruct (view_station_inv _ _ Hs) as (slat & slng & Hl & Hn & Hla & Hfa & Hlo & Hfo).
  unfold scan_station, getitem. rewrite Hl, Hn, Hla, Hlo. simpl.
  rewrite (haversine_number _ _ _ _ _ _ _ _ Hlon Hlat Hfo Hfa). simpl.
  fold (dist_to lat0 lon0 s). unfold summary_results.
  rewrite (line_update lat0 lon0 s _ _ _ _ _ HA HB HC). simpl.
  destruct (results_of_lookup (line_step lat0 lon0 "A" s (sum_A st))
    (line_step lat0 lon0 "B" s (sum_B st)) (line_step lat0 lon0 "C" s (sum_C st))
    (sum_name st) (sum_global st)) as (_ & _ & _ & _ & ->).
  simpl. unfold lt_stored, closer. rewrite HG. simpl.
  destruct (fltb _ _); simpl; [|reflexivity].
  by rewrite results_of_set_nearest.
Qed.

Lemma scan_stations_fold lat lon lat0 lon0 rws sts st :
  as_float lat = Ok (Num lat0) → as_float lon = Ok (Num lon0) →
  mapM view_station rws = Some sts → numeric_summary st →
  foldM (scan_station lat lon) rws (summary_results st)
  = Ok (summary_results (fold_left (scan_step lat0 lon0) sts st)).
Proof.
  intros Hlat Hlon. revert sts st.
  induction rws as [|r rws IH]; intros sts st Hv Hnum.
  - injection Hv as <-. reflexivity.
  - simpl in Hv. destruct (view_station r) as [s|] eqn:Hs; [|discriminate].
    simpl in Hv. destruct (mapM view_station rws) as [sts'|]; [|discriminate].
    injection Hv as <-. simpl.
    rewrite (scan_station_step _ _ _ _ _ _ _ Hlat Hlon Hs Hnum). simpl.
    apply IH; [reflexivity | by apply scan_step_numeric].
Qed.

Lemma fltb_Num a b : fltb (Num a) (Num b) = true ↔ a < b.
Proof. unfold fltb. destruct (Rlt_dec a b); split; intros; easy. Qed.

Lemma fltb_Num_false a b : fltb (Num a) (Num b) = false ↔ b <= a.
Proof.
  unfold fltb. destruct (Rlt_dec a b); split; intros; try easy; lra.
Qed.



Lemma dist_to_same_place lat0 lon0 s :
  st_lat s = lat0 → st_lng s = lon0 → dist_to lat0 lon0 s = 0.
Proof. intros <- <-. apply great_circle_self. Qed.




Lemma summary_init_numeric : numeric_summary summary_init.
Proof. repeat split; eexists; reflexivity. Qed.

Lemma as_float_number_not_na v r : as_float v = Ok (Num r) → isna v = false.
Proof. destruct v as [| | |[|]| | | | | |]; simpl; intros; congruence. Qed.

(** With numeric coordinates on both sides the search returns the four
    values the loop ends with. *)
Lemma get_metro_distances_summary row metro_df lat lon lat0 lon0 sts :
  row !! "latitude" = Some lat → row !! "longitude" = Some lon →
  as_float lat = Ok (Num lat0) → as_float lon = Ok (Num lon0) →
  mapM view_station (rows metro_df) = Some sts →
  let st := fold_left (scan_step lat0 lon0) sts summary_init in
  get_metro_distances row metro_df
  = Ok [sum_A st; sum_B st; sum_C st; sum_name st].
Proof.
  intros Hrlat Hrlon Hlat Hlon Hsts st.
  unfold get_metro_distances, getitem. rewrite Hrlat, Hrlon. simpl.
  rewrite (as_float_number_not_na _ _ Hlat), (as_float_number_not_na _ _ Hlon).
  simpl. rewrite results_init_summary.
  rewrite (scan_stations_fold _ _ _ _ _ _ _ Hlat Hlon Hsts summary_init_numeric).
  simpl. fold st. unfold summary_results.
  destruct (results_of_lookup (sum_A st) (sum_B st) (sum_C st) (sum_name st)
              (sum_global st)) as (-> & -> & -> & -> & _).
  reflexivity.
Qed.




Lemma closer_true d v m : as_float v = Ok (Num m) → d < m → closer d v = true.
Proof. intros Hv Hlt. unfold closer. rewrite Hv. by apply fltb_Num. Qed.

Lemma closer_false d v m :
  as_float v = Ok (Num m) → m <= d → closer d v = false.
Proof. intros Hv Hle. unfold closer. rewrite Hv. by apply fltb_Num_false. Qed.

Lemma great_circle_half_turn : great_circle 0 0 180 0 = PI * 6371000.
Proof.
  unfold great_circle, hav_arg.
  replace ((0 * (PI / 180) - 0 * (PI / 180)) / 2) with 0 by lra.
  replace ((180 * (PI / 180) - 0 * (PI / 180)) / 2) with (PI / 2) by lra.
  replace (0 * (PI / 180)) with 0 by lra.
  rewrite sin_0, cos_0, sin_PI2.
  replace (0 ^ 2 + 1 * 1 * 1 ^ 2) with 1 by (simpl; lra).
  rewrite sqrt_1, asin_1. lra.
Qed.

Lemma half_turn_beyond_sentinel : sentinel < PI * 6371000.
Proof. unfold sentinel. pose proof PI2_3_2. lra. Qed.

(** The run on the three stations: line A keeps the sentinel although its
    station is some twenty thousand kilometres away, and the name is that of
    the first of the two stations at the listing's coordinates. *)
Lemma get_metro_distances_three :
  get_metro_distances row_equator metro_three
  = Ok [PInt 99999; PFloat (Num 0); PInt 99999; PStr "P"].
Proof.
  set (X := {| st_line := PStr "A"; st_name := PStr "X"; st_lat := 0; st_lng := 180 |}).
  set (P := {| st_line := PStr "B"; st_name := PStr "P"; st_lat := 0; st_lng := 0 |}).
  set (Q := {| st_line := PStr "B"; st_name := PStr "Q"; st_lat := 0; st_lng := 0 |}).
  rewrite (get_metro_distances_summary row_equator metro_three (PInt 0) (PInt 0)
             0 0 [X; P; Q]); try reflexivity.
  assert (HX : dist_to 0 0 X = PI * 6371000) by apply great_circle_half_turn.
  assert (HP : dist_to 0 0 P = 0) by (by apply dist_to_same_place).
  assert (HQ : dist_to 0 0 Q = 0) by (by apply dist_to_same_place).
  pose proof half_turn_beyond_sentinel as Hfar. unfold sentinel in Hfar.
  set (st := {| sum_A := PInt 99999; sum_B := PFloat (Num (dist_to 0 0 P));
                sum_C := PInt 99999; sum_name := PStr "P";
                sum_global := PFloat (Num (dist_to 0 0 P)) |}).
  assert (H1 : scan_step 0 0 summary_init X = summary_init).
  { unfold scan_step, line_step. cbn [sum_A sum_B sum_C sum_global sum_name summary_init].
    rewrite (closer_false (dist_to 0 0 X) (PInt 99999) 99999) by (reflexivity || lra).
    by rewrite !andb_false_r. }
  assert (H2 : scan_step 0 0 summary_init P = st).
  { unfold scan_step, line_step. cbn [sum_A sum_B sum_C sum_global sum_name summary_init].
    rewrite (closer_true (dist_to 0 0 P) (PInt 99999) 99999) by (reflexivity || lra).
    reflexivity. }
  assert (H3 : scan_step 0 0 st Q = st).
  { unfold scan_step, line_step, st. cbn [sum_A sum_B sum_C sum_global sum_name].
    rewrite (closer_false (dist_to 0 0 Q) (PFloat (Num (dist_to 0 0 P))) (dist_to 0 0 P))
      by (reflexivity || lra).
    by rewrite !andb_false_r. }
  cbn [fold_left]. rewrite H1, H2, H3. unfold st. cbn [sum_A sum_B sum_C sum_name].
  by rewrite HP.
Qed.

Lemma as_float_raises v e : as_float v = Raise e → e = TypeError.
Proof. destruct v as [| | |[|]| | | | | |]; simpl; intros; congruence. Qed.

(** A run on a row with a missing coordinate can only return the fully
    missing answer. *)
Lemma get_metro_distances_Ok_missing row metro_df a :
  get_metro_distances row metro_df = Ok a →
  isna (default (PFloat NaN) (row !! "latitude")) = true ∨
  isna (default (PFloat NaN) (row !! "longitude")) = true →
  a = [PFloat NaN; PFloat NaN; PFloat NaN; PNone].
Proof.
  unfold get_metro_distances, getitem.
  destruct (row !! "latitude") as [lat|]; [|discriminate].
  destruct (row !! "longitude") as [lon|]; [|discriminate].
  cbn [mbind outcome_mbind outcome_bind].
  intros H Hna. simpl in Hna.
  destruct Hna as [Hna|Hna]; rewrite Hna in H; rewrite ?orb_true_r in H;
    cbn [orb] in H; by injection H.
Qed.

(** *** The claims on the geo distance engine *)

(** C7. The distance from a point to itself is 0, and the distance is
    symmetric: swapping the two points gives the same outcome, which for
    numeric coordinates is the same real number of metres. *)
Theorem haversine_self_and_symmetric :
  (∀ lon lat x y, as_float lon = Ok (Num x) → as_float lat = Ok (Num y) →
     haversine lon lat lon lat = Ok (Num 0)) ∧
  (∀ lon1 lat1 lon2 lat2,
     haversine lon1 lat1 lon2 lat2 = haversine lon2 lat2 lon1 lat1) ∧
  (∀ lon1 lat1 lon2 lat2 x1 y1 x2 y2,
     as_float lon1 = Ok (Num x1) → as_float lat1 = Ok (Num y1) →
     as_float lon2 = Ok (Num x2) → as_float lat2 = Ok (Num y2) →
     ∃ d, haversine lon1 lat1 lon2 lat2 = Ok (Num d) ∧
          haversine lon2 lat2 lon1 lat1 = Ok (Num d)).
Proof.
  split; [|split].
  - intros lon lat x y Hx Hy.
    rewrite (haversine_number _ _ _ _ _ _ _ _ Hx Hy Hx Hy).
    by rewrite great_circle_self.
  - intros lon1 lat1 lon2 lat2. unfold haversine, radians.
    destruct (as_float lon1) as [[|x1]|] eqn:H1;
    destruct (as_float lat1) as [[|y1]|] eqn:H2;
    destruct (as_float lon2) as [[|x2]|] eqn:H3;
    destruct (as_float lat2) as [[|y2]|] eqn:H4;
    repeat match goal with
           | H : as_float _ = Raise _ |- _ => apply as_float_raises in H; subst
           end;
    try reflexivity.
    pose proof (haversine_number _ _ _ _ _ _ _ _ H1 H2 H3 H4) as Hl.
    pose proof (haversine_number _ _ _ _ _ _ _ _ H3 H4 H1 H2) as Hr.
    unfold haversine, radians in Hl, Hr. rewrite H1, H2, H3, H4 in Hl, Hr.
    rewrite Hl, Hr. by rewrite great_circle_sym.
  - intros lon1 lat1 lon2 lat2 x1 y1 x2 y2 H1 H2 H3 H4.
    exists (great_circle x1 y1 x2 y2). split.
    + by apply haversine_number.
    + rewrite great_circle_sym. by apply haversine_number.
Qed.

Lemma haversine_self_and_symmetric_witness :
  haversine (PFloat (Num 14)) (PInt 50) (PFloat (Num 14)) (PInt 50) = Ok (Num 0).
Proof.
  apply (proj1 haversine_self_and_symmetric _ _ 14 50); reflexivity.
Defined.




(** C5. When the latitude or the longitude of the row is missing ([None] or
    [nan]), [get_metro_distances] returns the fully missing result: three
    [nan] distances and no name.  It does so for every station table, also
    one whose rows could not be scanned, so no distance is computed and
    nothing is raised. *)
Theorem get_metro_distances_missing row metro_df lat lon :
  row !! "latitude" = Some lat → row !! "longitude" = Some lon →
  isna lat = true ∨ isna lon = true →
  get_metro_distances row metro_df
  = Ok [PFloat NaN; PFloat NaN; PFloat NaN; PNone].
Proof.
  intros Hlat Hlon Hna. unfold get_metro_distances, getitem.
  rewrite Hlat, Hlon. simpl.
  destruct Hna as [-> | ->]; [reflexivity|].
  by rewrite orb_true_r.
Qed.

Lemma get_metro_distances_missing_witness :
  get_metro_distances (<["latitude" := PFloat NaN]> (<["longitude" := PInt 14]> ∅))
    metro_three
  = Ok [PFloat NaN; PFloat NaN; PFloat NaN; PNone].
Proof.
  apply (get_metro_distances_missing _ _ (PFloat NaN) (PInt 14));
    [reflexivity | reflexivity | left; reflexivity].
Defined.

End GeoFacts.

(** ** The record parser *)

Module ParserFacts.
Import Text Parser.

Lemma route_text chain n : route chain (PStr n) = Ok (key_of_name chain n).
Proof.
  induction chain as [|[label key] chain IH]; simpl; [reflexivity|].
  destruct (str_in label n); [reflexivity | exact IH].
Qed.

Lemma dict_lookup_set key k v d :
  dict_lookup key (dict_set k v d) =
    if decide (k = key) then Some v else dict_lookup key d.
Proof.
  induction d as [|[k' w] d IH]; simpl.
  - by destruct (decide (k = key)).
  - destruct (decide (k' = k)) as [->|Hne]; simpl.
    + by destruct (decide (k = key)).
    + rewrite IH. destruct (decide (k' = key)) as [->|]; [|reflexivity].
      by destruct (decide (k = key)); [congruence|].
Qed.

(** A tame entry does not raise, and fills exactly the key it offers a
    value to. *)
Lemma collect_item_tame extracted item :
  tame item = true →
  ∃ d, collect_item extracted item = Ok d ∧
       ∀ key, dict_lookup key d =
              match offers key item with
              | Some v => Some v
              | None => dict_lookup key extracted
              end.
Proof.
  intros Ht. destruct item; try (by exists extracted).
  unfold collect_item, offers, tame in *.
  destruct (dict_get "name" kv) as [| | | |n| | | | |] eqn:Hn; try discriminate.
  - by exists extracted.
  - rewrite route_text. unfold truthy.
    destruct (decide (n = EmptyString)) as [->|Hne]; cbn [negb].
    + exists extracted. split; [reflexivity|]. intros key.
      case_decide as Hc; [by destruct Hc | reflexivity].
    + destruct (key_of_name labels n) as [k|] eqn:Hk;
        cbn [mbind outcome_mbind outcome_bind].
      * eexists. split; [reflexivity|]. intros key. rewrite dict_lookup_set.
        destruct (decide (k = key)) as [->|Hkey].
        -- case_decide as Hc; [reflexivity|]. by destruct Hc.
        -- case_decide as Hc; [|reflexivity]. destruct Hc; congruence.
      * exists extracted. split; [reflexivity|]. intros key.
        case_decide as Hc; [|reflexivity]. destruct Hc; congruence.
Qed.

Lemma last_offer_cons key item items :
  last_offer key (item :: items) =
    match last_offer key items with
    | Some v => Some v
    | None => offers key item
    end.
Proof.
  unfold last_offer. simpl. destruct (offers key item) as [v|]; simpl.
  - apply last_cons.
  - by destruct (last _).
Qed.

Lemma collect_items_tame items extracted :
  forallb tame items = true →
  ∃ d, foldM collect_item items extracted = Ok d ∧
       ∀ key, dict_lookup key d =
              match last_offer key items with
              | Some v => Some v
              | None => dict_lookup key extracted
              end.
Proof.
  revert extracted. induction items as [|item items IH]; intros extracted Ht.
  - by exists extracted.
  - simpl in Ht. apply andb_true_iff in Ht as [Hitem Hitems].
    destruct (collect_item_tame extracted item Hitem) as (d1 & Hd1 & Hl1).
    destruct (IH d1 Hitems) as (d & Hd & Hl).
    exists d. simpl. rewrite Hd1. simpl. split; [exact Hd|].
    intros key. rewrite Hl, last_offer_cons, Hl1.
    by destruct (last_offer key items).
Qed.

(** What the parser does with a value that is no list, and with the two
    exceptions it catches. *)
Lemma extract_details_not_list literal_eval x v :
  literal_eval x = Ok v → (∀ items, v ≠ PList items) →
  extract_details literal_eval x = Ok [].
Proof.
  intros Hx Hv. unfold extract_details, safe_eval. rewrite Hx. simpl.
  destruct v; try reflexivity. by destruct (Hv l).
Qed.

Lemma extract_details_caught literal_eval x e :
  literal_eval x = Raise e → (e = SyntaxError ∨ ∃ msg, e = ValueError msg) →
  extract_details literal_eval x = Ok [].
Proof.
  intros Hx He. unfold extract_details, safe_eval. rewrite Hx.
  by destruct He as [->|[msg ->]].
Qed.

Lemma extract_details_uncaught literal_eval x e :
  literal_eval x = Raise e → e = TypeError ∨ e = MemoryError ∨ e = RecursionError →
  extract_details literal_eval x = Raise e.
Proof.
  intros Hx He. unfold extract_details, safe_eval. rewrite Hx.
  by destruct He as [->|[->| ->]].
Qed.

(** C2, as the code has it.  When the blob evaluates to a list whose
    mappings are named by texts (or not at all), the parser returns, and
    under every key it stores the value of the last entry routed to that
    key: later entries overwrite earlier ones. *)
Theorem extract_details_last_match literal_eval x items :
  literal_eval x = Ok (PList items) → forallb tame items = true →
  ∃ d, extract_details literal_eval x = Ok d ∧
       ∀ key, dict_lookup key d = last_offer key items.
Proof.
  intros Hx Ht. destruct (collect_items_tame items [] Ht) as (d & Hd & Hl).
  exists d. unfold extract_details, safe_eval. rewrite Hx. simpl.
  split; [exact Hd|]. intros key. rewrite Hl.
  by destruct (last_offer key items).
Qed.

Lemma extract_details_last_match_witness :
  ∃ d, extract_details (literal_eval_of [(blob_two_floors, two_floors)])
         (PStr blob_two_floors) = Ok d ∧
       dict_lookup "floor" d = Some (PStr "3. patro").
Proof.
  destruct (extract_details_last_match
              (literal_eval_of [(blob_two_floors, two_floors)])
              (PStr blob_two_floors) _ eq_refl eq_refl) as (d & Hd & Hl).
  exists d. split; [exact Hd|]. by rewrite Hl.
Defined.

(** C2, as the claim words it, fails on the blob with two floor entries:
    the value stored is that of the second entry, not of the first. *)
Lemma extract_details_first_match_fails : ¬ first_match_claim.
Proof.
  intros Hclaim.
  destruct (Hclaim (literal_eval_of [(blob_two_floors, two_floors)])
              (PStr blob_two_floors) _ eq_refl eq_refl) as (d & Hd & Hl).
  specialize (Hl "floor"). vm_compute in Hd. injection Hd as <-.
  vm_compute in Hl. discriminate.
Qed.

(** C4 at the blob whose entry is named by a number: the membership test
    [label in name] raises [TypeError] and [extract_details] passes it on. *)
Theorem extract_details_numeric_name_raises literal_eval x :
  literal_eval x = Ok numeric_name →
  extract_details literal_eval x = Raise TypeError.
Proof.
  intros Hx. unfold extract_details, safe_eval. by rewrite Hx.
Qed.

Lemma extract_details_numeric_name_raises_witness :
  extract_details (literal_eval_of [(blob_numeric_name, numeric_name)])
    (PStr blob_numeric_name) = Raise TypeError.
Proof.
  apply extract_details_numeric_name_raises. reflexivity.
Defined.

(** The parts of C4 the code does meet: an entry that is no mapping and an
    entry with no name, or with a false one, leave [extracted] as it is. *)
Lemma collect_item_skips extracted item :
  (∀ kv, item ≠ PDict kv) ∨
  (∃ kv, item = PDict kv ∧ truthy (dict_get "name" kv) = false) →
  collect_item extracted item = Ok extracted.
Proof.
  intros [Hno | (kv & -> & Hname)].
  - destruct item; try reflexivity. by destruct (Hno kv).
  - unfold collect_item. by rewrite Hname.
Qed.

End ParserFacts.

(** ** Tables *)

Module PandasFacts.
Import PyMath Pandas.

(** Membership of a given label in a given list of labels. *)
Ltac decide_labels :=
  first [ exact (bool_decide_unpack _ I)
        | apply (bool_decide_unpack _); vm_compute; exact I ].

(** A label known to be in one given list is in another. *)
Ltac labels_in H :=
  repeat (apply elem_of_cons in H as [->|H]; [decide_labels|]);
  by apply elem_of_nil in H.

Lemma mapM_Ok_cons {A B} (f : A → outcome B) x l :
  mapM f (x :: l) = y ← f x; k ← mapM f l; mret (y :: k).
Proof. reflexivity. Qed.

Lemma mapM_Ok_lookup {A B} (f : A → outcome B) l l' :
  mapM f l = Ok l' →
  length l' = length l ∧
  ∀ i x, l !! i = Some x → ∃ y, l' !! i = Some y ∧ f x = Ok y.
Proof.
  revert l'. induction l as [|x l IH]; intros l' H.
  - injection H as <-. split; [reflexivity|]. intros i x Hx. by destruct i.
  - rewrite mapM_Ok_cons in H.
    destruct (f x) as [y|] eqn:Hy; [|discriminate]. simpl in H.
    destruct (mapM f l) as [k|]; [|discriminate]. simpl in H.
    injection H as <-. destruct (IH k eq_refl) as [Hlen Hall].
    split; [simpl; by rewrite Hlen|].
    intros [|i] x' Hx'; simpl in *.
    + injection Hx' as <-. eauto.
    + by apply Hall.
Qed.

Lemma mapM_Ok_pure {A B} (f : A → B) l :
  mapM (fun x => Ok (f x)) l = Ok (f <$> l).
Proof.
  induction l as [|x l IH]; [reflexivity|].
  rewrite mapM_Ok_cons. simpl. by rewrite IH.
Qed.

Lemma cell_insert r c v c' :
  cell (<[c := v]> r) c' = if decide (c = c') then v else cell r c'.
Proof.
  unfold cell. rewrite lookup_insert. by destruct (decide (c = c')).
Qed.

Lemma lookup_foldr_delete (r : gmap string pyval) cs c :
  foldr delete r cs !! c = if decide (c ∈ cs) then None else r !! c.
Proof.
  induction cs as [|c' cs IH]; simpl.
  - destruct (decide (c ∈ [])) as [H|]; [by apply elem_of_nil in H|done].
  - destruct (decide (c' = c)) as [->|Hne].
    + rewrite lookup_delete_eq.
      destruct (decide (c ∈ c :: cs)) as [|Hn]; [done|]. destruct Hn. by left.
    + rewrite lookup_delete_ne, IH by done.
      destruct (decide (c ∈ cs)) as [Hin|Hnin].
      * destruct (decide (c ∈ c' :: cs)) as [|Hn]; [done|]. destruct Hn. by right.
      * destruct (decide (c ∈ c' :: cs)) as [Hin|]; [|done].
        apply elem_of_cons in Hin as [->|]; [congruence|contradiction].
Qed.

Lemma cell_foldr_delete r cs c : c ∉ cs → cell (foldr delete r cs) c = cell r c.
Proof.
  intros Hc. unfold cell. rewrite lookup_foldr_delete.
  by destruct (decide (c ∈ cs)).
Qed.

Lemma same_cells_refl K df : same_cells K df df.
Proof.
  repeat split; try tauto. intros i r r' c _ Hr Hr'. congruence.
Qed.

Lemma same_cells_trans K df1 df2 df3 :
  same_cells K df1 df2 → same_cells K df2 df3 → same_cells K df1 df3.
Proof.
  intros (Hlen12 & Hcol12 & Hcell12) (Hlen23 & Hcol23 & Hcell23).
  split; [congruence|]. split.
  - intros c Hc. rewrite (Hcol23 c Hc). by apply Hcol12.
  - intros i r1 r3 c Hc H1 H3.
    destruct (lookup_lt_is_Some_2 (rows df2) i) as [r2 H2].
    { rewrite Hlen12. by eapply lookup_lt_Some. }
    rewrite (Hcell23 i r2 r3 c Hc H2 H3). by eapply Hcell12.
Qed.

Lemma same_cells_weaken (K K' : string → Prop) df df' :
  (∀ c, K' c → K c) → same_cells K df df' → same_cells K' df df'.
Proof.
  intros HK (Hlen & Hcol & Hcell). repeat split; try assumption.
  - by apply Hcol, HK.
  - by apply Hcol, HK.
  - intros i r r' c Hc. apply Hcell. by apply HK.
Qed.

(** An assignment to column [c] leaves the other columns as they are. *)
Lemma assign_same_cells c values df :
  length values = length (rows df) →
  same_cells (fun c' => c' ≠ c) df (assign c values df).
Proof.
  intros Hlen. unfold assign. split; [|split]; simpl.
  - by rewrite length_zip_with_l_eq.
  - intros c' Hc'. destruct (decide (c ∈ columns df)); [tauto|].
    rewrite elem_of_app, list_elem_of_singleton. tauto.
  - intros i r r' c' Hc' Hr Hr'.
    apply lookup_zip_with_Some in Hr' as (r0 & v & -> & Hr0 & _).
    rewrite cell_insert. destruct (decide (c = c')); congruence.
Qed.

Lemma assign_cell c values df i r' :
  rows (assign c values df) !! i = Some r' →
  ∃ v, values !! i = Some v ∧ cell r' c = v.
Proof.
  unfold assign. simpl. intros Hr'.
  apply lookup_zip_with_Some in Hr' as (r0 & v & -> & _ & Hv).
  exists v. split; [assumption|]. rewrite cell_insert.
  by destruct (decide (c = c)).
Qed.

Lemma assign_columns c values df c' :
  c' ∈ columns (assign c values df) ↔ c' = c ∨ c' ∈ columns df.
Proof.
  unfold assign. simpl. destruct (decide (c ∈ columns df)).
  - split; [tauto|]. intros [->|]; assumption.
  - rewrite elem_of_app, list_elem_of_singleton. tauto.
Qed.

Lemma drop_same_cells cs df : same_cells (fun c => c ∉ cs) df (drop cs df).
Proof.
  unfold drop. split; [|split]; simpl.
  - by rewrite length_fmap.
  - intros c Hc. rewrite list_elem_of_filter. tauto.
  - intros i r r' c Hc Hr Hr'. rewrite list_lookup_fmap, Hr in Hr'.
    injection Hr' as <-. by apply cell_foldr_delete.
Qed.

Lemma drop_columns cs df c :
  c ∈ columns (drop cs df) ↔ ((c ∉ cs) ∧ c ∈ columns df).
Proof. unfold drop. simpl. by rewrite list_elem_of_filter. Qed.

Lemma column_Ok c df values :
  column c df = Ok values →
  c ∈ columns df ∧ values = (fun r => cell r c) <$> rows df.
Proof.
  unfold column. destruct (decide (c ∈ columns df)); [|discriminate].
  intros [= <-]. auto.
Qed.

Lemma same_cells_row_back K d d' i r' :
  same_cells K d d' → rows d' !! i = Some r' →
  ∃ r, rows d !! i = Some r ∧ ∀ c, K c → cell r' c = cell r c.
Proof.
  intros (Hlen & _ & Hcells) Hr'.
  destruct (lookup_lt_is_Some_2 (rows d) i) as [r Hr].
  { rewrite <- Hlen. by eapply lookup_lt_Some. }
  exists r. split; [assumption|]. intros c Hc. by eapply Hcells.
Qed.

Lemma same_cells_row K d d' i r :
  same_cells K d d' → rows d !! i = Some r →
  ∃ r', rows d' !! i = Some r' ∧ ∀ c, K c → cell r' c = cell r c.
Proof.
  intros (Hlen & _ & Hcells) Hr.
  destruct (lookup_lt_is_Some_2 (rows d') i) as [r' Hr'].
  { rewrite Hlen. by eapply lookup_lt_Some. }
  exists r'. split; [assumption|]. intros c Hc. by eapply Hcells.
Qed.

Lemma foldM_same_cells {A} (step : DataFrame → A → outcome DataFrame)
    (K : string → Prop) l df df' :
  (∀ d a d', a ∈ l → step d a = Ok d' → same_cells K d d') →
  foldM step l df = Ok df' → same_cells K df df'.
Proof.
  revert df. induction l as [|a l IH]; intros df Hstep H.
  - injection H as <-. apply same_cells_refl.
  - simpl in H. destruct (step df a) as [d|] eqn:Hd; [|discriminate].
    simpl in H. eapply same_cells_trans.
    + eapply Hstep; [|exact Hd]. by left.
    + apply IH; [|exact H]. intros d0 a0 d0' Ha0. apply Hstep. by right.
Qed.

Lemma dropna_rows c df :
  rows (dropna c df) = filter (fun r => isna (cell r c) = false) (rows df).
Proof. reflexivity. Qed.

(** The records add their own columns and leave the others as they are. *)
Lemma record_columns_elem records c :
  c ∈ record_columns records →
  ∃ d, d ∈ records ∧ c ∈ (fst <$> d).
Proof.
  unfold record_columns.
  assert (Hgen : ∀ keys acc,
    c ∈ foldl (fun (acc : list string) k =>
                 if decide (k ∈ acc) then acc else (acc ++ [k])%list) acc keys →
    c ∈ acc ∨ c ∈ keys).
  { induction keys as [|k keys IH]; intros acc Hc; simpl in Hc; [by left|].
    destruct (IH _ Hc) as [Hacc|Hkeys]; [|right; by right].
    destruct (decide (k ∈ acc)); [by left|].
    apply elem_of_app in Hacc as [? | ->%list_elem_of_singleton];
      [by left | right; by left]. }
  intros Hc. destruct (Hgen _ _ Hc) as [Hnil|Hin]; [by apply elem_of_nil in Hnil|].
  apply list_elem_of_join in Hin as (keys & Hc' & Hkeys).
  apply list_elem_of_fmap in Hkeys as (d & -> & Hd). eauto.
Qed.

Lemma cell_foldr_insert (g : string → pyval) r cs c :
  cell (foldr (fun c' r' => <[c' := g c']> r') r cs) c =
    if decide (c ∈ cs) then g c else cell r c.
Proof.
  induction cs as [|c' cs IH]; simpl.
  - destruct (decide (c ∈ [])) as [H|]; [by apply elem_of_nil in H|done].
  - rewrite cell_insert. destruct (decide (c' = c)) as [->|Hne].
    + destruct (decide (c ∈ c :: cs)) as [|Hn]; [done|]. destruct Hn. by left.
    + rewrite IH. destruct (decide (c ∈ cs)) as [Hin|Hnin].
      * destruct (decide (c ∈ c' :: cs)) as [|Hn]; [done|]. destruct Hn. by right.
      * destruct (decide (c ∈ c' :: cs)) as [Hin|]; [|done].
        apply elem_of_cons in Hin as [->|]; [congruence|contradiction].
Qed.

Lemma concat_records_same_cells df records df' :
  length records = length (rows df) →
  concat_records df records = Ok df' →
  same_cells (fun c => c ∉ record_columns records) df df'.
Proof.
  intros Hlen. unfold concat_records.
  destruct (decide _) as [|Hfresh]; [discriminate|]. intros [= <-].
  split; [|split]; simpl.
  - by rewrite length_zip_with_l_eq.
  - intros c Hc. rewrite elem_of_app. tauto.
  - intros i r r' c Hc Hr Hr'.
    apply lookup_zip_with_Some in Hr' as (r0 & d & -> & Hr0 & _).
    rewrite (cell_foldr_insert
               (fun c' => default (PFloat NaN) (Parser.dict_lookup c' d))).
    destruct (decide _); [contradiction|congruence].
Qed.

Lemma assign_row c values df i r r' :
  rows df !! i = Some r → rows (assign c values df) !! i = Some r' →
  ∃ v, values !! i = Some v ∧ r' = <[c := v]> r.
Proof.
  unfold assign. simpl. intros Hr Hr'.
  apply lookup_zip_with_Some in Hr' as (r0 & v & -> & Hr0 & Hv).
  exists v. split; [assumption|congruence].
Qed.

Lemma rename_label_other mapping c :
  c ∉ (fst <$> mapping) → rename_label mapping c = c.
Proof.
  induction mapping as [|[old new] mapping IH]; simpl; [done|].
  intros [Hne Hc]%not_elem_of_cons.
  destruct (decide (old = c)); [congruence|]. by apply IH.
Qed.

Lemma rename_spec mapping d d' :
  rename mapping d = Ok d' →
  length (rows d') = length (rows d) ∧
  columns d' = rename_label mapping <$> columns d ∧
  NoDup (columns d') ∧
  ∀ i r r' c, c ∈ columns d → rows d !! i = Some r → rows d' !! i = Some r' →
              cell r' (rename_label mapping c) = cell r c.
Proof.
  unfold rename. destruct (decide (NoDup _)) as [Hnd|]; [|discriminate].
  intros [= <-]. cbn [columns rows]. split; [by rewrite length_fmap|].
  split; [reflexivity|]. split; [assumption|].
  intros i r r' c Hc Hr Hr'. rewrite list_lookup_fmap, Hr in Hr'.
  injection Hr' as <-. unfold cell at 1.
  erewrite (elem_of_list_to_map_1 (M := gmap string)); [reflexivity| |].
  - by rewrite <- list_fmap_compose.
  - apply list_elem_of_fmap. by exists c.
Qed.

Lemma prefix_poi col :
  String.prefix "poi_" col = true →
  ∃ rest, col = String "p" (String "o" (String "i" (String "_" rest))).
Proof. intros [rest ->]%FloorFacts.prefix_spec. by exists rest. Qed.

Lemma replace_poi_prefix col :
  String.prefix "poi_" col = true →
  String.prefix "500m_" (replace_poi col) = true.
Proof.
  intros [rest ->]%prefix_poi. apply FloorFacts.prefix_spec.
  by exists (replace_poi rest).
Qed.

Lemma prefix_first_char p a c :
  String.prefix (String a p) c = true → ∃ rest, c = String a rest.
Proof. intros [rest ->]%FloorFacts.prefix_spec. by exists (p ++ rest). Qed.

Lemma dropna_drop_idempotent c cs df :
  c ∉ cs → dropna c (drop cs (dropna c (drop cs df))) = dropna c (drop cs df).
Proof.
  intros Hc. unfold dropna, drop. cbn [columns rows]. f_equal.
  - rewrite list_filter_filter. apply list_filter_iff. tauto.
  - set (P := fun r => isna (cell r c) = false).
    set (g := fun r : gmap string pyval => foldr delete r cs).
    assert (Hg : ∀ r, g (g r) = g r).
    { intros r. apply map_eq. intros k. unfold g.
      rewrite !lookup_foldr_delete. by destruct (decide (k ∈ cs)). }
    assert (HP : ∀ r, P (g r) ↔ P r).
    { intros r. unfold P, g. by rewrite cell_foldr_delete. }
    induction (rows df) as [|r l IH]; [reflexivity|].
    rewrite fmap_cons, !filter_cons.
    destruct (decide (P (g r))) as [Hp|Hp]; [|exact IH].
    rewrite fmap_cons, filter_cons, Hg.
    destruct (decide (P (g r))); [|contradiction]. by rewrite IH.
Qed.

End PandasFacts.

(** ** The orchestrator *)

Module PipelineFacts.
Import PyMath Text Parser Floor Geo Pandas Pipeline PandasFacts.

Lemma assign_keeps (K : string → Prop) c values df :
  length values = length (rows df) → (∀ c', K c' → c' ≠ c) →
  same_cells K df (assign c values df).
Proof.
  intros Hlen HK. eapply same_cells_weaken; [exact HK|].
  by apply assign_same_cells.
Qed.

Lemma assign_chain (K : string → Prop) c values df0 df :
  same_cells K df0 df → length values = length (rows df0) →
  (∀ c', K c' → c' ≠ c) → same_cells K df0 (assign c values df).
Proof.
  intros Hsame Hlen HK. eapply same_cells_trans; [exact Hsame|].
  apply assign_keeps; [|exact HK]. destruct Hsame as [-> _]. exact Hlen.
Qed.

Ltac assign_chain_tac Hlen :=
  repeat (apply assign_chain;
    [ | rewrite ?length_fmap; exact Hlen
      | let c := fresh "c" in let Hc := fresh "Hc" in
        intros c Hc ->; apply Hc; decide_labels ]);
  apply same_cells_refl.

Lemma assign_rows_length c values df :
  length values = length (rows df) →
  length (rows (assign c values df)) = length (rows df).
Proof. intros Hlen. unfold assign. simpl. by rewrite length_zip_with_l_eq. Qed.

Lemma column_length c df values :
  column c df = Ok values → length values = length (rows df).
Proof. intros [_ ->]%column_Ok. by rewrite length_fmap. Qed.

Lemma apply_column_same_cells col f df df' :
  apply_column col f df = Ok df' → same_cells (fun c => c ≠ col) df df'.
Proof.
  unfold apply_column. intros H.
  destruct (column col df) as [values|] eqn:Hcol; [|discriminate]. simpl in H.
  destruct (mapM f values) as [values'|] eqn:Hmap; [|discriminate].
  injection H as <-. apply assign_same_cells.
  destruct (mapM_Ok_lookup _ _ _ Hmap) as [-> _]. by eapply column_length.
Qed.

Lemma apply_if_present_same_cells f df col df' :
  apply_if_present f df col = Ok df' → same_cells (fun c => c ≠ col) df df'.
Proof.
  unfold apply_if_present. destruct (decide _).
  - apply apply_column_same_cells.
  - intros [= <-]. apply same_cells_refl.
Qed.

Lemma apply_if_present_fold (K : string → Prop) f cols df df' :
  (∀ c, K c → c ∉ cols) →
  foldM (apply_if_present f) cols df = Ok df' → same_cells K df df'.
Proof.
  intros HK. apply foldM_same_cells. intros d col d' Hcol Hstep.
  eapply same_cells_weaken; [|by eapply apply_if_present_same_cells].
  intros c Hc ->. by apply (HK col).
Qed.

(** The keys of an extracted dictionary are keys of the label table. *)
Lemma route_key chain name key :
  route chain name = Ok (Some key) → key ∈ (snd <$> chain).
Proof.
  induction chain as [|[label k] chain IH]; simpl; [discriminate|].
  destruct (py_in label name) as [[]|]; simpl; try discriminate.
  - intros [= ->]. by left.
  - intros H. right. by apply IH.
Qed.

Lemma dict_set_keys key v d k :
  k ∈ (fst <$> dict_set key v d) → k = key ∨ k ∈ (fst <$> d).
Proof.
  induction d as [|[k' w] d IH]; simpl.
  - intros ->%list_elem_of_singleton. by left.
  - destruct (decide (k' = key)) as [->|Hne]; simpl.
    + intros [->|Hk]%elem_of_cons; [by left | right; by right].
    + intros [->|Hk]%elem_of_cons; [right; by left|].
      destruct (IH Hk); [by left | right; by right].
Qed.

Lemma collect_item_keys d item d' :
  collect_item d item = Ok d' →
  (∀ k, k ∈ (fst <$> d) → k ∈ detail_keys) →
  ∀ k, k ∈ (fst <$> d') → k ∈ detail_keys.
Proof.
  unfold collect_item. intros H Hd.
  destruct item; try (injection H as <-; exact Hd).
  destruct (negb _); [injection H as <-; exact Hd|].
  destruct (route labels _) as [[key|]|] eqn:Hroute; simpl in H;
    try discriminate; injection H as <-; [|exact Hd].
  intros k [->|Hk]%dict_set_keys; [|by apply Hd].
  by eapply route_key.
Qed.

Lemma collect_items_keys items d d' :
  foldM collect_item items d = Ok d' →
  (∀ k, k ∈ (fst <$> d) → k ∈ detail_keys) →
  ∀ k, k ∈ (fst <$> d') → k ∈ detail_keys.
Proof.
  revert d. induction items as [|item items IH]; intros d H Hd.
  - by injection H as <-.
  - simpl in H. destruct (collect_item d item) as [d1|] eqn:H1; [|discriminate].
    simpl in H. eapply IH; [exact H|]. by eapply collect_item_keys.
Qed.

Lemma extract_details_keys literal_eval x d k :
  extract_details literal_eval x = Ok d → k ∈ (fst <$> d) → k ∈ detail_keys.
Proof.
  unfold extract_details. intros H.
  destruct (safe_eval literal_eval x) as [v|]; [|discriminate]. simpl in H.
  assert (Hnil : ∀ k, k ∈ (fst <$> ([] : list (string * pyval))) → k ∈ detail_keys)
    by (intros k' Hk'; by apply elem_of_nil in Hk').
  destruct v; try (injection H as <-; apply Hnil).
  by eapply collect_items_keys.
Qed.

(** **** The proximity flags of the points of interest *)

Lemma poi_flag_column_spec d col d0 :
  poi_flag_column d col = Ok d0 →
  col ∈ columns d ∧
  same_cells (fun c => c ≠ replace_poi col) d d0 ∧
  replace_poi col ∈ columns d0 ∧
  ∀ i r r0, rows d !! i = Some r → rows d0 !! i = Some r0 →
            le_flag 500 (cell r col) = Ok (cell r0 (replace_poi col)).
Proof.
  unfold poi_flag_column. intros H.
  apply bind_Ok in H as (values & Hcol & H).
  apply bind_Ok in H as (flags & Hmap & H). injection H as <-.
  destruct (column_Ok _ _ _ Hcol) as [Hin ->].
  destruct (mapM_Ok_lookup _ _ _ Hmap) as [Hlen Hall].
  rewrite length_fmap in Hlen.
  split; [assumption|]. split; [by apply assign_same_cells|].
  split; [apply assign_columns; by left|].
  intros i r r0 Hr Hr0.
  destruct (assign_row _ _ _ _ _ _ Hr Hr0) as (v & Hv & ->).
  destruct (Hall i (cell r col)) as (y & Hy & Hflag).
  { by rewrite list_lookup_fmap, Hr. }
  rewrite cell_insert. destruct (decide _); [|contradiction]. congruence.
Qed.

Lemma poi_fold l d d1 :
  Forall (fun c => String.prefix "poi_" c = true) l →
  foldM poi_flag_column l d = Ok d1 →
  same_cells (fun c => c ∉ (replace_poi <$> l)) d d1 ∧
  (∀ col, col ∈ l → replace_poi col ∈ columns d1) ∧
  (∀ col, col ∈ l →
     (∀ col', col' ∈ l → replace_poi col' = replace_poi col → col' = col) →
     ∀ i r r1, rows d !! i = Some r → rows d1 !! i = Some r1 →
               le_flag 500 (cell r col) = Ok (cell r1 (replace_poi col))).
Proof.
  revert d. induction l as [|col0 l IH]; intros d Hpoi H.
  - injection H as <-. split; [apply same_cells_refl|].
    split; intros col Hcol; by apply elem_of_nil in Hcol.
  - apply Forall_cons in Hpoi as [Hpoi0 Hpoi].
    simpl in H. apply bind_Ok in H as (d0 & Hstep & H).
    destruct (poi_flag_column_spec _ _ _ Hstep) as (Hin0 & Hsame0 & Hnew0 & Hflag0).
    destruct (IH d0 Hpoi H) as (Hsame & Hnew & Hflag).
    assert (Hall : same_cells (fun c => c ∉ (replace_poi <$> col0 :: l)) d d1).
    { eapply same_cells_trans.
      - eapply same_cells_weaken; [|exact Hsame0].
        intros c Hc ->. apply Hc. rewrite fmap_cons. by left.
      - eapply same_cells_weaken; [|exact Hsame].
        intros c Hc Hin. apply Hc. rewrite fmap_cons. by right. }
    split; [exact Hall|]. split.
    + intros col [->|Hcol]%elem_of_cons; [|by apply Hnew].
      destruct (decide (replace_poi col0 ∈ (replace_poi <$> l))) as [Hdup|Hfresh].
      * apply list_elem_of_fmap in Hdup as (col' & -> & Hcol'). by apply Hnew.
      * destruct Hsame as (_ & Hcols & _). by apply Hcols.
    + intros col Hcol Hinj i r r1 Hr Hr1.
      destruct (lookup_lt_is_Some_2 (rows d0) i) as [r0 Hr0].
      { destruct Hsame0 as (-> & _). by eapply lookup_lt_Some. }
      destruct (decide (col ∈ l)) as [Hl|Hnl].
      * assert (Hkeep : cell r0 col = cell r col).
        { destruct Hsame0 as (_ & _ & Hcells). apply (Hcells i r r0); try done.
          intros ->. apply replace_poi_prefix in Hpoi0.
          rewrite Forall_forall in Hpoi. specialize (Hpoi _ Hl).
          apply prefix_poi in Hpoi as [rest Hrest].
          apply prefix_first_char in Hpoi0 as [rest' Hrest']. congruence. }
        rewrite <- Hkeep. refine (Hflag col Hl _ i r0 r1 Hr0 Hr1).
        intros col' Hcol' Heq. apply Hinj; [by right | done].
      * apply elem_of_cons in Hcol as [->|Hcol]; [|contradiction].
        rewrite (Hflag0 i r r0 Hr Hr0). f_equal.
        destruct Hsame as (_ & _ & Hcells). symmetry.
        apply (Hcells i r0 r1); [|assumption..].
        intros (col' & Heq & Hcol')%list_elem_of_fmap.
        apply Hnl. assert (col' = col0) as <-; [|assumption].
        apply Hinj; [by right | by symmetry].
Qed.

Lemma poi_features_spec d d' :
  poi_features d = Ok d' →
  same_cells (fun c => String.prefix "poi_" c = false ∧
                       String.prefix "500m_" c = false) d d' ∧
  (∀ col, String.prefix "poi_" col = true → col ∉ columns d') ∧
  (∀ col, col ∈ columns d → String.prefix "poi_" col = true →
     replace_poi col ∈ columns d' ∧
     ((∀ col', col' ∈ columns d → String.prefix "poi_" col' = true →
               replace_poi col' = replace_poi col → col' = col) →
      ∀ i r r', rows d !! i = Some r → rows d' !! i = Some r' →
                le_flag 500 (cell r col) = Ok (cell r' (replace_poi col)))).
Proof.
  unfold poi_features.
  set (dist_cols := filter (fun col => String.prefix "poi_" col = true) (columns d)).
  intros H. apply bind_Ok in H as (d1 & Hfold & H). injection H as <-.
  assert (Hpoi : Forall (fun c => String.prefix "poi_" c = true) dist_cols).
  { apply Forall_forall. intros c Hc. by apply list_elem_of_filter in Hc as [? _]. }
  destruct (poi_fold _ _ _ Hpoi Hfold) as (Hsame & Hnew & Hflag).
  assert (Hcomp : ∀ c, c ∈ (replace_poi <$> dist_cols) →
                       String.prefix "500m_" c = true).
  { intros c (col & -> & Hcol)%list_elem_of_fmap. apply replace_poi_prefix.
    by apply list_elem_of_filter in Hcol as [? _]. }
  assert (Hdisj : ∀ c, String.prefix "poi_" c = true →
                       String.prefix "500m_" c = true → False).
  { intros c [rest ->]%prefix_poi [rest' ?]%prefix_first_char. discriminate. }
  split; [|split].
  - eapply same_cells_trans.
    + eapply same_cells_weaken; [|exact Hsame].
      intros c [_ Hc] Hin. apply Hcomp in Hin. congruence.
    + eapply same_cells_weaken; [|apply drop_same_cells].
      intros c [Hc _] Hin. apply list_elem_of_filter in Hin as [? _]. congruence.
  - intros col Hcol Hin. apply drop_columns in Hin as [Hnot Hin1].
    apply Hnot. apply list_elem_of_filter. split; [assumption|].
    destruct Hsame as (_ & Hcols & _). apply Hcols; [|assumption].
    intros Hc. apply Hcomp in Hc. by eapply Hdisj.
  - intros col Hin Hcol.
    assert (Hdc : col ∈ dist_cols) by (by apply list_elem_of_filter).
    assert (Hfresh : replace_poi col ∉ dist_cols).
    { intros [Hp _]%list_elem_of_filter. apply (Hdisj _ Hp).
      by apply replace_poi_prefix. }
    split; [apply drop_columns; auto|].
    intros Hinj i r r' Hr Hr'.
    cbn [rows drop] in Hr'. rewrite list_lookup_fmap in Hr'.
    destruct (rows d1 !! i) as [r1|] eqn:Hr1; [|discriminate].
    injection Hr' as <-. rewrite cell_foldr_delete by assumption.
    refine (Hflag col Hdc _ i r r1 Hr Hr1).
    intros col' [Hp' Hin']%list_elem_of_filter Heq. by apply Hinj.
Qed.

(** **** Labels the encodings leave alone *)

Lemma prefix_app_first a p q c :
  String.prefix (String a p ++ q) c = true → ∃ rest, c = String a rest.
Proof.
  intros [rest ->]%FloorFacts.prefix_spec. by exists ((p ++ q) ++ rest).
Qed.

Lemma not_dummy_categorical cs a rest :
  (∀ c, c ∈ cs → c ∈ categorical_cols) →
  a ∉ ["c"; "d"; "b"; "o"]%char → ¬ dummy_name cs (String a rest).
Proof.
  intros Hsub Ha [Hin | (c' & Hin & Hpre)]; apply Ha.
  - apply Hsub in Hin.
    repeat (apply elem_of_cons in Hin as [[= ->]|Hin]; [decide_labels|]).
    by apply elem_of_nil in Hin.
  - apply Hsub in Hin.
    repeat (apply elem_of_cons in Hin as [->|Hin];
      [apply prefix_app_first in Hpre as [rest' [= ->]]; decide_labels|]).
    by apply elem_of_nil in Hin.
Qed.

Lemma not_dummy_station a rest :
  a ≠ "n"%char → ¬ dummy_name ["nearest_station"] (String a rest).
Proof.
  intros Ha [Hin | (c' & Hin & Hpre)]; apply Ha.
  - apply list_elem_of_singleton in Hin. congruence.
  - apply list_elem_of_singleton in Hin as ->.
    apply prefix_app_first in Hpre as [rest' ?]. congruence.
Qed.

(** **** The distances to the transit lines and their flags *)

Lemma metro_distances_spec metro d d' :
  metro_distances metro d = Ok d' →
  same_cells (fun c => c ∉ ["metro_dist_A"; "metro_dist_B"; "metro_dist_C";
                           "nearest_station"]) d d' ∧
  (∀ c, c ∈ ["metro_dist_A"; "metro_dist_B"; "metro_dist_C"; "nearest_station"] →
        c ∈ columns d') ∧
  ∀ i r r', rows d !! i = Some r → rows d' !! i = Some r' →
    ∃ a, get_metro_distances r metro = Ok a ∧
         cell r' "metro_dist_A" = default (PFloat NaN) (a !! 0%nat) ∧
         cell r' "metro_dist_B" = default (PFloat NaN) (a !! 1%nat) ∧
         cell r' "metro_dist_C" = default (PFloat NaN) (a !! 2%nat) ∧
         cell r' "nearest_station" = default (PFloat NaN) (a !! 3%nat).
Proof.
  unfold metro_distances. intros H.
  apply bind_Ok in H as (answers & Hmap & H).
  destruct (decide (rows d = [])); [discriminate|]. injection H as <-.
  destruct (mapM_Ok_lookup _ _ _ Hmap) as [Hlen Hall].
  split; [|split].
  - assign_chain_tac Hlen.
  - intros c Hc. rewrite !assign_columns.
    repeat (apply elem_of_cons in Hc as [->|Hc]; [tauto|]).
    by apply elem_of_nil in Hc.
  - intros i r r' Hr Hr'.
    destruct (Hall i r Hr) as (a & Ha & Hrun). exists a. split; [exact Hrun|].
    set (dA := assign "metro_dist_A" _ d) in *.
    set (dB := assign "metro_dist_B" _ dA) in *.
    set (dC := assign "metro_dist_C" _ dB) in *.
    assert (HlA : length (rows dA) = length (rows d))
      by (apply assign_rows_length; by rewrite length_fmap).
    assert (HlB : length (rows dB) = length (rows d))
      by (unfold dB; rewrite assign_rows_length; rewrite ?length_fmap; congruence).
    assert (HlC : length (rows dC) = length (rows d))
      by (unfold dC; rewrite assign_rows_length; rewrite ?length_fmap; congruence).
    destruct (lookup_lt_is_Some_2 (rows dA) i) as [rA HrA];
      [rewrite HlA; by eapply lookup_lt_Some|].
    destruct (lookup_lt_is_Some_2 (rows dB) i) as [rB HrB];
      [rewrite HlB; by eapply lookup_lt_Some|].
    destruct (lookup_lt_is_Some_2 (rows dC) i) as [rC HrC];
      [rewrite HlC; by eapply lookup_lt_Some|].
    destruct (assign_row _ _ _ _ _ _ Hr HrA) as (vA & HvA & ->).
    destruct (assign_row _ _ _ _ _ _ HrA HrB) as (vB & HvB & ->).
    destruct (assign_row _ _ _ _ _ _ HrB HrC) as (vC & HvC & ->).
    destruct (assign_row _ _ _ _ _ _ HrC Hr') as (vN & HvN & ->).
    rewrite list_lookup_fmap, Ha in HvA, HvB, HvC, HvN.
    injection HvA as <-. injection HvB as <-. injection HvC as <-.
    injection HvN as <-. rewrite !cell_insert. simpl. auto.
Qed.

Lemma metro_flag_column_spec d line d' :
  metro_flag_column d line = Ok d' →
  same_cells (fun c => c ≠ "1000m_dist_" ++ line) d d' ∧
  ("metro_dist_" ++ line ∈ columns d →
   "1000m_dist_" ++ line ∈ columns d' ∧
   ∀ i r r', rows d !! i = Some r → rows d' !! i = Some r' →
     le_flag 1000 (cell r ("metro_dist_" ++ line))
     = Ok (cell r' ("1000m_dist_" ++ line))).
Proof.
  unfold metro_flag_column. destruct (decide _) as [Hin|Hnot].
  - intros H. apply bind_Ok in H as (values & Hcol & H).
    apply bind_Ok in H as (flags & Hmap & H). injection H as <-.
    destruct (column_Ok _ _ _ Hcol) as [_ ->].
    destruct (mapM_Ok_lookup _ _ _ Hmap) as [Hlen Hall].
    rewrite length_fmap in Hlen.
    split; [by apply assign_same_cells|]. intros _.
    split; [apply assign_columns; by left|].
    intros i r r' Hr Hr'.
    destruct (assign_row _ _ _ _ _ _ Hr Hr') as (v & Hv & ->).
    destruct (Hall i (cell r ("metro_dist_" ++ line))) as (y & Hy & Hflag).
    { by rewrite list_lookup_fmap, Hr. }
    rewrite cell_insert. destruct (decide _); [|contradiction]. congruence.
  - intros [= <-]. split; [apply same_cells_refl | contradiction].
Qed.

Lemma metro_features_spec d d' :
  metro_features d = Ok d' →
  (∀ c, c ∈ ["metro_dist_A"; "metro_dist_B"; "metro_dist_C"] → c ∈ columns d) →
  same_cells (fun c => c ∉ ["1000m_dist_A"; "1000m_dist_B"; "1000m_dist_C"]) d d' ∧
  (∀ c, c ∈ ["1000m_dist_A"; "1000m_dist_B"; "1000m_dist_C"] → c ∈ columns d') ∧
  ∀ i r r', rows d !! i = Some r → rows d' !! i = Some r' →
    le_flag 1000 (cell r "metro_dist_A") = Ok (cell r' "1000m_dist_A") ∧
    le_flag 1000 (cell r "metro_dist_B") = Ok (cell r' "1000m_dist_B") ∧
    le_flag 1000 (cell r "metro_dist_C") = Ok (cell r' "1000m_dist_C").
Proof.
  unfold metro_features. intros H Hcols. cbn [foldM] in H.
  apply bind_Ok in H as (dA & HA & H). apply bind_Ok in H as (dB & HB & H).
  apply bind_Ok in H as (dC & HC & H). injection H as <-.
  destruct (metro_flag_column_spec _ _ _ HA) as [HsA HfA].
  destruct (metro_flag_column_spec _ _ _ HB) as [HsB HfB].
  destruct (metro_flag_column_spec _ _ _ HC) as [HsC HfC].
  change ("metro_dist_" ++ "A") with "metro_dist_A" in *.
  change ("metro_dist_" ++ "B") with "metro_dist_B" in *.
  change ("metro_dist_" ++ "C") with "metro_dist_C" in *.
  change ("1000m_dist_" ++ "A") with "1000m_dist_A" in *.
  change ("1000m_dist_" ++ "B") with "1000m_dist_B" in *.
  change ("1000m_dist_" ++ "C") with "1000m_dist_C" in *.
  assert (HinA : "metro_dist_A" ∈ columns d) by (apply Hcols; decide_labels).
  assert (HinB : "metro_dist_B" ∈ columns dA).
  { destruct HsA as (_ & Hc & _). apply Hc; [done|]. apply Hcols. decide_labels. }
  assert (HinC : "metro_dist_C" ∈ columns dB).
  { destruct HsB as (_ & Hc & _). apply Hc; [done|].
    destruct HsA as (_ & Hc' & _). apply Hc'; [done|]. apply Hcols. decide_labels. }
  destruct (HfA HinA) as [HnA HvA]. destruct (HfB HinB) as [HnB HvB].
  destruct (HfC HinC) as [HnC HvC].
  split; [|split].
  - eapply same_cells_trans; [|eapply same_cells_trans].
    + eapply same_cells_weaken; [|exact HsA]. intros c Hc ->. apply Hc. decide_labels.
    + eapply same_cells_weaken; [|exact HsB]. intros c Hc ->. apply Hc. decide_labels.
    + eapply same_cells_weaken; [|exact HsC]. intros c Hc ->. apply Hc. decide_labels.
  - intros c Hc. destruct HsB as (_ & HcB & _). destruct HsC as (_ & HcC & _).
    apply elem_of_cons in Hc as [->|Hc]; [apply HcC; [done|]; by apply HcB|].
    apply elem_of_cons in Hc as [->|Hc]; [by apply HcC|].
    apply elem_of_cons in Hc as [->|Hc]; [assumption|]. by apply elem_of_nil in Hc.
  - intros i r r' Hr Hr'.
    destruct (lookup_lt_is_Some_2 (rows dA) i) as [rA HrA].
    { destruct HsA as (-> & _). by eapply lookup_lt_Some. }
    destruct (lookup_lt_is_Some_2 (rows dB) i) as [rB HrB].
    { destruct HsB as (-> & _). by eapply lookup_lt_Some. }
    destruct HsA as (_ & _ & HcA). destruct HsB as (_ & _ & HcB).
    destruct HsC as (_ & _ & HcC).
    split; [|split].
    + rewrite (HvA i r rA Hr HrA). f_equal.
      rewrite (HcC i rB r' "1000m_dist_A") by done.
      by rewrite (HcB i rA rB "1000m_dist_A").
    + rewrite <- (HcA i r rA "metro_dist_B") by done.
      rewrite (HvB i rA rB HrA HrB). f_equal.
      by rewrite (HcC i rB r' "1000m_dist_B").
    + rewrite <- (HcA i r rA "metro_dist_C") by done.
      rewrite <- (HcB i rA rB "metro_dist_C") by done.
      by rewrite (HvC i rB r' HrB Hr').
Qed.

(** A flag is 1 exactly when the cell holds a number that is at most the
    threshold, and 0 otherwise. *)
Lemma le_flag_spec threshold v flag :
  le_flag threshold v = Ok flag →
  (flag = PInt 1 ∧ ∃ x, as_float v = Ok (Num x) ∧ (x <= IZR threshold)%R) ∨
  (flag = PInt 0 ∧ (isna v = true ∨
                    ∃ x, as_float v = Ok (Num x) ∧ (IZR threshold < x)%R)).
Proof.
  unfold le_flag. destruct (isna v) eqn:Hna.
  - intros [= <-]. right. auto.
  - destruct (as_float v) as [[|x]|] eqn:Hv; simpl; try discriminate.
    + destruct v as [| | |[|]| | | | | |]; simpl in *; congruence.
    + unfold fleb. destruct (Rle_dec x (IZR threshold)); intros [= <-].
      * left. eauto.
      * right. split; [reflexivity|]. right. exists x. split; [reflexivity|].
        by apply Rnot_le_lt.
Qed.

Lemma le_flag_number threshold v x :
  as_float v = Ok (Num x) →
  le_flag threshold v
  = Ok (PInt (if Rle_dec x (IZR threshold) then 1 else 0)).
Proof.
  intros Hv. unfold le_flag.
  rewrite (GeoFacts.as_float_number_not_na _ _ Hv), Hv. simpl.
  unfold fleb. by destruct (Rle_dec x (IZR threshold)).
Qed.

Lemma le_flag_within threshold z :
  (z <= threshold)%Z → le_flag threshold (PInt z) = Ok (PInt 1).
Proof.
  intros Hz. rewrite (le_flag_number threshold _ (IZR z)) by reflexivity.
  destruct (Rle_dec (IZR z) (IZR threshold)) as [_|Hn]; [reflexivity|].
  destruct Hn. by apply IZR_le.
Qed.

Lemma le_flag_beyond threshold z :
  (threshold < z)%Z → le_flag threshold (PInt z) = Ok (PInt 0).
Proof.
  intros Hz. rewrite (le_flag_number threshold _ (IZR z)) by reflexivity.
  destruct (Rle_dec (IZR z) (IZR threshold)) as [Hle|_]; [|reflexivity].
  apply IZR_lt in Hz. lra.
Qed.

(** A label with a known first character is in none of the given lists of
    labels that start otherwise. *)
Ltac label_not_in H :=
  repeat (apply elem_of_cons in H as [H|H]; [discriminate H|]);
  by apply elem_of_nil in H.

Lemma companion_label_safe c :
  String.prefix "500m_" c = true →
  ¬ dummy_name categorical_cols c ∧ (c ∉ (fst <$> column_mapping)) ∧ tail_safe c.
Proof.
  intros [rest ->]%prefix_first_char. split; [|split; [|split]].
  - apply not_dummy_categorical; [done|decide_labels].
  - cbn. intros Hin. label_not_in Hin.
  - intros Hin. label_not_in Hin.
  - by apply not_dummy_station.
Qed.

Lemma poi_label_safe c :
  String.prefix "poi_" c = true →
  (c ∉ cols_to_drop) ∧ head_safe c ∧ (c ∉ cols_to_remove) ∧
  ¬ dummy_name categorical_cols c ∧ tail_safe c ∧
  (c ∉ (snd <$> column_mapping)) ∧ (c ∉ (fst <$> column_mapping)).
Proof.
  intros [rest ->]%prefix_poi.
  assert (Hno : ∀ l : list string,
            Forall (fun s => String.prefix "poi_" s = false) l →
            String "p" (String "o" (String "i" (String "_" rest))) ∉ l).
  { intros l Hl Hin. rewrite Forall_forall in Hl. specialize (Hl _ Hin).
    assert (String.prefix "poi_"
              (String "p" (String "o" (String "i" (String "_" rest)))) = true)
      by (apply FloorFacts.prefix_spec; by exists rest).
    congruence. }
  repeat split; try (apply Hno; repeat constructor).
  - apply not_dummy_categorical; [done|decide_labels].
  - by apply not_dummy_station.
Qed.

Section Stages.

Variable literal_eval : pyval → outcome pyval.
Variable get_dummies : DataFrame → list string → outcome DataFrame.
Variable to_numeric_cleaned : pyval → pyval.
Variable astype_int : pyval → outcome pyval.
Hypothesis get_dummies_frame : get_dummies_keeps get_dummies.

Lemma keep_priced_rows df :
  rows (keep_priced df) =
    filter (fun r => isna (cell r "price_czk") = false)
           ((fun r => foldr delete r cols_to_drop) <$> rows df).
Proof. reflexivity. Qed.

Lemma keep_priced_columns df c :
  c ∈ columns (keep_priced df) ↔ ((c ∉ cols_to_drop) ∧ c ∈ columns df).
Proof. unfold keep_priced, dropna. simpl. by rewrite list_elem_of_filter. Qed.

Lemma keep_priced_idempotent df : keep_priced (keep_priced df) = keep_priced df.
Proof. apply dropna_drop_idempotent. decide_labels. Qed.

Lemma extract_locality_spec df df' :
  extract_locality literal_eval df = Ok df' →
  same_cells (fun c => c ∉ ["locality_dict"; "city"; "district"; "lat"; "lon"])
             df df' ∧
  "lat" ∈ columns df' ∧ "lon" ∈ columns df'.
Proof.
  unfold extract_locality. intros H.
  destruct (column "locality" df) as [locality|] eqn:Hcol; [|discriminate].
  simpl in H.
  destruct (mapM (safe_eval literal_eval) locality) as [dicts|] eqn:Hmap;
    [|discriminate].
  injection H as <-.
  assert (Hlen : length dicts = length (rows df)).
  { destruct (mapM_Ok_lookup _ _ _ Hmap) as [-> _]. by eapply column_length. }
  split; [|split].
  - assign_chain_tac Hlen.
  - rewrite !assign_columns. auto.
  - rewrite !assign_columns. auto.
Qed.

Lemma extract_categories_spec df df' :
  extract_categories literal_eval df = Ok df' →
  same_cells (fun c => c ∉ ["category_main_cb"; "category_sub_cb"; "category_type_cb"])
             df df'.
Proof. unfold extract_categories. by apply apply_if_present_fold. Qed.

Lemma extract_property_details_spec df df' :
  extract_property_details literal_eval df = Ok df' →
  same_cells (fun c => c ∉ detail_keys) df df'.
Proof.
  unfold extract_property_details. intros H.
  destruct (column "detail" df) as [detail|] eqn:Hcol; [|discriminate].
  simpl in H.
  destruct (mapM (extract_details literal_eval) detail) as [records|] eqn:Hmap;
    [|discriminate].
  simpl in H. destruct (mapM_Ok_lookup _ _ _ Hmap) as [Hlen Hall].
  eapply same_cells_weaken; [|eapply concat_records_same_cells; [|exact H]].
  - intros c Hc Hin. apply Hc.
    apply record_columns_elem in Hin as (d & Hd & Hk).
    apply list_elem_of_lookup in Hd as [i Hi].
    destruct (lookup_lt_is_Some_2 detail i) as [x Hx].
    { rewrite <- Hlen. by eapply lookup_lt_Some. }
    destruct (Hall i x Hx) as (d' & Hd' & Hx'). rewrite Hi in Hd'.
    injection Hd' as <-. by eapply extract_details_keys.
  - rewrite Hlen. by eapply column_length.
Qed.

Lemma clean_details_spec df df' :
  clean_details to_numeric_cleaned astype_int df = Ok df' →
  same_cells (fun c => c ∉ ["usable_area"; "floor_num"; "terrace"; "elevator"])
             df df'.
Proof.
  unfold clean_details. intros H.
  apply bind_Ok in H as (d1 & H1 & H). apply bind_Ok in H as (d2 & H2 & H).
  apply (same_cells_trans _ _ d1); [|apply (same_cells_trans _ _ d2)].
  - apply (same_cells_weaken (fun c => c ≠ "usable_area"));
      [|exact (apply_if_present_same_cells _ _ _ _ H1)].
    intros c Hc ->. apply Hc. decide_labels.
  - destruct (decide ("floor" ∈ columns d1)).
    + apply bind_Ok in H2 as (floor & Hcol & H2).
      injection H2 as <-. apply assign_keeps.
      * rewrite length_fmap. by eapply column_length.
      * intros c Hc ->. apply Hc. decide_labels.
    + injection H2 as <-. apply same_cells_refl.
  - eapply apply_if_present_fold; [|exact H]. intros c Hc Hin. apply Hc.
    labels_in Hin.
Qed.

Lemma encode_categories_spec d d' :
  encode_categories get_dummies d = Ok d' →
  same_cells (fun c => ¬ dummy_name categorical_cols c) d d'.
Proof using get_dummies_frame.
  unfold encode_categories. intros H. apply get_dummies_frame in H.
  eapply same_cells_weaken; [|exact H].
  intros c Hc [Hin | (c' & Hin & Hpre)]; apply Hc.
  - left. by apply list_elem_of_filter in Hin as [_ ?].
  - right. exists c'. by apply list_elem_of_filter in Hin as [_ ?].
Qed.

(** The stages of a run that returns. *)
Lemma enrich_stages df metro out :
  enrich literal_eval get_dummies to_numeric_cleaned astype_int df metro = Ok out →
  ∃ d1 d2 d3 d4 d6 d7 d8 d9 d10,
    extract_locality literal_eval (keep_priced df) = Ok d1 ∧
    extract_categories literal_eval d1 = Ok d2 ∧
    extract_property_details literal_eval d2 = Ok d3 ∧
    clean_details to_numeric_cleaned astype_int d3 = Ok d4 ∧
    poi_features (drop cols_to_remove d4) = Ok d6 ∧
    encode_categories get_dummies d6 = Ok d7 ∧
    rename column_mapping d7 = Ok d8 ∧
    metro_distances metro d8 = Ok d9 ∧
    metro_features d9 = Ok d10 ∧
    get_dummies d10 ["nearest_station"] = Ok out.
Proof.
  unfold enrich. intros H.
  apply bind_Ok in H as (d1 & H1 & H). apply bind_Ok in H as (d2 & H2 & H).
  apply bind_Ok in H as (d3 & H3 & H). apply bind_Ok in H as (d4 & H4 & H).
  apply bind_Ok in H as (d6 & H6 & H). apply bind_Ok in H as (d7 & H7 & H).
  apply bind_Ok in H as (d8 & H8 & H). apply bind_Ok in H as (d9 & H9 & H).
  apply bind_Ok in H as (d10 & H10 & H).
  exists d1, d2, d3, d4, d6, d7, d8, d9, d10. auto 12.
Qed.

Lemma head_same_cells d0 d1 d2 d3 d4 :
  extract_locality literal_eval d0 = Ok d1 →
  extract_categories literal_eval d1 = Ok d2 →
  extract_property_details literal_eval d2 = Ok d3 →
  clean_details to_numeric_cleaned astype_int d3 = Ok d4 →
  same_cells head_safe d0 d4.
Proof.
  intros H1 H2 H3 H4.
  destruct (extract_locality_spec _ _ H1) as [S1 _].
  pose proof (extract_categories_spec _ _ H2) as S2.
  pose proof (extract_property_details_spec _ _ H3) as S3.
  pose proof (clean_details_spec _ _ H4) as S4.
  eapply same_cells_trans; [|eapply same_cells_trans; [|eapply same_cells_trans]].
  - eapply same_cells_weaken; [|exact S1]. intros c Hc Hin. apply Hc. labels_in Hin.
  - eapply same_cells_weaken; [|exact S2]. intros c Hc Hin. apply Hc. labels_in Hin.
  - eapply same_cells_weaken; [|exact S3]. intros c Hc Hin. apply Hc.
    change detail_keys with ["usable_area"; "total_area"; "floor"; "building_type";
      "building_condition"; "ownership"; "terrace"; "elevator"] in Hin.
    labels_in Hin.
  - eapply same_cells_weaken; [|exact S4]. intros c Hc Hin. apply Hc. labels_in Hin.
Qed.

Lemma middle_same_cells d4 d6 d7 :
  poi_features (drop cols_to_remove d4) = Ok d6 →
  encode_categories get_dummies d6 = Ok d7 →
  same_cells middle_safe d4 d7.
Proof using get_dummies_frame.
  intros H6 H7. destruct (poi_features_spec _ _ H6) as [S6 _].
  pose proof (encode_categories_spec _ _ H7) as S7.
  eapply same_cells_trans; [|eapply same_cells_trans].
  - eapply same_cells_weaken; [|apply drop_same_cells]. by intros c (? & _).
  - eapply same_cells_weaken; [|exact S6]. by intros c (_ & ? & ? & _).
  - eapply same_cells_weaken; [|exact S7]. by intros c (_ & _ & _ & ?).
Qed.

Lemma tail_same_cells metro d8 d9 d10 out :
  metro_distances metro d8 = Ok d9 →
  metro_features d9 = Ok d10 →
  get_dummies d10 ["nearest_station"] = Ok out →
  same_cells tail_safe d8 out.
Proof using get_dummies_frame.
  intros H9 H10 H11. destruct (metro_distances_spec _ _ _ H9) as (S9 & C9 & _).
  destruct (metro_features_spec _ _ H10) as (S10 & _).
  { intros c Hc. apply C9. labels_in Hc. }
  pose proof (get_dummies_frame _ _ _ H11) as S11.
  eapply same_cells_trans; [|eapply same_cells_trans].
  - eapply same_cells_weaken; [|exact S9]. intros c [Hc _] Hin. apply Hc. labels_in Hin.
  - eapply same_cells_weaken; [|exact S10]. intros c [Hc _] Hin. apply Hc. labels_in Hin.
  - eapply same_cells_weaken; [|exact S11]. by intros c [_ ?].
Qed.

Lemma old_labels_middle_safe c : c ∈ (fst <$> column_mapping) → middle_safe c.
Proof.
  intros Hc. cbn in Hc.
  repeat (apply elem_of_cons in Hc as [->|Hc];
    [split; [decide_labels|split; [done|split; [done|]]];
     apply not_dummy_categorical; [done|decide_labels]|]).
  by apply elem_of_nil in Hc.
Qed.

Lemma new_labels_tail_safe c : c ∈ (snd <$> column_mapping) → tail_safe c.
Proof.
  intros Hc. cbn in Hc.
  repeat (apply elem_of_cons in Hc as [->|Hc];
    [split; [decide_labels|by apply not_dummy_station]|]).
  by apply elem_of_nil in Hc.
Qed.

Lemma rename_label_not_old c :
  rename_label column_mapping c ∉ (fst <$> column_mapping).
Proof.
  unfold column_mapping. cbn [rename_label fmap list_fmap fst].
  repeat (destruct (decide (_ = c)) as [<-|?]; [decide_labels|]).
  intros Hin.
  repeat (apply elem_of_cons in Hin as [->|Hin]; [congruence|]).
  by apply elem_of_nil in Hin.
Qed.

Lemma lat_lon_cleaned d0 d1 d2 d3 d4 :
  extract_locality literal_eval d0 = Ok d1 →
  extract_categories literal_eval d1 = Ok d2 →
  extract_property_details literal_eval d2 = Ok d3 →
  clean_details to_numeric_cleaned astype_int d3 = Ok d4 →
  "lat" ∈ columns d4 ∧ "lon" ∈ columns d4.
Proof.
  intros H1 H2 H3 H4.
  destruct (extract_locality_spec _ _ H1) as (_ & Hlat & Hlon).
  pose proof (extract_categories_spec _ _ H2) as (_ & Hc2 & _).
  pose proof (extract_property_details_spec _ _ H3) as (_ & Hc3 & _).
  pose proof (clean_details_spec _ _ H4) as (_ & Hc4 & _).
  split.
  - apply Hc4; [decide_labels|]. apply Hc3; [decide_labels|].
    by apply Hc2; [decide_labels|].
  - apply Hc4; [decide_labels|]. apply Hc3; [decide_labels|].
    by apply Hc2; [decide_labels|].
Qed.

Lemma keep_priced_rows_filter df :
  rows (keep_priced df) =
    (fun r => foldr delete r cols_to_drop) <$>
      filter (fun r => isna (cell r "price_czk") = false) (rows df).
Proof.
  rewrite keep_priced_rows. induction (rows df) as [|r l IH]; [reflexivity|].
  rewrite fmap_cons, !filter_cons, cell_foldr_delete by decide_labels.
  destruct (decide _); [|exact IH]. by rewrite fmap_cons, IH.
Qed.

Lemma rename_label_pair old new :
  (old, new) ∈ column_mapping → rename_label column_mapping old = new.
Proof.
  intros Hin.
  repeat (apply elem_of_cons in Hin as [[= -> ->]|Hin]; [reflexivity|]).
  by apply elem_of_nil in Hin.
Qed.

(** From the cleaned table to the output: each old label of the renaming
    turns into its new label, with the same cells. *)
Lemma renamed_cells metro d4 d6 d7 d8 d9 d10 out old new :
  poi_features (drop cols_to_remove d4) = Ok d6 →
  encode_categories get_dummies d6 = Ok d7 →
  rename column_mapping d7 = Ok d8 →
  metro_distances metro d8 = Ok d9 →
  metro_features d9 = Ok d10 →
  get_dummies d10 ["nearest_station"] = Ok out →
  (old, new) ∈ column_mapping → old ∈ columns d4 →
  new ∈ columns out ∧
  ∀ i r o, rows d4 !! i = Some r → rows out !! i = Some o →
           cell o new = cell r old.
Proof using get_dummies_frame.
  intros H6 H7 H8 H9 H10 H11 Hpair Hold.
  pose proof (middle_same_cells _ _ _ H6 H7) as Smid.
  pose proof (tail_same_cells _ _ _ _ _ H9 H10 H11) as Stail.
  destruct (rename_spec _ _ _ H8) as (Hlen8 & Hcols8 & _ & Hcell8).
  assert (Hms : middle_safe old).
  { apply old_labels_middle_safe, list_elem_of_fmap. by exists (old, new). }
  assert (Hts : tail_safe new).
  { apply new_labels_tail_safe, list_elem_of_fmap. by exists (old, new). }
  assert (Hold7 : old ∈ columns d7) by (destruct Smid as (_ & Hc & _); by apply Hc).
  pose proof (rename_label_pair _ _ Hpair) as Hren.
  split.
  - destruct Stail as (_ & Hc & _). apply Hc; [assumption|].
    rewrite Hcols8. apply list_elem_of_fmap. by exists old.
  - intros i r o Hr Ho.
    destruct (same_cells_row_back _ _ _ _ _ Stail Ho) as (r8 & Hr8 & E8).
    destruct (same_cells_row _ _ _ _ _ Smid Hr) as (r7 & Hr7 & E7).
    rewrite (E8 new Hts), <- Hren, (Hcell8 i r7 r8 old Hold7 Hr7 Hr8).
    by apply E7.
Qed.

(** A run that returns a table has read both files, found the price column
    and enriched the listing table. *)
Lemma process_raw_data_Ok fs raw_data_path metro_path output_path df metro out :
  fs !! raw_data_path = Some df → fs !! metro_path = Some metro →
  (process_raw_data literal_eval get_dummies to_numeric_cleaned astype_int
     fs raw_data_path metro_path output_path).1 = Ok out →
  "price_czk" ∈ columns df ∧
  enrich literal_eval get_dummies to_numeric_cleaned astype_int df metro = Ok out.
Proof.
  intros Hdf Hmetro. unfold process_raw_data, read_csv. rewrite Hdf, Hmetro.
  destruct (decide ("price_czk" ∉ columns df)) as [|Hprice]; [done|].
  destruct (enrich _ _ _ _ df metro) as [out'|e]; [|done].
  intros Hout. split.
  - by destruct (decide ("price_czk" ∈ columns df)).
  - destruct output_path as [path|]; [destruct (truthy (PStr path))|];
      by injection Hout as ->.
Qed.

(** *** The claims on the orchestrator *)

(** C9. When the raw data file does not exist the run raises
    [FileNotFoundError] with a message that ends in its path; when it
    exists and the station file does not, the same with that path; when
    both exist and the listing table has no column [price_czk], it raises
    [ValueError] with a message that names the column.  In each case, as
    whenever the run raises, the file system is handed back as it was: no
    output file is written. *)
Theorem process_raw_data_missing_input fs raw_data_path metro_path output_path :
  let run := process_raw_data literal_eval get_dummies to_numeric_cleaned
               astype_int fs raw_data_path metro_path output_path in
  (fs !! raw_data_path = None →
   run = (Raise (FileNotFoundError ("Raw data file not found: " ++ raw_data_path)),
          fs)) ∧
  (∀ df, fs !! raw_data_path = Some df → fs !! metro_path = None →
   run = (Raise (FileNotFoundError ("Metro stations file not found: " ++ metro_path)),
          fs)) ∧
  (∀ df metro, fs !! raw_data_path = Some df → fs !! metro_path = Some metro →
   "price_czk" ∉ columns df →
   run = (Raise (ValueError "Missing required column: price_czk"), fs)) ∧
  (∀ e, run.1 = Raise e → run.2 = fs).
Proof.
  intros run. subst run. unfold process_raw_data, read_csv.
  split; [|split; [|split]].
  - by intros ->.
  - intros df -> ->. reflexivity.
  - intros df metro -> -> Hno. by destruct (decide _).
  - intros e. destruct (fs !! raw_data_path) as [df|]; [|done].
    destruct (fs !! metro_path) as [metro|]; [|done].
    destruct (decide _); [done|].
    destruct (enrich _ _ _ _ df metro) as [out|e']; [|done].
    destruct output_path as [path|]; [|done].
    destruct (truthy (PStr path)); discriminate.
Qed.

(** C10. In the table a run of [process_raw_data] returns, every row satisfies
    [1000m_dist_L = (metro_dist_L <= 1000)] for the three lines; a row whose
    latitude or longitude is missing has the three distances [nan] and the
    three flags 0, not missing; and so has a row whose three distances are
    numbers above 1000: the flags do not tell the two apart. *)
Theorem missing_coordinates_flags fs raw_data_path metro_path output_path df metro out :
  fs !! raw_data_path = Some df → fs !! metro_path = Some metro →
  (process_raw_data literal_eval get_dummies to_numeric_cleaned astype_int
     fs raw_data_path metro_path output_path).1 = Ok out →
  (∀ c, c ∈ ["latitude"; "longitude"; "metro_dist_A"; "metro_dist_B";
             "metro_dist_C"; "1000m_dist_A"; "1000m_dist_B"; "1000m_dist_C"] →
        c ∈ columns out) ∧
  ∀ i o, rows out !! i = Some o →
    (le_flag 1000 (cell o "metro_dist_A") = Ok (cell o "1000m_dist_A") ∧
     le_flag 1000 (cell o "metro_dist_B") = Ok (cell o "1000m_dist_B") ∧
     le_flag 1000 (cell o "metro_dist_C") = Ok (cell o "1000m_dist_C")) ∧
    (isna (cell o "latitude") = true ∨ isna (cell o "longitude") = true →
     cell o "metro_dist_A" = PFloat NaN ∧ cell o "metro_dist_B" = PFloat NaN ∧
     cell o "metro_dist_C" = PFloat NaN ∧
     cell o "1000m_dist_A" = PInt 0 ∧ cell o "1000m_dist_B" = PInt 0 ∧
     cell o "1000m_dist_C" = PInt 0) ∧
    (∀ a b c, cell o "metro_dist_A" = PFloat (Num a) →
              cell o "metro_dist_B" = PFloat (Num b) →
              cell o "metro_dist_C" = PFloat (Num c) →
              (1000 < a)%R → (1000 < b)%R → (1000 < c)%R →
     cell o "1000m_dist_A" = PInt 0 ∧ cell o "1000m_dist_B" = PInt 0 ∧
     cell o "1000m_dist_C" = PInt 0).
Proof using get_dummies_frame.
  intros Hdf Hmetro Hout.
  destruct (process_raw_data_Ok _ _ _ _ _ _ _ Hdf Hmetro Hout) as [_ Hrun].
  destruct (enrich_stages _ _ _ Hrun)
    as (d1 & d2 & d3 & d4 & d6 & d7 & d8 & d9 & d10 &
        H1 & H2 & H3 & H4 & H6 & H7 & H8 & H9 & H10 & H11).
  destruct (metro_distances_spec _ _ _ H9) as (S9 & C9 & V9).
  destruct (metro_features_spec _ _ H10) as (S10 & C10 & V10).
  { intros c Hc. apply C9. labels_in Hc. }
  pose proof (get_dummies_frame _ _ _ H11) as S11.
  assert (Hsafe : ∀ c, c ∈ ["latitude"; "longitude"; "metro_dist_A"; "metro_dist_B";
             "metro_dist_C"; "1000m_dist_A"; "1000m_dist_B"; "1000m_dist_C"] →
             ¬ dummy_name ["nearest_station"] c).
  { intros c Hc.
    repeat (apply elem_of_cons in Hc as [->|Hc]; [by apply not_dummy_station|]).
    by apply elem_of_nil in Hc. }
  assert (Hlat8 : "latitude" ∈ columns d8 ∧ "longitude" ∈ columns d8).
  { destruct (rename_spec _ _ _ H8) as (_ & -> & _).
    destruct (lat_lon_cleaned _ _ _ _ _ H1 H2 H3 H4) as [Hlat4 Hlon4].
    pose proof (middle_same_cells _ _ _ H6 H7) as (_ & Hmid & _).
    split; apply list_elem_of_fmap; [exists "lat" | exists "lon"];
      (split; [reflexivity|]); apply Hmid; try assumption;
      apply old_labels_middle_safe; decide_labels. }
  split.
  - intros c Hc. destruct S11 as (_ & Hc11 & _). apply Hc11; [by apply Hsafe|].
    destruct S10 as (_ & Hc10 & _). destruct S9 as (_ & Hc9 & _).
    repeat (apply elem_of_cons in Hc as [->|Hc];
      [first [ apply C10; decide_labels
             | apply Hc10; [decide_labels|]; apply C9; decide_labels
             | apply Hc10; [decide_labels|]; apply Hc9; [decide_labels|];
               apply Hlat8 ]|]).
    by apply elem_of_nil in Hc.
  - intros i o Ho.
    destruct (same_cells_row_back _ _ _ _ _ S11 Ho) as (r10 & Hr10 & E11).
    destruct (same_cells_row_back _ _ _ _ _ S10 Hr10) as (r9 & Hr9 & E10).
    destruct (same_cells_row_back _ _ _ _ _ S9 Hr9) as (r8 & Hr8 & E9).
    destruct (V10 i r9 r10 Hr9 Hr10) as (FA & FB & FC).
    destruct (V9 i r8 r9 Hr8 Hr9) as (a & Ha & VA & VB & VC & _).
    assert (Eo : ∀ c, c ∈ ["latitude"; "longitude"; "metro_dist_A"; "metro_dist_B";
             "metro_dist_C"; "1000m_dist_A"; "1000m_dist_B"; "1000m_dist_C"] →
             cell o c = cell r10 c) by (intros c Hc; by apply E11, Hsafe).
    assert (Flags :
      le_flag 1000 (cell o "metro_dist_A") = Ok (cell o "1000m_dist_A") ∧
      le_flag 1000 (cell o "metro_dist_B") = Ok (cell o "1000m_dist_B") ∧
      le_flag 1000 (cell o "metro_dist_C") = Ok (cell o "1000m_dist_C")).
    { rewrite !Eo by decide_labels.
      rewrite (E10 "metro_dist_A"), (E10 "metro_dist_B"), (E10 "metro_dist_C")
        by decide_labels. auto. }
    split; [exact Flags|]. split.
    + intros Hna.
      rewrite (Eo "latitude"), (Eo "longitude") in Hna by decide_labels.
      rewrite (E10 "latitude"), (E10 "longitude") in Hna by decide_labels.
      rewrite (E9 "latitude"), (E9 "longitude") in Hna by decide_labels.
      pose proof (GeoFacts.get_metro_distances_Ok_missing _ _ _ Ha Hna) as ->.
      simpl in VA, VB, VC.
      assert (MA : cell o "metro_dist_A" = PFloat NaN)
        by (rewrite Eo, E10 by decide_labels; exact VA).
      assert (MB : cell o "metro_dist_B" = PFloat NaN)
        by (rewrite Eo, E10 by decide_labels; exact VB).
      assert (MC : cell o "metro_dist_C" = PFloat NaN)
        by (rewrite Eo, E10 by decide_labels; exact VC).
      destruct Flags as (GA & GB & GC). rewrite MA in GA. rewrite MB in GB.
      rewrite MC in GC. injection GA as <-. injection GB as <-. injection GC as <-.
      auto 10.
    + intros x y z Hx Hy Hz Lx Ly Lz. destruct Flags as (GA & GB & GC).
      rewrite Hx in GA. rewrite Hy in GB. rewrite Hz in GC.
      rewrite (le_flag_number 1000 _ x) in GA by reflexivity.
      rewrite (le_flag_number 1000 _ y) in GB by reflexivity.
      rewrite (le_flag_number 1000 _ z) in GC by reflexivity.
      destruct (Rle_dec x 1000); [lra|]. destruct (Rle_dec y 1000); [lra|].
      destruct (Rle_dec z 1000); [lra|].
      injection GA as <-. injection GB as <-. injection GC as <-. auto.
Qed.

(** C3. For a listing table with the column [price_czk] on which the run of
    [process_raw_data] returns: the output has one row for each input row with a price, in
    the same order (the price of the i-th output row is the price of the
    i-th priced input row, and every column no stage touches is carried
    over); input rows without a price play no part (every table with the
    same priced rows gives the same output); and the renaming is applied:
    no old label is left, [price], [latitude] and [longitude] are there, and
    each old label of the cleaned table is found under its new label with
    the same cells. *)
Theorem process_raw_data_rows_and_renaming
    fs raw_data_path metro_path output_path df metro out :
  fs !! raw_data_path = Some df → fs !! metro_path = Some metro →
  "price_czk" ∈ columns df →
  (process_raw_data literal_eval get_dummies to_numeric_cleaned astype_int
     fs raw_data_path metro_path output_path).1 = Ok out →
  let priced := filter (fun r => isna (cell r "price_czk") = false) (rows df) in
  (∀ df', keep_priced df' = keep_priced df →
     enrich literal_eval get_dummies to_numeric_cleaned astype_int df' metro
     = Ok out) ∧
  length (rows out) = length priced ∧
  (∀ i r o, priced !! i = Some r → rows out !! i = Some o →
     cell o "price" = cell r "price_czk" ∧
     ∀ c, c ∈ columns df → passes_through c → cell o c = cell r c) ∧
  (∀ c, c ∈ (fst <$> column_mapping) → c ∉ columns out) ∧
  (∀ c, c ∈ ["price"; "latitude"; "longitude"] → c ∈ columns out) ∧
  ∃ d1 d2 d3 cleaned,
    extract_locality literal_eval (keep_priced df) = Ok d1 ∧
    extract_categories literal_eval d1 = Ok d2 ∧
    extract_property_details literal_eval d2 = Ok d3 ∧
    clean_details to_numeric_cleaned astype_int d3 = Ok cleaned ∧
    ∀ old new, (old, new) ∈ column_mapping → old ∈ columns cleaned →
      new ∈ columns out ∧
      ∀ i r o, rows cleaned !! i = Some r → rows out !! i = Some o →
               cell o new = cell r old.
Proof using get_dummies_frame.
  intros Hdf Hmetro Hprice Hout priced.
  destruct (process_raw_data_Ok _ _ _ _ _ _ _ Hdf Hmetro Hout) as [_ Hrun].
  destruct (enrich_stages _ _ _ Hrun)
    as (d1 & d2 & d3 & d4 & d6 & d7 & d8 & d9 & d10 &
        H1 & H2 & H3 & H4 & H6 & H7 & H8 & H9 & H10 & H11).
  pose proof (head_same_cells _ _ _ _ _ H1 H2 H3 H4) as Shead.
  pose proof (middle_same_cells _ _ _ H6 H7) as Smid.
  pose proof (tail_same_cells _ _ _ _ _ H9 H10 H11) as Stail.
  destruct (rename_spec _ _ _ H8) as (Hlen8 & Hcols8 & _ & Hcell8).
  pose proof (fun old new =>
    renamed_cells _ _ _ _ _ _ _ _ old new H6 H7 H8 H9 H10 H11) as Hren.
  assert (Hprice0 : "price_czk" ∈ columns (keep_priced df)).
  { apply keep_priced_columns. split; [decide_labels|assumption]. }
  assert (Hhead : head_safe "price_czk") by (unfold head_safe; decide_labels).
  assert (Hprice4 : "price_czk" ∈ columns d4)
    by (destruct Shead as (_ & Hc & _); by apply Hc).
  assert (Hlen : length (rows out) = length priced).
  { destruct Stail as (-> & _). rewrite Hlen8. destruct Smid as (-> & _).
    destruct Shead as (-> & _). by rewrite keep_priced_rows_filter, length_fmap. }
  split; [|split; [exact Hlen|split; [|split; [|split]]]].
  - intros df' Hsame. unfold enrich in *. by rewrite Hsame.
  - intros i r o Hr Ho.
    assert (Hr0 : rows (keep_priced df) !! i = Some (foldr delete r cols_to_drop)).
    { rewrite keep_priced_rows_filter, list_lookup_fmap. fold priced.
      by rewrite Hr. }
    destruct (same_cells_row _ _ _ _ _ Shead Hr0) as (r4 & Hr4 & E4).
    split.
    + destruct (Hren "price_czk" "price") as [_ Hcells];
        [decide_labels | assumption |].
      rewrite (Hcells i r4 o Hr4 Ho), (E4 _ Hhead).
      apply cell_foldr_delete. decide_labels.
    + intros c Hc (Hdrop & Hh & Hm & Hold & Ht).
      destruct (same_cells_row_back _ _ _ _ _ Stail Ho) as (r8 & Hr8 & E8).
      destruct (same_cells_row _ _ _ _ _ Smid Hr4) as (r7 & Hr7 & E7).
      assert (Hc7 : c ∈ columns d7).
      { destruct Smid as (_ & Hc7 & _). apply Hc7; [assumption|].
        destruct Shead as (_ & Hc4 & _). apply Hc4; [assumption|].
        by apply keep_priced_columns. }
      pose proof (Hcell8 i r7 r8 c Hc7 Hr7 Hr8) as E78.
      rewrite (rename_label_other column_mapping c Hold) in E78.
      rewrite (E8 c Ht), E78, (E7 c Hm), (E4 c Hh).
      by apply cell_foldr_delete.
  - intros c Hc Hin.
    assert (Hts : tail_safe c).
    { cbn in Hc.
      repeat (apply elem_of_cons in Hc as [->|Hc];
        [split; [decide_labels|by apply not_dummy_station]|]).
      by apply elem_of_nil in Hc. }
    destruct Stail as (_ & Hc8 & _). apply (Hc8 c Hts) in Hin.
    rewrite Hcols8 in Hin. apply list_elem_of_fmap in Hin as (c' & -> & _).
    by apply (rename_label_not_old c').
  - destruct (lat_lon_cleaned _ _ _ _ _ H1 H2 H3 H4) as [Hlat4 Hlon4].
    intros c Hc.
    apply elem_of_cons in Hc as [->|Hc];
      [apply (Hren "price_czk" "price"); [decide_labels|assumption]|].
    apply elem_of_cons in Hc as [->|Hc];
      [apply (Hren "lat" "latitude"); [decide_labels|assumption]|].
    apply elem_of_cons in Hc as [->|Hc];
      [apply (Hren "lon" "longitude"); [decide_labels|assumption]|].
    by apply elem_of_nil in Hc.
  - exists d1, d2, d3, d4. auto 10.
Qed.

(** The proximity flags of a run that returns.  A point-of-interest column
    [col] of the listing table is gone from the output and its companion
    [col.replace('poi_', '500m_')] is there; when no other
    point-of-interest column has the same companion label, the companion
    holds, row by row, 1 when the distance is a number that is at most 500
    and 0 otherwise.  The three transit columns stay and each has its flag
    column, 1 when the distance is a number that is at most 1000 and 0
    otherwise.  Both bounds count as near: 500 and 1000 give 1, 501 and
    1001 give 0. *)
Lemma proximity_flags df metro out :
  enrich literal_eval get_dummies to_numeric_cleaned astype_int df metro = Ok out →
  let priced := filter (fun r => isna (cell r "price_czk") = false) (rows df) in
  (∀ col, col ∈ columns df → String.prefix "poi_" col = true →
     (col ∉ columns out) ∧ replace_poi col ∈ columns out ∧
     ((∀ col', col' ∈ columns df → String.prefix "poi_" col' = true →
               replace_poi col' = replace_poi col → col' = col) →
      ∀ i r o, priced !! i = Some r → rows out !! i = Some o →
        le_flag 500 (cell r col) = Ok (cell o (replace_poi col)))) ∧
  (∀ c, c ∈ ["metro_dist_A"; "metro_dist_B"; "metro_dist_C";
             "1000m_dist_A"; "1000m_dist_B"; "1000m_dist_C"] → c ∈ columns out) ∧
  (∀ i o, rows out !! i = Some o →
     le_flag 1000 (cell o "metro_dist_A") = Ok (cell o "1000m_dist_A") ∧
     le_flag 1000 (cell o "metro_dist_B") = Ok (cell o "1000m_dist_B") ∧
     le_flag 1000 (cell o "metro_dist_C") = Ok (cell o "1000m_dist_C")) ∧
  (∀ threshold v flag, le_flag threshold v = Ok flag →
     (flag = PInt 1 ∧ ∃ x, as_float v = Ok (Num x) ∧ (x <= IZR threshold)%R) ∨
     (flag = PInt 0 ∧ (isna v = true ∨
                       ∃ x, as_float v = Ok (Num x) ∧ (IZR threshold < x)%R))) ∧
  le_flag 500 (PInt 500) = Ok (PInt 1) ∧ le_flag 500 (PInt 501) = Ok (PInt 0) ∧
  le_flag 1000 (PFloat (Num 1000)) = Ok (PInt 1) ∧
  le_flag 1000 (PFloat (Num 1001)) = Ok (PInt 0).
Proof using get_dummies_frame.
  intros Hrun priced.
  destruct (enrich_stages _ _ _ Hrun)
    as (d1 & d2 & d3 & d4 & d6 & d7 & d8 & d9 & d10 &
        H1 & H2 & H3 & H4 & H6 & H7 & H8 & H9 & H10 & H11).
  pose proof (head_same_cells _ _ _ _ _ H1 H2 H3 H4) as Shead.
  pose proof (encode_categories_spec _ _ H7) as S7.
  pose proof (tail_same_cells _ _ _ _ _ H9 H10 H11) as Stail.
  destruct (rename_spec _ _ _ H8) as (Hlen8 & Hcols8 & _ & Hcell8).
  destruct (poi_features_spec _ _ H6) as (S6 & Hgone & Hflag).
  destruct (metro_distances_spec _ _ _ H9) as (S9 & C9 & _).
  destruct (metro_features_spec _ _ H10) as (S10 & C10 & V10).
  { intros c Hc. apply C9. labels_in Hc. }
  pose proof (get_dummies_frame _ _ _ H11) as S11.
  (* the point-of-interest columns reach the encoder as they were read *)
  assert (Hreach : ∀ col, String.prefix "poi_" col = true →
            (col ∈ columns (drop cols_to_remove d4) ↔ col ∈ columns df)).
  { intros col Hp. destruct (poi_label_safe _ Hp) as (Hd & Hh & Hr & _).
    rewrite drop_columns. destruct Shead as (_ & Hc & _). rewrite (Hc col Hh).
    rewrite keep_priced_columns. tauto. }
  split; [|split; [|split; [|split]]].
  - intros col Hin Hp.
    destruct (poi_label_safe _ Hp) as (Hd & Hh & Hr & Hnd & Hts & Hnew & Hold).
    pose proof (replace_poi_prefix _ Hp) as Hp5.
    destruct (companion_label_safe _ Hp5) as (Hnd5 & Hold5 & Hts5).
    destruct (Hflag col (proj2 (Hreach col Hp) Hin) Hp) as [Hcomp Hvals].
    assert (Hcomp7 : replace_poi col ∈ columns d7)
      by (destruct S7 as (_ & Hc & _); by apply Hc).
    split; [|split].
    + intros Hout. destruct Stail as (_ & Hc8 & _). apply (Hc8 col Hts) in Hout.
      rewrite Hcols8 in Hout. apply list_elem_of_fmap in Hout as (c' & Heq & Hc').
      destruct (decide (c' ∈ (fst <$> column_mapping))) as [Hc'old|Hc'old].
      * apply Hnew. rewrite Heq.
        apply list_elem_of_fmap in Hc'old as ([old new] & Hfst & Hpair).
        cbn [fst] in Hfst. subst c'.
        rewrite (rename_label_pair _ _ Hpair). apply list_elem_of_fmap.
        by exists (old, new).
      * rewrite (rename_label_other _ _ Hc'old) in Heq. subst c'.
        destruct S7 as (_ & Hc & _). apply (Hc col Hnd) in Hc'.
        by apply (Hgone col Hp).
    + destruct Stail as (_ & Hc8 & _). apply (Hc8 _ Hts5). rewrite Hcols8.
      apply list_elem_of_fmap. exists (replace_poi col).
      by rewrite (rename_label_other _ _ Hold5).
    + intros Hinj i r o Hr0 Ho.
      assert (Hrk : rows (keep_priced df) !! i = Some (foldr delete r cols_to_drop)).
      { rewrite keep_priced_rows_filter, list_lookup_fmap. fold priced.
        by rewrite Hr0. }
      destruct (same_cells_row _ _ _ _ _ Shead Hrk) as (r4 & Hr4 & E4).
      destruct (same_cells_row_back _ _ _ _ _ Stail Ho) as (r8 & Hr8 & E8).
      destruct (lookup_lt_is_Some_2 (rows d7) i) as [r7 Hr7].
      { rewrite <- Hlen8. by eapply lookup_lt_Some. }
      destruct (same_cells_row_back _ _ _ _ _ S7 Hr7) as (r6 & Hr6 & E7).
      assert (Hr5 : rows (drop cols_to_remove d4) !! i
                    = Some (foldr delete r4 cols_to_remove)).
      { cbn [rows drop]. by rewrite list_lookup_fmap, Hr4. }
      pose proof (Hcell8 i r7 r8 _ Hcomp7 Hr7 Hr8) as E78.
      rewrite (rename_label_other _ _ Hold5) in E78.
      rewrite (E8 _ Hts5), E78, (E7 _ Hnd5).
      rewrite <- (Hvals (fun col' Hc' Hp' => Hinj col' (proj1 (Hreach col' Hp') Hc') Hp')
                    i _ r6 Hr5 Hr6).
      f_equal. rewrite cell_foldr_delete by assumption. rewrite (E4 col Hh).
      by rewrite cell_foldr_delete.
  - intros c Hc. destruct S11 as (_ & Hc11 & _).
    destruct S10 as (_ & Hc10 & _).
    repeat (apply elem_of_cons in Hc as [->|Hc];
      [apply Hc11; [by apply not_dummy_station|];
       first [ apply C10; decide_labels
             | apply Hc10; [decide_labels|]; apply C9; decide_labels ]|]).
    by apply elem_of_nil in Hc.
  - intros i o Ho.
    destruct (same_cells_row_back _ _ _ _ _ S11 Ho) as (r10 & Hr10 & E11).
    destruct (same_cells_row_back _ _ _ _ _ S10 Hr10) as (r9 & Hr9 & E10).
    destruct (V10 i r9 r10 Hr9 Hr10) as (FA & FB & FC).
    rewrite !E11 by (by apply not_dummy_station).
    rewrite (E10 "metro_dist_A"), (E10 "metro_dist_B"), (E10 "metro_dist_C")
      by decide_labels. auto.
  - apply le_flag_spec.
  - repeat split.
    + rewrite (le_flag_number 500 _ 500) by reflexivity.
      destruct (Rle_dec 500 500); [reflexivity|lra].
    + rewrite (le_flag_number 500 _ 501) by reflexivity.
      destruct (Rle_dec 501 500); [lra|reflexivity].
    + rewrite (le_flag_number 1000 _ 1000) by reflexivity.
      destruct (Rle_dec 1000 1000); [reflexivity|lra].
    + rewrite (le_flag_number 1000 _ 1001) by reflexivity.
      destruct (Rle_dec 1001 1000); [lra|reflexivity].
Qed.

End Stages.

(** *** The two small runs *)

Lemma get_dummies_one_level_keeps : get_dummies_keeps get_dummies_one_level.
Proof.
  intros df cs out [= <-].
  apply (same_cells_weaken (fun c => c ∉ cs)); [|apply drop_same_cells].
  intros c Hc Hin. apply Hc. by left.
Qed.

(** The run on the three listings: the second one goes, the other two are
    enriched in their order, and the table is written. *)
Lemma process_three_listings :
  process_raw_data (literal_eval_of readings) get_dummies_one_level
    to_numeric_digits astype_int_exact
    files_three estate_path stations_path (Some processed_path)
  = (Ok two_enriched, <[processed_path := two_enriched]> files_three).
Proof.
  transitivity
    (Ok (two_enriched_with
           (match le_flag 500 (PInt 500) with Ok flag => flag | Raise _ => PNone end)
           (match le_flag 500 (PInt 501) with Ok flag => flag | Raise _ => PNone end)),
     <[processed_path :=
         two_enriched_with
           (match le_flag 500 (PInt 500) with Ok flag => flag | Raise _ => PNone end)
           (match le_flag 500 (PInt 501) with Ok flag => flag | Raise _ => PNone end)]>
       files_three).
  - vm_compute. reflexivity.
  - by rewrite (le_flag_within 500 500), (le_flag_beyond 500 501).
Qed.

(** The run on the listing with the two colliding labels. *)
Lemma process_colliding_listings :
  process_raw_data (literal_eval_of readings) get_dummies_one_level
    to_numeric_digits astype_int_exact
    files_colliding estate_path stations_path None
  = (Ok collided, files_colliding).
Proof.
  transitivity
    (Ok (collided_with
           (match le_flag 500 (PInt 900) with Ok flag => flag | Raise _ => PNone end)),
     files_colliding).
  - vm_compute. reflexivity.
  - by rewrite (le_flag_beyond 500 900).
Qed.

Lemma process_raw_data_missing_input_witness :
  process_raw_data (literal_eval_of readings) get_dummies_one_level
    to_numeric_digits astype_int_exact
    (<[stations_path := metro_three]> ∅) estate_path stations_path (Some processed_path)
  = (Raise (FileNotFoundError "Raw data file not found: data/data_estate.csv"),
     <[stations_path := metro_three]> ∅) ∧
  process_raw_data (literal_eval_of readings) get_dummies_one_level
    to_numeric_digits astype_int_exact
    (<[estate_path := three_listings]> ∅) estate_path stations_path (Some processed_path)
  = (Raise (FileNotFoundError "Metro stations file not found: data/metro_stations.csv"),
     <[estate_path := three_listings]> ∅) ∧
  process_raw_data (literal_eval_of readings) get_dummies_one_level
    to_numeric_digits astype_int_exact
    (<[estate_path := metro_three]> (<[stations_path := metro_three]> ∅))
    estate_path stations_path (Some processed_path)
  = (Raise (ValueError "Missing required column: price_czk"),
     <[estate_path := metro_three]> (<[stations_path := metro_three]> ∅)).
Proof.
  split; [|split].
  - apply (process_raw_data_missing_input (literal_eval_of readings)
             get_dummies_one_level to_numeric_digits astype_int_exact
             (<[stations_path := metro_three]> ∅)).
    reflexivity.
  - apply (process_raw_data_missing_input (literal_eval_of readings)
             get_dummies_one_level to_numeric_digits astype_int_exact
             (<[estate_path := three_listings]> ∅) estate_path stations_path
             (Some processed_path)) with (df := three_listings);
      reflexivity.
  - apply (process_raw_data_missing_input (literal_eval_of readings)
             get_dummies_one_level to_numeric_digits astype_int_exact
             (<[estate_path := metro_three]> (<[stations_path := metro_three]> ∅))
             estate_path stations_path (Some processed_path))
      with (df := metro_three) (metro := metro_three);
      [reflexivity | reflexivity | apply (bool_decide_unpack _); by vm_compute].
Defined.

Lemma missing_coordinates_flags_witness :
  ∃ o, rows two_enriched !! 0%nat = Some o ∧
       cell o "latitude" = PNone ∧ cell o "metro_dist_A" = PFloat NaN ∧
       cell o "metro_dist_B" = PFloat NaN ∧ cell o "metro_dist_C" = PFloat NaN ∧
       cell o "1000m_dist_A" = PInt 0 ∧ cell o "1000m_dist_B" = PInt 0 ∧
       cell o "1000m_dist_C" = PInt 0.
Proof.
  destruct (missing_coordinates_flags (literal_eval_of readings)
              get_dummies_one_level to_numeric_digits astype_int_exact
              get_dummies_one_level_keeps
              files_three estate_path stations_path (Some processed_path)
              three_listings metro_three two_enriched)
    as [_ Hrows].
  - reflexivity.
  - reflexivity.
  - by rewrite process_three_listings.
  - exists (enriched 5000000 54 0 1 2 "500m_bus" (PInt 1)).
    destruct (Hrows 0%nat _ eq_refl) as (_ & Hmissing & _).
    split; [reflexivity|]. split; [reflexivity|].
    apply Hmissing. left. reflexivity.
Defined.

Lemma process_raw_data_rows_and_renaming_witness :
  length (rows three_listings) = 3%nat ∧ length (rows two_enriched) = 2%nat ∧
  (∀ c, c ∈ ["price_czk"; "lat"; "lon"; "usable_area"; "terrace"; "elevator";
             "floor_num"] → c ∉ columns two_enriched) ∧
  ((λ o, cell o "price") <$> rows two_enriched) = [PInt 5000000; PInt 9000000].
Proof.
  destruct (process_raw_data_rows_and_renaming (literal_eval_of readings)
              get_dummies_one_level to_numeric_digits astype_int_exact
              get_dummies_one_level_keeps
              files_three estate_path stations_path (Some processed_path)
              three_listings metro_three two_enriched)
    as (_ & Hlen & _ & Hold & _).
  - reflexivity.
  - reflexivity.
  - apply (bool_decide_unpack _). by vm_compute.
  - by rewrite process_three_listings.
  - split; [reflexivity|]. split; [rewrite Hlen; reflexivity|].
    split; [exact Hold | reflexivity].
Defined.

(** The flags of the three listings, from the general statement: the label
    [poi_bus] has a companion of its own. *)
Example proximity_flags_three_listings :
  ("poi_bus" ∉ columns two_enriched) ∧ "500m_bus" ∈ columns two_enriched.
Proof.
  destruct (proximity_flags (literal_eval_of readings)
              get_dummies_one_level to_numeric_digits astype_int_exact
              get_dummies_one_level_keeps three_listings metro_three two_enriched)
    as (Hpoi & _).
  - eapply (process_raw_data_Ok _ _ _ _ files_three); [..|by rewrite process_three_listings];
      reflexivity.
  - destruct (Hpoi "poi_bus") as (Hgone & Hthere & _);
      [apply (bool_decide_unpack _); by vm_compute | reflexivity |].
    by split.
Qed.

(** C8 on a table whose point-of-interest columns [poi_500m_a] and
    [poi_poi_a] have the same companion label, every occurrence of [poi_]
    being replaced: the run returns, the distance under [poi_500m_a] is 100,
    which is within the bound and calls for the flag 1, and the one companion
    column [500m_500m_a] of the output holds 0, the flag of the distance 900
    under [poi_poi_a]. *)
Theorem proximity_flag_label_collision :
  process_raw_data (literal_eval_of readings) get_dummies_one_level
    to_numeric_digits astype_int_exact
    files_colliding estate_path stations_path None
  = (Ok collided, files_colliding) ∧
  replace_poi "poi_500m_a" = "500m_500m_a" ∧
  replace_poi "poi_poi_a" = "500m_500m_a" ∧
  ((λ r, cell r "poi_500m_a") <$> rows colliding_listings) = [PInt 100] ∧
  le_flag 500 (PInt 100) = Ok (PInt 1) ∧
  ((λ o, cell o "500m_500m_a") <$> rows collided) = [PInt 0] ∧
  length (filter (String.prefix "500m_") (columns collided)) = 1%nat.
Proof.
  split; [exact process_colliding_listings|].
  repeat split; try reflexivity.
  by apply le_flag_within.
Qed.

End PipelineFacts.

(** ** The scan of [get_metro_distances] over any station table *)

Module GeoScanFacts.
Import PyMath Geo GeoScan GeoFacts.
Local Open Scope R_scope.


Lemma radians_Ok v x :
  as_float v = Ok x → radians v = Ok (lift1 (fun r => r * (PI / 180)) x).
Proof. intros Hv. unfold radians. by rewrite Hv. Qed.

Lemma radians_Raise v e : as_float v = Raise e → radians v = Raise TypeError.
Proof.
  intros Hv. unfold radians. rewrite Hv.
  by rewrite (as_float_raises _ _ Hv).
Qed.

(** With a [nan] among four converted arguments the distance is [nan]. *)
Lemma haversine_nan lon1 lat1 lon2 lat2 x1 y1 x2 y2 :
  as_float lon1 = Ok x1 → as_float lat1 = Ok y1 →
  as_float lon2 = Ok x2 → as_float lat2 = Ok y2 →
  x1 = NaN ∨ y1 = NaN ∨ x2 = NaN ∨ y2 = NaN →
  haversine lon1 lat1 lon2 lat2 = Ok NaN.
Proof.
  intros H1 H2 H3 H4 Hnan. unfold haversine.
  rewrite (radians_Ok _ _ H1), (radians_Ok _ _ H2), (radians_Ok _ _ H3),
    (radians_Ok _ _ H4).
  destruct x1, y1, x2, y2; try reflexivity.
  destruct Hnan as [|[|[|]]]; discriminate.
Qed.

(** An argument that is no number makes the call raise [TypeError]. *)
Lemma haversine_no_number lon1 lat1 lon2 lat2 :
  (∃ e, as_float lon1 = Raise e ∨ as_float lat1 = Raise e ∨
        as_float lon2 = Raise e ∨ as_float lat2 = Raise e) →
  haversine lon1 lat1 lon2 lat2 = Raise TypeError.
Proof.
  intros [e He]. unfold haversine.
  destruct (as_float lon1) as [x1|e1] eqn:H1;
    [rewrite (radians_Ok _ _ H1) | by rewrite (radians_Raise _ _ H1)].
  destruct (as_float lat1) as [y1|e2] eqn:H2;
    [rewrite (radians_Ok _ _ H2) | by rewrite (radians_Raise _ _ H2)].
  destruct (as_float lon2) as [x2|e3] eqn:H3;
    [rewrite (radians_Ok _ _ H3) | by rewrite (radians_Raise _ _ H3)].
  destruct (as_float lat2) as [y2|e4] eqn:H4;
    [rewrite (radians_Ok _ _ H4) | by rewrite (radians_Raise _ _ H4)].
  destruct He as [|[|[|]]]; discriminate.
Qed.

(** What a call that returns has returned. *)
Lemma haversine_Ok lon1 lat1 lon2 lat2 d :
  haversine lon1 lat1 lon2 lat2 = Ok d →
  d = NaN ∨ ∃ r1 r2 r3 r4,
    as_float lon1 = Ok (Num r1) ∧ as_float lat1 = Ok (Num r2) ∧
    as_float lon2 = Ok (Num r3) ∧ as_float lat2 = Ok (Num r4) ∧
    d = Num (great_circle r1 r2 r3 r4).
Proof.
  intros Hd.
  destruct (as_float lon1) as [x1|e1] eqn:H1;
    [|rewrite haversine_no_number in Hd; [discriminate | exists e1; auto]].
  destruct (as_float lat1) as [y1|e2] eqn:H2;
    [|rewrite haversine_no_number in Hd; [discriminate | exists e2; auto]].
  destruct (as_float lon2) as [x2|e3] eqn:H3;
    [|rewrite haversine_no_number in Hd; [discriminate | exists e3; auto]].
  destruct (as_float lat2) as [y2|e4] eqn:H4;
    [|rewrite haversine_no_number in Hd; [discriminate | exists e4; auto]].
  destruct x1 as [|r1];
    [rewrite (haversine_nan _ _ _ _ _ _ _ _ H1 H2 H3 H4) in Hd by auto;
     left; congruence|].
  destruct y1 as [|r2];
    [rewrite (haversine_nan _ _ _ _ _ _ _ _ H1 H2 H3 H4) in Hd by auto;
     left; congruence|].
  destruct x2 as [|r3];
    [rewrite (haversine_nan _ _ _ _ _ _ _ _ H1 H2 H3 H4) in Hd by auto;
     left; congruence|].
  destruct y2 as [|r4];
    [rewrite (haversine_nan _ _ _ _ _ _ _ _ H1 H2 H3 H4) in Hd by auto 6;
     left; congruence|].
  rewrite (haversine_number _ _ _ _ _ _ _ _ H1 H2 H3 H4) in Hd.
  right. exists r1, r2, r3, r4. repeat split; congruence.
Qed.

Lemma haversine_Ok_nonneg lon1 lat1 lon2 lat2 x :
  haversine lon1 lat1 lon2 lat2 = Ok (Num x) → 0 <= x.
Proof.
  intros [Hd|(r1 & r2 & r3 & r4 & _ & _ & _ & _ & Hd)]%haversine_Ok;
    [discriminate|].
  injection Hd as ->. apply great_circle_nonneg.
Qed.

(** *** The loop body on any row *)

Lemma sight_Ok lat lon r s :
  sight lat lon r = Ok s →
  r !! "line" = Some (seen_line s) ∧ r !! "name" = Some (seen_name s) ∧
  ∃ slat slng, r !! "lat" = Some slat ∧ r !! "lng" = Some slng ∧
               haversine lon lat slng slat = Ok (seen_dist s).
Proof.
  unfold sight, getitem.
  destruct (r !! "line") as [line|]; [|discriminate].
  destruct (r !! "name") as [name|]; [|discriminate].
  destruct (r !! "lat") as [slat|]; [|discriminate].
  destruct (r !! "lng") as [slng|]; [|discriminate].
  cbn [mbind outcome_mbind outcome_bind].
  destruct (haversine lon lat slng slat) as [dist|] eqn:Hd; [|discriminate].
  intros [= <-]. simpl. eauto 10.
Qed.

Lemma sight_nonneg lat lon r s x :
  sight lat lon r = Ok s → seen_dist s = Num x → 0 <= x.
Proof.
  intros (_ & _ & slat & slng & _ & _ & Hd)%sight_Ok Hx. rewrite Hx in Hd.
  by apply haversine_Ok_nonneg in Hd.
Qed.

Lemma line_update_at s a b c n g :
  is_number a → is_number b → is_number c →
  match dist_key (seen_line s) with
  | Some col_name =>
      match results_of a b c n g !! col_name with
      | Some stored =>
          lt ← lt_stored (seen_dist s) stored;
          mret (if lt : bool
                then <[col_name := PFloat (seen_dist s)]> (results_of a b c n g)
                else results_of a b c n g)
      | None => mret (results_of a b c n g)
      end
  | None => mret (results_of a b c n g)
  end
  = Ok (results_of (line_step_at "A" s a) (line_step_at "B" s b)
                   (line_step_at "C" s c) n g).
Proof.
  intros [ma Ha] [mb Hb] [mc Hc].
  unfold line_step_at, line_is, dist_key, nearer, lt_stored.
  destruct (seen_line s) as [| | | |l| | | | |]; try reflexivity.
  rewrite results_of_dist_key.
  destruct (decide (l = "A")) as [->|HnA].
  { rewrite Ha. simpl. destruct (fltb _ _); simpl;
      [by rewrite results_of_set_A | reflexivity]. }
  destruct (decide (l = "B")) as [->|HnB].
  { rewrite Hb. simpl. destruct (fltb _ _); simpl;
      [by rewrite results_of_set_B | reflexivity]. }
  destruct (decide (l = "C")) as [->|HnC].
  { rewrite Hc. simpl. destruct (fltb _ _); simpl;
      [by rewrite results_of_set_C | reflexivity]. }
  reflexivity.
Qed.

(** The loop body is the reading of the row followed by the two updates. *)
Lemma scan_station_sight lat lon st r :
  numeric_summary st →
  scan_station lat lon (summary_results st) r
  = s ← sight lat lon r; mret (summary_results (scan_sighting st s)).
Proof.
  intros (HA & HB & HC & [mg HG]). unfold scan_station, sight, getitem.
  destruct (r !! "line") as [line|]; [|reflexivity].
  destruct (r !! "name") as [name|]; [|reflexivity].
  destruct (r !! "lat") as [slat|]; [|reflexivity].
  destruct (r !! "lng") as [slng|]; [|reflexivity].
  cbn [mbind outcome_mbind outcome_bind].
  destruct (haversine lon lat slng slat) as [dist|]; [|reflexivity].
  cbn [mbind mret outcome_mbind outcome_bind outcome_mret].
  set (s := {| seen_line := line; seen_name := name; seen_dist := dist |}).
  unfold summary_results.
  pose proof (line_update_at s _ _ _ (sum_name st) (sum_global st) HA HB HC) as Hup.
  cbn [seen_line seen_dist s] in Hup. rewrite Hup.
  cbn [mbind outcome_mbind outcome_bind].
  destruct (results_of_lookup (line_step_at "A" s (sum_A st))
    (line_step_at "B" s (sum_B st)) (line_step_at "C" s (sum_C st))
    (sum_name st) (sum_global st)) as (_ & _ & _ & _ & ->).
  cbn [mbind outcome_mbind outcome_bind].
  unfold lt_stored, scan_sighting, nearer, summary_results. rewrite HG.
  cbn [mbind mret outcome_mbind outcome_bind outcome_mret seen_dist seen_name s
       sum_A sum_B sum_C sum_name sum_global].
  destruct (fltb dist (Num mg)); [|reflexivity].
  by rewrite results_of_set_nearest.
Qed.

(** *** What the five values can be *)

Lemma within_sentinel_number v :
  within_sentinel v → ∃ y, as_float v = Ok (Num y) ∧ 0 <= y <= sentinel.
Proof.
  intros [->|(m & -> & Hm)].
  - exists 99999. split; [reflexivity|]. unfold sentinel. lra.
  - exists m. split; [reflexivity|]. lra.
Qed.

Lemma nearer_never_stored d v :
  never_stored d → within_sentinel v → nearer d v = false.
Proof.
  intros Hd (y & Hy & Hle)%within_sentinel_number. unfold nearer. rewrite Hy.
  destruct Hd as [->|(x & -> & Hx)]; [reflexivity|].
  apply fltb_Num_false. lra.
Qed.

Lemma nearer_true d v :
  nearer d v = true → ∃ x y, d = Num x ∧ as_float v = Ok (Num y) ∧ x < y.
Proof.
  unfold nearer. destruct (as_float v) as [[|y]|]; try discriminate;
    destruct d as [|x]; try discriminate.
  intros H%fltb_Num. eauto.
Qed.

Lemma nearer_false x v y :
  as_float v = Ok (Num y) → nearer (Num x) v = false → y <= x.
Proof. unfold nearer. intros ->. by intros H%fltb_Num_false. Qed.

Lemma scanned_numeric l st : scanned l st → numeric_summary st.
Proof.
  intros (HA & HB & HC & HG & _).
  repeat split;
    match goal with
    | H : within_sentinel ?v |- is_number ?v =>
        destruct (within_sentinel_number _ H) as (y & Hy & _); by exists y
    end.
Qed.

Lemma scan_sighting_never_stored l st s :
  scanned l st → never_stored (seen_dist s) → scan_sighting st s = st.
Proof.
  intros (HA & HB & HC & HG & _) Hs. unfold scan_sighting, line_step_at.
  rewrite !(nearer_never_stored _ _ Hs) by assumption.
  rewrite !andb_false_r. by destruct st.
Qed.

Lemma line_step_within L s v :
  (∀ x, seen_dist s = Num x → 0 <= x) →
  within_sentinel v → within_sentinel (line_step_at L s v).
Proof.
  intros Hpos Hv. unfold line_step_at.
  destruct (line_is L (seen_line s)); [|assumption]. simpl.
  destruct (nearer (seen_dist s) v) eqn:Hn; [|assumption].
  apply nearer_true in Hn as (x & y & Hx & Hy & Hlt).
  destruct (within_sentinel_number _ Hv) as (y' & Hy' & Hle).
  rewrite Hx. right. exists x. split; [reflexivity|].
  specialize (Hpos _ Hx). assert (y' = y) by congruence. lra.
Qed.

Lemma line_step_at_least L s v x m :
  seen_dist s = Num x → m <= x →
  (∀ y, as_float v = Ok (Num y) → m <= y) →
  ∀ y, as_float (line_step_at L s v) = Ok (Num y) → m <= y.
Proof.
  intros Hx Hm Hv y. unfold line_step_at.
  destruct (line_is L (seen_line s) && nearer (seen_dist s) v); [|apply Hv].
  rewrite Hx. simpl. intros [= <-]. exact Hm.
Qed.

Lemma scan_sighting_scanned l st s :
  (∀ x, seen_dist s = Num x → 0 <= x) →
  scanned l st → scanned (l ++ [s]) (scan_sighting st s).
Proof.
  intros Hpos Hst.
  destruct (seen_dist s) as [|x] eqn:Hx.
  { rewrite (scan_sighting_never_stored l) by (assumption || (left; assumption)).
    destruct Hst as (HA & HB & HC & HG & [Hinit|(s0 & m & Hs0 & Hrest)]).
    - repeat split; try assumption. by left.
    - repeat split; try assumption. right. exists s0, m.
      split; [apply elem_of_app; by left | exact Hrest]. }
  destruct (Rlt_dec x sentinel) as [Hlt|Hge].
  2:{ assert (never_stored (seen_dist s))
        by (right; exists x; split; [assumption|lra]).
      rewrite (scan_sighting_never_stored l) by assumption.
      destruct Hst as (HA & HB & HC & HG & [Hinit|(s0 & m & Hs0 & Hrest)]).
      - repeat split; try assumption. by left.
      - repeat split; try assumption. right. exists s0, m.
        split; [apply elem_of_app; by left | exact Hrest]. }
  assert (Hpos' : ∀ x', seen_dist s = Num x' → 0 <= x')
    by (intros x' Hx'; rewrite Hx in Hx'; injection Hx' as <-; by apply Hpos).
  destruct Hst as (HA & HB & HC & HG & Hname).
  unfold scanned, scan_sighting;
    cbn [sum_A sum_B sum_C sum_name sum_global].
  split; [by apply line_step_within|].
  split; [by apply line_step_within|].
  split; [by apply line_step_within|].
  assert (Hin : s ∈ (l ++ [s])%list) by (apply elem_of_app; right; by left).
  rewrite Hx.
  destruct (nearer (Num x) (sum_global st)) eqn:Hn.
  - split; [right; exists x; split; [reflexivity | split; [by apply Hpos | lra]]|].
    right. exists s, x. repeat split; try assumption.
    intros v y Hv Hy.
    apply nearer_true in Hn as (x' & g & [= <-] & Hg & Hxg).
    assert (Hold : ∀ v0, v0 ∈ [sum_A st; sum_B st; sum_C st] →
              ∀ y0, as_float v0 = Ok (Num y0) → x <= y0).
    { intros v0 Hv0 y0 Hy0.
      destruct Hname as [(Hg0 & EA & EB & EC & _)|(s0 & m & _ & _ & _ & Hg0 & _ & Hall)].
      - rewrite EA, EB, EC in Hv0.
        assert (v0 = PInt 99999) as ->
          by (repeat (apply elem_of_cons in Hv0 as [->|Hv0]; [reflexivity|]);
              by apply elem_of_nil in Hv0).
        injection Hy0 as <-. unfold sentinel in Hlt. lra.
      - rewrite Hg0 in Hg. injection Hg as <-.
        specialize (Hall v0 y0 Hv0 Hy0). lra. }
    repeat (apply elem_of_cons in Hv as [->|Hv];
      [revert y Hy; apply (line_step_at_least _ _ _ x); [assumption | lra |];
       apply Hold; by repeat constructor|]).
    by apply elem_of_nil in Hv.
  - split; [assumption|].
    destruct Hname as [(Hg0 & _)|(s0 & m & Hs0 & Hd0 & Hm & Hg0 & Hn0 & Hall)].
    { rewrite Hg0 in Hn. unfold nearer in Hn. simpl in Hn.
      apply fltb_Num_false in Hn. unfold sentinel in Hlt. lra. }
    right. exists s0, m. split; [apply elem_of_app; by left|].
    repeat split; try assumption.
    assert (Hmx : m <= x).
    { apply (nearer_false _ (sum_global st)); [by rewrite Hg0 | assumption]. }
    intros v y Hv Hy.
    repeat (apply elem_of_cons in Hv as [->|Hv];
      [revert y Hy; apply (line_step_at_least _ _ _ x); [assumption | lra |];
       intros y0 Hy0; refine (Hall _ y0 _ Hy0); by repeat constructor|]).
    by apply elem_of_nil in Hv.
Qed.

Lemma summary_init_scanned : scanned [] summary_init.
Proof. unfold scanned, summary_init; simpl. repeat split; by left. Qed.


(** *** The whole loop *)

Lemma mapM_outcome_cons {A B} (f : A → outcome B) x l :
  mapM f (x :: l) = y ← f x; k ← mapM f l; mret (y :: k).
Proof. reflexivity. Qed.

Lemma mapM_outcome_app {A B} (f : A → outcome B) l1 l2 :
  mapM f (l1 ++ l2)%list = k1 ← mapM f l1; k2 ← mapM f l2; mret (k1 ++ k2)%list.
Proof.
  induction l1 as [|x l1 IH].
  - change (mapM f ([] ++ l2)%list) with (mapM f l2).
    change (mapM f []) with (Ok (@nil B)). simpl.
    by destruct (mapM f l2).
  - change ((x :: l1) ++ l2)%list with (x :: (l1 ++ l2))%list.
    rewrite !mapM_outcome_cons, IH.
    destruct (f x) as [y|]; [|reflexivity]. simpl.
    destruct (mapM f l1) as [k1|]; [|reflexivity]. simpl.
    by destruct (mapM f l2).
Qed.

Lemma mapM_outcome_elem {A B} (f : A → outcome B) l k y :
  mapM f l = Ok k → y ∈ k → ∃ x, x ∈ l ∧ f x = Ok y.
Proof.
  revert k. induction l as [|x l IH]; intros k Hk Hy.
  - injection Hk as <-. by apply elem_of_nil in Hy.
  - rewrite mapM_outcome_cons in Hk.
    destruct (f x) as [y0|] eqn:Hx; [|discriminate]. simpl in Hk.
    destruct (mapM f l) as [k0|]; [|discriminate]. injection Hk as <-.
    apply elem_of_cons in Hy as [->|Hy].
    + exists x. split; [by left | assumption].
    + destruct (IH k0 eq_refl Hy) as (x0 & Hx0 & Hf). exists x0.
      split; [by right | assumption].
Qed.


Lemma sights_nonneg lat lon rws l s x :
  mapM (sight lat lon) rws = Ok l → s ∈ l → seen_dist s = Num x → 0 <= x.
Proof.
  intros Hl Hs Hx. destruct (mapM_outcome_elem _ _ _ _ Hl Hs) as (r & _ & Hr).
  by eapply sight_nonneg.
Qed.

Lemma fold_scanned l :
  (∀ s x, s ∈ l → seen_dist s = Num x → 0 <= x) →
  scanned l (fold_left scan_sighting l summary_init).
Proof.
  induction l as [|s l IH] using rev_ind; intros Hpos.
  - apply summary_init_scanned.
  - rewrite fold_left_app. simpl. apply scan_sighting_scanned.
    + intros x. apply Hpos. apply elem_of_app. right. by left.
    + apply IH. intros s0 x Hs0. apply Hpos. apply elem_of_app. by left.
Qed.

Lemma scan_rows lat lon rws l0 st :
  scanned l0 st →
  foldM (scan_station lat lon) rws (summary_results st)
  = l ← mapM (sight lat lon) rws;
    mret (summary_results (fold_left scan_sighting l st)).
Proof.
  revert l0 st. induction rws as [|r rws IH]; intros l0 st Hst; [reflexivity|].
  rewrite mapM_outcome_cons. cbn [foldM].
  rewrite (scan_station_sight _ _ _ _ (scanned_numeric _ _ Hst)).
  destruct (sight lat lon r) as [s|] eqn:Hs; [|reflexivity].
  cbn [mbind mret outcome_mbind outcome_bind outcome_mret].
  rewrite (IH (l0 ++ [s])%list).
  - by destruct (mapM (sight lat lon) rws).
  - apply scan_sighting_scanned; [|assumption].
    intros x. by apply (sight_nonneg _ _ _ _ _ Hs).
Qed.

Lemma get_metro_distances_scan row metro_df lat lon :
  row !! "latitude" = Some lat → row !! "longitude" = Some lon →
  isna lat = false → isna lon = false →
  get_metro_distances row metro_df
  = l ← mapM (sight lat lon) (rows metro_df); mret (entries l).
Proof.
  intros Hlat Hlon Hna1 Hna2. unfold get_metro_distances, getitem.
  rewrite Hlat, Hlon. cbn [mbind outcome_mbind outcome_bind].
  rewrite Hna1, Hna2. cbn [orb]. rewrite results_init_summary.
  rewrite (scan_rows _ _ _ [] _ summary_init_scanned).
  destruct (mapM (sight lat lon) (rows metro_df)) as [l|]; [|reflexivity].
  cbn [mbind mret outcome_mbind outcome_bind outcome_mret].
  unfold summary_results, getitem.
  set (st := fold_left scan_sighting l summary_init).
  destruct (results_of_lookup (sum_A st) (sum_B st) (sum_C st) (sum_name st)
              (sum_global st)) as (-> & -> & -> & -> & _).
  reflexivity.
Qed.

Lemma get_metro_distances_na row metro_df lat lon :
  row !! "latitude" = Some lat → row !! "longitude" = Some lon →
  isna lat || isna lon = true →
  get_metro_distances row metro_df = Ok [PFloat NaN; PFloat NaN; PFloat NaN; PNone].
Proof.
  intros Hlat Hlon Hna. unfold get_metro_distances, getitem.
  rewrite Hlat, Hlon. cbn [mbind outcome_mbind outcome_bind]. by rewrite Hna.
Qed.


(** What a call that returns has returned: the fully missing result of a
    listing without coordinates, or three values within the sentinel. *)
Lemma get_metro_distances_Ok_entries row metro_df a :
  get_metro_distances row metro_df = Ok a →
  ∃ lat lon, row !! "latitude" = Some lat ∧ row !! "longitude" = Some lon ∧
    ((isna lat || isna lon = true ∧
      a = [PFloat NaN; PFloat NaN; PFloat NaN; PNone]) ∨
     (isna lat = false ∧ isna lon = false ∧
      ∃ dA dB dC name, a = [dA; dB; dC; name] ∧
        within_sentinel dA ∧ within_sentinel dB ∧ within_sentinel dC)).
Proof.
  intros Hrun.
  destruct (row !! "latitude") as [lat|] eqn:Hlat;
    [|unfold get_metro_distances, getitem in Hrun; by rewrite Hlat in Hrun].
  destruct (row !! "longitude") as [lon|] eqn:Hlon;
    [|unfold get_metro_distances, getitem in Hrun; by rewrite Hlat, Hlon in Hrun].
  exists lat, lon. split; [reflexivity|]. split; [reflexivity|].
  destruct (isna lat || isna lon) eqn:Hna.
  { rewrite (get_metro_distances_na _ _ _ _ Hlat Hlon Hna) in Hrun.
    injection Hrun as <-. by left. }
  apply orb_false_elim in Hna as [Hna1 Hna2].
  rewrite (get_metro_distances_scan _ _ _ _ Hlat Hlon Hna1 Hna2) in Hrun.
  destruct (mapM (sight lat lon) (rows metro_df)) as [l|] eqn:Hl; [|discriminate].
  injection Hrun as <-. right. do 2 (split; [assumption|]).
  destruct (fold_scanned l) as (HA & HB & HC & _).
  { intros s x Hs. by apply (sights_nonneg _ _ _ _ _ _ Hl). }
  unfold entries. eauto 10.
Qed.

(** *** The value of a line *)





(** *** The properties *)








(** X4.  A station row whose distance is [nan] (a coordinate is [nan]) or is
    the sentinel and more can be taken out of the table, wherever it
    stands, or put into it: the call gives the same result, or raises the
    same exception. *)
Theorem get_metro_distances_unseen_station row lat lon cols cols' l1 r l2 :
  row !! "latitude" = Some lat → row !! "longitude" = Some lon →
  unseen lat lon r →
  get_metro_distances row {| columns := cols; rows := l1 ++ r :: l2 |}
  = get_metro_distances row {| columns := cols'; rows := l1 ++ l2 |}.
Proof.
  intros Hlat Hlon (s & Hs & Hnever).
  destruct (isna lat || isna lon) eqn:Hna.
  { by rewrite !(get_metro_distances_na _ _ _ _ Hlat Hlon Hna). }
  apply orb_false_elim in Hna as [Hna1 Hna2].
  rewrite !(get_metro_distances_scan _ _ _ _ Hlat Hlon Hna1 Hna2).
  cbn [rows]. rewrite !mapM_outcome_app, mapM_outcome_cons, Hs.
  destruct (mapM (sight lat lon) l1) as [k1|] eqn:Hk1; [|reflexivity].
  cbn [mbind mret outcome_mbind outcome_bind outcome_mret].
  destruct (mapM (sight lat lon) l2) as [k2|]; [|reflexivity].
  cbn [mbind mret outcome_mbind outcome_bind outcome_mret].
  unfold entries. rewrite !fold_left_app. cbn [fold_left].
  rewrite (scan_sighting_never_stored k1); [reflexivity | | assumption].
  apply fold_scanned. intros s0 x Hs0.
  by apply (sights_nonneg _ _ _ _ _ _ Hk1).
Qed.

Lemma sight_unlocated lat lon x y line name lng :
  as_float lat = Ok x → as_float lon = Ok y →
  sight lat lon (station_unlocated line name lng)
  = Ok {| seen_line := PStr line; seen_name := PStr name; seen_dist := NaN |}.
Proof.
  intros Hx Hy. unfold sight, getitem.
  assert (station_unlocated line name lng !! "line" = Some (PStr line)) as ->
    by (unfold station_unlocated; by simplify_map_eq).
  assert (station_unlocated line name lng !! "name" = Some (PStr name)) as ->
    by (unfold station_unlocated; by simplify_map_eq).
  assert (station_unlocated line name lng !! "lat" = Some (PFloat NaN)) as ->
    by (unfold station_unlocated; by simplify_map_eq).
  assert (station_unlocated line name lng !! "lng" = Some (PInt lng)) as ->
    by (unfold station_unlocated; by simplify_map_eq).
  cbn [mbind outcome_mbind outcome_bind].
  rewrite (haversine_nan _ _ _ _ y x (Num (IZR lng)) NaN Hy Hx) by auto.
  reflexivity.
Qed.

Lemma get_metro_distances_unseen_station_witness :
  get_metro_distances row_equator
    {| columns := columns metro_three;
       rows := [station_row "A" "X" 0 180] ++
               station_unlocated "A" "Dejvická" 14 ::
               [station_row "B" "P" 0 0; station_row "B" "Q" 0 0] |}
  = Ok [PInt 99999; PFloat (Num 0); PInt 99999; PStr "P"].
Proof.
  rewrite (get_metro_distances_unseen_station row_equator (PInt 0) (PInt 0)
             _ (columns metro_three));
    [exact get_metro_distances_three | reflexivity | reflexivity |].
  eexists. split; [by apply (sight_unlocated _ _ (Num 0) (Num 0))|]. by left.
Defined.




End GeoScanFacts.

(** ** The exceptions and the shape of the result of [extract_details] *)

Module ParserErrorFacts.
Import Text Parser ParserErrors Pipeline.

Lemma route_no_container name :
  no_container name = true → route labels name = Raise TypeError.
Proof. by destruct name. Qed.

Lemma route_container chain name :
  no_container name = false → ∃ k, route chain name = Ok k.
Proof.
  intros Hn. induction chain as [|[label key] chain [k IH]]; [by exists None|].
  cbn [route].
  assert (∃ b, py_in label name = Ok b) as [b ->]
    by (destruct name; try discriminate; eexists; reflexivity).
  cbn [mbind outcome_mbind outcome_bind].
  destruct b; [by exists (Some key) | by exists k].
Qed.

Lemma collect_item_risky d item :
  risky item = true → collect_item d item = Raise TypeError.
Proof.
  destruct item; try discriminate. cbn [risky collect_item].
  intros [Ht Hn]%andb_true_iff. rewrite Ht. cbn [negb].
  by rewrite (route_no_container _ Hn).
Qed.

Lemma collect_item_not_risky d item :
  risky item = false → ∃ d', collect_item d item = Ok d'.
Proof.
  destruct item; try (by exists d). cbn [risky collect_item].
  destruct (truthy (dict_get "name" kv)); cbn [negb andb]; [|by exists d].
  intros Hn. destruct (route_container labels _ Hn) as [k ->].
  cbn [mbind outcome_mbind outcome_bind]. destruct k; eauto.
Qed.

Lemma collect_items_risky items d :
  existsb risky items = true → foldM collect_item items d = Raise TypeError.
Proof.
  revert d. induction items as [|item items IH]; intros d; [discriminate|].
  cbn [existsb foldM]. destruct (risky item) eqn:Hr.
  - intros _. by rewrite (collect_item_risky _ _ Hr).
  - cbn [orb]. intros Hrest.
    destruct (collect_item_not_risky d _ Hr) as [d' ->].
    cbn [mbind outcome_mbind outcome_bind]. by apply IH.
Qed.

Lemma collect_items_not_risky items d :
  existsb risky items = false → ∃ d', foldM collect_item items d = Ok d'.
Proof.
  revert d. induction items as [|item items IH]; intros d; [by exists d|].
  cbn [existsb foldM]. intros [Hr Hrest]%orb_false_elim.
  destruct (collect_item_not_risky d _ Hr) as [d' ->].
  cbn [mbind outcome_mbind outcome_bind]. by apply IH.
Qed.

(** X6.  When the blob evaluates to a list, [extract_details] raises exactly
    when an entry of the list is a mapping whose name is a true boolean, a
    number other than 0 or non-empty bytes, and what it raises is
    [TypeError]; on every other list it returns. *)
Theorem extract_details_raises_exactly literal_eval x items :
  literal_eval x = Ok (PList items) →
  (existsb risky items = true →
   extract_details literal_eval x = Raise TypeError) ∧
  (existsb risky items = false → returns (extract_details literal_eval x)) ∧
  (∀ e, extract_details literal_eval x = Raise e →
        e = TypeError ∧ existsb risky items = true).
Proof.
  intros Hx.
  assert (Hrun : extract_details literal_eval x = foldM collect_item items [])
    by (unfold extract_details, safe_eval; by rewrite Hx).
  rewrite Hrun. split; [apply collect_items_risky|].
  split; [apply collect_items_not_risky|].
  intros e He. destruct (existsb risky items) eqn:Hr.
  - rewrite (collect_items_risky _ _ Hr) in He. by injection He as <-.
  - destruct (collect_items_not_risky _ [] Hr) as [d Hd]. congruence.
Qed.

Lemma extract_details_raises_exactly_witness :
  extract_details (literal_eval_of [(blob_numeric_name, numeric_name)])
    (PStr blob_numeric_name) = Raise TypeError ∧
  returns (extract_details (literal_eval_of [(blob_list_name, list_name)])
             (PStr blob_list_name)).
Proof.
  split.
  - by apply (extract_details_raises_exactly _ _ _ eq_refl).
  - by apply (extract_details_raises_exactly
                (literal_eval_of [(blob_list_name, list_name)])
                (PStr blob_list_name) _ eq_refl).
Defined.

Lemma dict_set_keys_in key v d k :
  k ∈ (fst <$> dict_set key v d) → k = key ∨ k ∈ (fst <$> d).
Proof.
  induction d as [|[k0 w] d IH]; cbn [dict_set].
  - intros ->%list_elem_of_singleton. by left.
  - case_decide as Hk; cbn [fmap list_fmap fst]; rewrite !elem_of_cons.
    + subst k0. tauto.
    + intros [->|Hin]; [right; by left|]. destruct (IH Hin); auto.
Qed.

Lemma dict_set_NoDup key v d :
  NoDup (fst <$> d) → NoDup (fst <$> dict_set key v d).
Proof.
  induction d as [|[k0 w] d IH]; cbn [dict_set].
  - intros _. cbn. apply NoDup_singleton.
  - cbn [fmap list_fmap fst]. intros [Hk0 Hd]%NoDup_cons.
    case_decide as Hk.
    + subst k0. cbn [fmap list_fmap fst]. by apply NoDup_cons.
    + cbn [fmap list_fmap fst]. apply NoDup_cons. split; [|by apply IH].
      intros [->|Hin]%dict_set_keys_in; contradiction.
Qed.

Lemma collect_items_NoDup items d d' :
  foldM collect_item items d = Ok d' →
  NoDup (fst <$> d) → NoDup (fst <$> d').
Proof.
  revert d. induction items as [|item items IH]; intros d.
  - by intros [= <-].
  - cbn [foldM]. intros (d1 & H1 & Hrest)%bind_Ok Hd.
    apply (IH _ Hrest). unfold collect_item in H1.
    destruct item; try (by injection H1 as <-).
    destruct (negb (truthy (dict_get "name" kv))); [by injection H1 as <-|].
    apply bind_Ok in H1 as ([key|] & _ & H1); injection H1 as <-;
      [by apply dict_set_NoDup | assumption].
Qed.

(** X7.  The result of [extract_details] is a dictionary of at most the eight
    keys of the chain, each at most once. *)
Theorem extract_details_well_formed literal_eval x d :
  extract_details literal_eval x = Ok d →
  NoDup (fst <$> d) ∧ (∀ k, k ∈ (fst <$> d) → k ∈ detail_keys) ∧
  (length d <= 8)%nat.
Proof.
  intros Hd.
  assert (Hnd : NoDup (fst <$> d)).
  { unfold extract_details in Hd. apply bind_Ok in Hd as (v & _ & Hd).
    destruct v; try (injection Hd as <-; apply NoDup_nil_2).
    apply (collect_items_NoDup _ _ _ Hd). apply NoDup_nil_2. }
  assert (Hsub : ∀ k, k ∈ (fst <$> d) → k ∈ detail_keys)
    by (intros k; by apply (PipelineFacts.extract_details_keys literal_eval x)).
  split; [assumption|]. split; [assumption|].
  rewrite <- (length_fmap fst d).
  change 8%nat with (length detail_keys).
  apply submseteq_length, NoDup_submseteq; assumption.
Qed.

Lemma extract_details_well_formed_witness :
  ∃ d, extract_details (literal_eval_of [(blob_two_floors, two_floors)])
         (PStr blob_two_floors) = Ok d ∧
       NoDup (fst <$> d) ∧ (length d <= 8)%nat.
Proof.
  exists [("floor", PStr "3. patro")]. split; [reflexivity|].
  destruct (extract_details_well_formed
              (literal_eval_of [(blob_two_floors, two_floors)])
              (PStr blob_two_floors) [("floor", PStr "3. patro")] eq_refl)
    as (Hnd & _ & Hlen).
  by split.
Defined.

End ParserErrorFacts.

(** ** The sign of the floor number *)

Module FloorSignFacts.
Import Text Floor FloorFacts.
#[local] Arguments String.append !s1 s2 : simpl nomatch.

Lemma digit_value_nonneg b : (0 <= digit_value b)%Z.
Proof. unfold digit_value. lia. Qed.

Lemma digits_value_nonneg ds : (0 <= digits_value ds)%Z.
Proof.
  unfold digits_value.
  assert (H : ∀ l acc, (0 <= acc)%Z →
            (0 <= fold_left (fun acc b => (10 * acc + digit_value b)%Z) l acc)%Z).
  { induction l as [|b l IH]; intros acc Hacc; [assumption|].
    cbn [fold_left]. apply IH. pose proof (digit_value_nonneg b). lia. }
  by apply H.
Qed.

Lemma int_of_digits_nonneg ds :
  all_digits ds = true → (0 <= int_of_text ds)%Z.
Proof.
  intros Hds. unfold int_of_text.
  destruct ds as [|b ds']; [apply digits_value_nonneg|].
  destruct (ascii_dec b "-") as [->|Hb].
  - simpl in Hds. discriminate.
  - assert (int_of_text (String b ds') = digits_value (String b ds')) as E.
    { unfold int_of_text.
      destruct b as [[] [] [] [] [] [] [] []]; try reflexivity. by destruct Hb. }
    unfold int_of_text in E. rewrite E. apply digits_value_nonneg.
Qed.

Lemma minus_in_match pre ds post :
  is_substring "-" (pre ++ String "-" ds ++ post).
Proof. exists pre, (ds ++ post). reflexivity. Qed.

(** X8.  A floor number below 0 needs the basement marker or a minus sign in
    the text; without a minus sign the result is -1, for the basement, or
    at least 0. *)
Theorem extract_floor_num_sign :
  (∀ v, (extract_floor_num v < 0)%Z →
     ∃ s, v = PStr s ∧
          (is_substring "suterén" (str_lower s) ∨ is_substring "-" (str_lower s))) ∧
  (∀ s, ¬ is_substring "-" (str_lower s) →
     (0 <= extract_floor_num (PStr s))%Z ∨
     (extract_floor_num (PStr s) = (-1)%Z ∧
      is_substring "suterén" (str_lower s))).
Proof.
  assert (Hcases : ∀ s,
    (0 <= extract_floor_num (PStr s))%Z ∨
    (extract_floor_num (PStr s) = (-1)%Z ∧ is_substring "suterén" (str_lower s)) ∨
    is_substring "-" (str_lower s)).
  { intros s. unfold extract_floor_num.
    destruct (str_in "přízemí" (str_lower s)); [left; lia|].
    destruct (str_in "suterén" (str_lower s)) eqn:Hb;
      [right; left; split; [reflexivity | by apply str_in_spec]|].
    destruct (re_search_signed_int (str_lower s)) as [m|] eqn:Hm; [|left; lia].
    apply re_search_sound in Hm
      as (pre & ds & post & Hs & _ & Hds & _ & _ & [->|[-> _]]).
    - right. right. rewrite Hs. apply minus_in_match.
    - left. by apply int_of_digits_nonneg. }
  split.
  - intros v Hneg. destruct v; try (simpl in Hneg; lia).
    exists s. split; [reflexivity|].
    destruct (Hcases s) as [Hpos|[[_ Hb]|Hminus]]; [lia | by left | by right].
  - intros s Hno. destruct (Hcases s) as [Hpos|[Hb|Hminus]]; [by left | by right |].
    contradiction.
Qed.

Lemma extract_floor_num_sign_witness :
  (0 <= extract_floor_num (PStr "3. Patro"))%Z ∨
  (extract_floor_num (PStr "3. Patro") = (-1)%Z ∧
   is_substring "suterén" (str_lower "3. Patro")).
Proof.
  apply (proj2 extract_floor_num_sign). by apply str_in_false.
Defined.

End FloorSignFacts.

(** ** The columns and the flags of the output *)

Module PipelineOutputFacts.
Import PyMath Text Parser Floor Geo GeoScan Pandas Pipeline PipelineReadings PandasFacts PipelineFacts GeoScanFacts.

(** Whether a label is touched by an encoding, decided. *)
Lemma dummy_name_decide cs c :
  dummy_name cs c ↔
  bool_decide (c ∈ cs) || existsb (fun c' => String.prefix (c' ++ "_") c) cs = true.
Proof.
  unfold dummy_name. rewrite orb_true_iff, bool_decide_eq_true, existsb_exists.
  split; intros [H|(c' & Hc' & Hp)]; auto; right; exists c';
    (split; [|assumption]).
  - by apply list_elem_of_In.
  - by apply list_elem_of_In.
Qed.

Ltac not_dummy :=
  let H := fresh in
  intros H; apply dummy_name_decide in H; vm_compute in H; discriminate H.

Lemma rename_label_new mapping c :
  c ∈ (fst <$> mapping) → rename_label mapping c ∈ (snd <$> mapping).
Proof.
  induction mapping as [|[old new] mapping IH]; cbn [fmap list_fmap fst snd rename_label].
  - by intros ?%elem_of_nil.
  - intros [->|Hin]%elem_of_cons.
    + rewrite decide_True by reflexivity. by left.
    + case_decide; [by left | right; by apply IH].
Qed.

Lemma rename_columns_other mapping d d' c :
  rename mapping d = Ok d' →
  c ∉ (fst <$> mapping) → c ∉ (snd <$> mapping) →
  (c ∈ columns d' ↔ c ∈ columns d).
Proof.
  intros (_ & -> & _)%rename_spec Hold Hnew. rewrite list_elem_of_fmap. split.
  - intros (c0 & -> & Hc0).
    destruct (decide (c0 ∈ (fst <$> mapping))) as [Hin|Hout].
    + destruct Hnew. by apply rename_label_new.
    + by rewrite (rename_label_other _ _ Hout).
  - intros Hc. exists c. by rewrite (rename_label_other _ _ Hold).
Qed.

Lemma le_flag_binary threshold v flag : le_flag threshold v = Ok flag → binary flag.
Proof. intros [[-> _]|[-> _]]%le_flag_spec; [by right | by left]. Qed.

Lemma poi_fold_binary l d d1 (done : list string) :
  foldM poi_flag_column l d = Ok d1 →
  (∀ c i r, c ∈ done → rows d !! i = Some r → binary (cell r c)) →
  ∀ c i r1, c ∈ done ∨ c ∈ (replace_poi <$> l) →
            rows d1 !! i = Some r1 → binary (cell r1 c).
Proof.
  revert d done. induction l as [|col l IH]; intros d done Hfold Hdone c i r1 Hc Hr1.
  - injection Hfold as <-. destruct Hc as [Hc|Hc]; [by apply (Hdone c i)|].
    by apply elem_of_nil in Hc.
  - cbn [foldM] in Hfold. apply bind_Ok in Hfold as (d0 & Hstep & Hfold).
    destruct (poi_flag_column_spec _ _ _ Hstep) as (_ & Hsame & _ & Hflag).
    apply (IH d0 (replace_poi col :: done) Hfold) with i; [|  | exact Hr1].
    + intros c' i' r0 Hc' Hr0.
      destruct (same_cells_row_back _ _ _ _ _ Hsame Hr0) as (r & Hr & E).
      destruct (decide (c' = replace_poi col)) as [->|Hne].
      * apply (le_flag_binary 500 (cell r col)). by apply (Hflag i').
      * rewrite (E c' Hne). apply elem_of_cons in Hc' as [?|Hc']; [contradiction|].
        by apply (Hdone c' i').
    + cbn [fmap list_fmap] in Hc. rewrite elem_of_cons in Hc. rewrite elem_of_cons.
      tauto.
Qed.

Lemma poi_features_binary d d' col i r' :
  poi_features d = Ok d' →
  col ∈ columns d → String.prefix "poi_" col = true →
  rows d' !! i = Some r' → binary (cell r' (replace_poi col)).
Proof.
  unfold poi_features.
  set (dist_cols := filter (fun col => String.prefix "poi_" col = true) (columns d)).
  intros H Hin Hp Hr'. apply bind_Ok in H as (d1 & Hfold & H). injection H as <-.
  cbn [rows drop] in Hr'. rewrite list_lookup_fmap in Hr'.
  destruct (rows d1 !! i) as [r1|] eqn:Hr1; [|discriminate].
  injection Hr' as <-.
  rewrite cell_foldr_delete.
  - apply (poi_fold_binary _ _ _ [] Hfold) with i; [| |assumption].
    + intros c i0 r0 Hc. by apply elem_of_nil in Hc.
    + right. apply list_elem_of_fmap. exists col. split; [reflexivity|].
      by apply list_elem_of_filter.
  - intros [Hp' _]%list_elem_of_filter.
    apply replace_poi_prefix in Hp. apply prefix_poi in Hp' as [rest E].
    rewrite E in Hp. discriminate.
Qed.

Section Stages.

Variable literal_eval : pyval → outcome pyval.
Variable get_dummies : DataFrame → list string → outcome DataFrame.
Variable to_numeric_cleaned : pyval → pyval.
Variable astype_int : pyval → outcome pyval.
Hypothesis get_dummies_frame : get_dummies_keeps get_dummies.

Lemma settled_columns metro d4 d6 d7 d8 d9 d10 out c :
  poi_features (drop cols_to_remove d4) = Ok d6 →
  encode_categories get_dummies d6 = Ok d7 →
  rename column_mapping d7 = Ok d8 →
  metro_distances metro d8 = Ok d9 →
  metro_features d9 = Ok d10 →
  get_dummies d10 ["nearest_station"] = Ok out →
  settled c →
  (c ∈ columns out ↔ c ∈ columns (drop cols_to_remove d4)).
Proof using get_dummies_frame.
  intros H6 H7 H8 H9 H10 H11 (Hpoi & H500 & Hdum & Hold & Hnew & Htail).
  destruct (tail_same_cells get_dummies get_dummies_frame _ _ _ _ _ H9 H10 H11)
    as (_ & Hc8 & _).
  rewrite (Hc8 c Htail), (rename_columns_other _ _ _ _ H8 Hold Hnew).
  destruct (encode_categories_spec get_dummies get_dummies_frame _ _ H7)
    as (_ & Hc7 & _).
  rewrite (Hc7 c Hdum).
  destruct (poi_features_spec _ _ H6) as ((_ & Hc6 & _) & _).
  by apply Hc6.
Qed.

Ltac settled_label :=
  unfold settled, tail_safe;
  repeat split;
    first [ reflexivity | decide_labels | not_dummy ].

Lemma dropped_settled c : c ∈ cols_to_drop → settled c ∧ head_safe c.
Proof.
  intros Hc. unfold cols_to_drop in Hc.
  repeat (apply elem_of_cons in Hc as [->|Hc];
    [split; [settled_label | unfold head_safe; decide_labels]|]).
  by apply elem_of_nil in Hc.
Qed.

Lemma intermediate_settled c :
  c ∈ intermediate_cols → settled c ∧ c ∈ cols_to_remove.
Proof.
  intros Hc. unfold intermediate_cols in Hc.
  repeat (apply elem_of_cons in Hc as [->|Hc];
    [split; [settled_label | decide_labels]|]).
  by apply elem_of_nil in Hc.
Qed.

(** X9.  The output has none of the columns dropped at the start, none of the
    intermediate columns but [price], and no column whose label starts with
    [poi_]. *)
Theorem enrich_dropped_columns df metro out c :
  enrich literal_eval get_dummies to_numeric_cleaned astype_int df metro = Ok out →
  c ∈ cols_to_drop ∨ c ∈ intermediate_cols ∨ String.prefix "poi_" c = true →
  c ∉ columns out.
Proof using get_dummies_frame.
  intros Hrun Hc.
  destruct (enrich_stages _ _ _ _ _ _ _ Hrun)
    as (d1 & d2 & d3 & d4 & d6 & d7 & d8 & d9 & d10 &
        H1 & H2 & H3 & H4 & H6 & H7 & H8 & H9 & H10 & H11).
  destruct Hc as [Hc|[Hc|Hc]].
  - destruct (dropped_settled _ Hc) as [Hs Hh].
    rewrite (settled_columns _ _ _ _ _ _ _ _ _ H6 H7 H8 H9 H10 H11 Hs).
    rewrite drop_columns.
    destruct (head_same_cells _ _ _ _ _ _ _ _ H1 H2 H3 H4) as (_ & Hc4 & _).
    rewrite (Hc4 c Hh), keep_priced_columns. tauto.
  - destruct (intermediate_settled _ Hc) as [Hs Hr].
    rewrite (settled_columns _ _ _ _ _ _ _ _ _ H6 H7 H8 H9 H10 H11 Hs).
    rewrite drop_columns. tauto.
  - destruct (poi_label_safe _ Hc) as (_ & _ & _ & Hdum & Htail & Hnew & Hold).
    destruct (tail_same_cells get_dummies get_dummies_frame _ _ _ _ _ H9 H10 H11)
      as (_ & Hc8 & _).
    rewrite (Hc8 c Htail), (rename_columns_other _ _ _ _ H8 Hold Hnew).
    destruct (encode_categories_spec get_dummies get_dummies_frame _ _ H7)
      as (_ & Hc7 & _).
    rewrite (Hc7 c Hdum).
    destruct (poi_features_spec _ _ H6) as (_ & Hgone & _). by apply Hgone.
Qed.

Lemma enrich_no_old_label df metro out c :
  enrich literal_eval get_dummies to_numeric_cleaned astype_int df metro = Ok out →
  c ∈ (fst <$> column_mapping) → c ∉ columns out.
Proof using get_dummies_frame.
  intros Hrun Hc Hin.
  destruct (enrich_stages _ _ _ _ _ _ _ Hrun)
    as (d1 & d2 & d3 & d4 & d6 & d7 & d8 & d9 & d10 &
        H1 & H2 & H3 & H4 & H6 & H7 & H8 & H9 & H10 & H11).
  assert (Hts : tail_safe c).
  { cbn in Hc.
    repeat (apply elem_of_cons in Hc as [->|Hc];
      [split; [decide_labels|by apply not_dummy_station]|]).
    by apply elem_of_nil in Hc. }
  destruct (tail_same_cells get_dummies get_dummies_frame _ _ _ _ _ H9 H10 H11)
    as (_ & Hc8 & _).
  apply (Hc8 c Hts) in Hin.
  destruct (rename_spec _ _ _ H8) as (_ & Hcols8 & _).
  rewrite Hcols8 in Hin. apply list_elem_of_fmap in Hin as (c' & -> & _).
  by apply (rename_label_not_old c').
Qed.

(** X10.  A run that has returned a table cannot be repeated on that table: the
    column [price_czk] has been renamed, so the second run raises
    [ValueError] and writes nothing. *)
Theorem process_raw_data_not_repeatable
    fs raw_data_path metro_path output_path df metro out
    fs2 raw_data_path2 metro_path2 output_path2 metro2 :
  fs !! raw_data_path = Some df → fs !! metro_path = Some metro →
  (process_raw_data literal_eval get_dummies to_numeric_cleaned astype_int
     fs raw_data_path metro_path output_path).1 = Ok out →
  fs2 !! raw_data_path2 = Some out → fs2 !! metro_path2 = Some metro2 →
  process_raw_data literal_eval get_dummies to_numeric_cleaned astype_int
    fs2 raw_data_path2 metro_path2 output_path2
  = (Raise (ValueError "Missing required column: price_czk"), fs2).
Proof using get_dummies_frame.
  intros Hdf Hmetro Hout Hdf2 Hmetro2.
  destruct (process_raw_data_Ok _ _ _ _ _ _ _ _ _ _ _ Hdf Hmetro Hout) as [_ Hrun].
  unfold process_raw_data, read_csv. rewrite Hdf2, Hmetro2.
  rewrite decide_True; [reflexivity|].
  apply (enrich_no_old_label _ _ _ _ Hrun). decide_labels.
Qed.

Lemma enrich_needs_columns df metro out :
  enrich literal_eval get_dummies to_numeric_cleaned astype_int df metro = Ok out →
  "locality" ∈ columns df ∧ "detail" ∈ columns df.
Proof.
  intros Hrun.
  destruct (enrich_stages _ _ _ _ _ _ _ Hrun)
    as (d1 & d2 & d3 & _ & _ & _ & _ & _ & _ & H1 & H2 & H3 & _).
  split.
  - unfold extract_locality in H1. apply bind_Ok in H1 as (v & Hcol & _).
    apply column_Ok in Hcol as [Hin _].
    apply keep_priced_columns in Hin. tauto.
  - unfold extract_property_details in H3. apply bind_Ok in H3 as (v & Hcol & _).
    apply column_Ok in Hcol as [Hin _].
    destruct (extract_categories_spec _ _ _ H2) as (_ & Hc2 & _).
    apply Hc2 in Hin; [|decide_labels].
    destruct (extract_locality_spec _ _ _ H1) as ((_ & Hc1 & _) & _).
    apply Hc1 in Hin; [|decide_labels].
    apply keep_priced_columns in Hin. tauto.
Qed.

(** X11.  Beside [price_czk] the listing table needs the columns [locality] and
    [detail]: a run that returns a table has found the three, and a table
    with [price_czk] and without [locality] makes the run raise
    [KeyError], which is neither of the two exceptions the function
    documents, and write nothing. *)
Theorem process_raw_data_required_columns
    fs raw_data_path metro_path output_path df metro :
  fs !! raw_data_path = Some df → fs !! metro_path = Some metro →
  let run := process_raw_data literal_eval get_dummies to_numeric_cleaned
               astype_int fs raw_data_path metro_path output_path in
  (∀ out, run.1 = Ok out →
     "price_czk" ∈ columns df ∧ "locality" ∈ columns df ∧ "detail" ∈ columns df) ∧
  ("price_czk" ∈ columns df → "locality" ∉ columns df →
   run = (Raise (KeyError "locality"), fs)).
Proof.
  intros Hdf Hmetro run. split.
  - intros out Hout.
    destruct (process_raw_data_Ok _ _ _ _ _ _ _ _ _ _ _ Hdf Hmetro Hout)
      as [Hprice Hrun].
    split; [assumption|]. by apply enrich_needs_columns in Hrun.
  - intros Hprice Hno. subst run. unfold process_raw_data, read_csv.
    rewrite Hdf, Hmetro. rewrite decide_False by (intros Hn; by apply Hn).
    assert (Hloc : extract_locality literal_eval (keep_priced df)
                   = Raise (KeyError "locality")).
    { unfold extract_locality, column. rewrite decide_False; [reflexivity|].
      rewrite keep_priced_columns. tauto. }
    unfold enrich. by rewrite Hloc.
Qed.

(** X12.  Every cell of a flag column of the output is 0 or 1: the three transit
    flags, and the companion of every point-of-interest column of the
    listing table, also where two of them share a companion. *)
Theorem flag_columns_binary df metro out i o :
  enrich literal_eval get_dummies to_numeric_cleaned astype_int df metro = Ok out →
  rows out !! i = Some o →
  binary (cell o "1000m_dist_A") ∧ binary (cell o "1000m_dist_B") ∧
  binary (cell o "1000m_dist_C") ∧
  ∀ col, col ∈ columns df → String.prefix "poi_" col = true →
         binary (cell o (replace_poi col)).
Proof using get_dummies_frame.
  intros Hrun Ho.
  destruct (proximity_flags _ _ _ _ get_dummies_frame _ _ _ Hrun)
    as (_ & _ & Hflags & _).
  destruct (Hflags i o Ho) as (FA & FB & FC).
  do 3 (split; [by eapply le_flag_binary|]).
  intros col Hin Hp.
  destruct (enrich_stages _ _ _ _ _ _ _ Hrun)
    as (d1 & d2 & d3 & d4 & d6 & d7 & d8 & d9 & d10 &
        H1 & H2 & H3 & H4 & H6 & H7 & H8 & H9 & H10 & H11).
  destruct (poi_label_safe _ Hp) as (Hd & Hh & Hr & _).
  destruct (companion_label_safe _ (replace_poi_prefix _ Hp)) as (Hnd5 & Hold5 & Hts5).
  assert (Hin5 : col ∈ columns (drop cols_to_remove d4)).
  { rewrite drop_columns. split; [assumption|].
    destruct (head_same_cells _ _ _ _ _ _ _ _ H1 H2 H3 H4) as (_ & Hc4 & _).
    rewrite (Hc4 col Hh), keep_priced_columns. tauto. }
  pose proof (tail_same_cells get_dummies get_dummies_frame _ _ _ _ _ H9 H10 H11)
    as Stail.
  pose proof (encode_categories_spec get_dummies get_dummies_frame _ _ H7) as S7.
  destruct (rename_spec _ _ _ H8) as (Hlen8 & _ & _ & Hcell8).
  destruct (same_cells_row_back _ _ _ _ _ Stail Ho) as (r8 & Hr8 & E8).
  destruct (lookup_lt_is_Some_2 (rows d7) i) as [r7 Hr7].
  { rewrite <- Hlen8. by eapply lookup_lt_Some. }
  destruct (same_cells_row_back _ _ _ _ _ S7 Hr7) as (r6 & Hr6 & E7).
  assert (Hcomp7 : replace_poi col ∈ columns d7).
  { destruct S7 as (_ & Hc & _). apply Hc; [assumption|].
    by apply (poi_features_spec _ _ H6). }
  pose proof (Hcell8 i r7 r8 _ Hcomp7 Hr7 Hr8) as E78.
  rewrite (rename_label_other _ _ Hold5) in E78.
  rewrite (E8 _ Hts5), E78, (E7 _ Hnd5).
  by apply (poi_features_binary _ _ col i r6 H6).
Qed.

(** X13.  In every row of the output the three transit distances are all [nan],
    which is so exactly for a listing without a latitude or a longitude, or
    each is the sentinel 99999 or a distance of at least 0 and below it. *)
Theorem metro_distance_cells df metro out i o :
  enrich literal_eval get_dummies to_numeric_cleaned astype_int df metro = Ok out →
  rows out !! i = Some o →
  (isna (cell o "latitude") || isna (cell o "longitude") = true ∧
   cell o "metro_dist_A" = PFloat NaN ∧ cell o "metro_dist_B" = PFloat NaN ∧
   cell o "metro_dist_C" = PFloat NaN) ∨
  (isna (cell o "latitude") = false ∧ isna (cell o "longitude") = false ∧
   within_sentinel (cell o "metro_dist_A") ∧ within_sentinel (cell o "metro_dist_B") ∧
   within_sentinel (cell o "metro_dist_C")).
Proof using get_dummies_frame.
  intros Hrun Ho.
  destruct (enrich_stages _ _ _ _ _ _ _ Hrun)
    as (d1 & d2 & d3 & d4 & d6 & d7 & d8 & d9 & d10 &
        H1 & H2 & H3 & H4 & H6 & H7 & H8 & H9 & H10 & H11).
  destruct (metro_distances_spec _ _ _ H9) as (S9 & C9 & V9).
  destruct (metro_features_spec _ _ H10) as (S10 & _ & _).
  { intros c Hc. apply C9. labels_in Hc. }
  pose proof (get_dummies_frame _ _ _ H11) as S11.
  destruct (same_cells_row_back _ _ _ _ _ S11 Ho) as (r10 & Hr10 & E11).
  destruct (same_cells_row_back _ _ _ _ _ S10 Hr10) as (r9 & Hr9 & E10).
  destruct (same_cells_row_back _ _ _ _ _ S9 Hr9) as (r8 & Hr8 & E9).
  destruct (V9 i r8 r9 Hr8 Hr9) as (a & Ha & VA & VB & VC & _).
  assert (Eo : ∀ c, c ∈ ["latitude"; "longitude"; "metro_dist_A"; "metro_dist_B";
             "metro_dist_C"] → cell o c = cell r9 c).
  { intros c Hc. rewrite E11, E10; [reflexivity | labels_in Hc |].
    repeat (apply elem_of_cons in Hc as [->|Hc]; [by apply not_dummy_station|]).
    by apply elem_of_nil in Hc. }
  rewrite !Eo by decide_labels.
  rewrite (E9 "latitude"), (E9 "longitude") by decide_labels.
  rewrite VA, VB, VC.
  destruct (get_metro_distances_Ok_entries _ _ _ Ha)
    as (lat & lon & Hlat & Hlon &
        [[Hna ->]|(Hna1 & Hna2 & dA & dB & dC & name & -> & HA & HB & HC)]);
    unfold cell; rewrite Hlat, Hlon; cbn [default lookup list_lookup].
  - left. auto.
  - right. auto 10.
Qed.

End Stages.

Lemma enrich_three_listings :
  enrich (literal_eval_of readings) get_dummies_one_level to_numeric_digits
    astype_int_exact three_listings metro_three = Ok two_enriched.
Proof.
  eapply (process_raw_data_Ok _ _ _ _ files_three); [..|by rewrite process_three_listings];
    reflexivity.
Qed.

Lemma enrich_dropped_columns_witness :
  "hash_id" ∈ columns three_listings ∧ ("hash_id" ∉ columns two_enriched) ∧
  ("detail" ∉ columns two_enriched) ∧ ("poi_bus" ∉ columns two_enriched).
Proof.
  split; [by repeat constructor|].
  repeat split;
    apply (enrich_dropped_columns (literal_eval_of readings) get_dummies_one_level
             to_numeric_digits astype_int_exact get_dummies_one_level_keeps
             three_listings metro_three two_enriched _ enrich_three_listings).
  - left. by repeat constructor.
  - right. left. by repeat constructor.
  - right. right. reflexivity.
Defined.

Lemma process_raw_data_not_repeatable_witness :
  process_raw_data (literal_eval_of readings) get_dummies_one_level
    to_numeric_digits astype_int_exact
    (<[processed_path := two_enriched]> files_three)
    processed_path stations_path None
  = (Raise (ValueError "Missing required column: price_czk"),
     <[processed_path := two_enriched]> files_three).
Proof.
  apply (process_raw_data_not_repeatable (literal_eval_of readings)
           get_dummies_one_level to_numeric_digits astype_int_exact
           get_dummies_one_level_keeps
           files_three estate_path stations_path (Some processed_path)
           three_listings metro_three two_enriched _ _ _ _ metro_three);
    [reflexivity | reflexivity | by rewrite process_three_listings
    | reflexivity | reflexivity].
Defined.

Lemma process_raw_data_required_columns_witness :
  process_raw_data (literal_eval_of readings) get_dummies_one_level
    to_numeric_digits astype_int_exact
    (<[estate_path := {| columns := ["price_czk"; "detail"]; rows := [] |}]>
       (<[stations_path := metro_three]> ∅))
    estate_path stations_path None
  = (Raise (KeyError "locality"),
     <[estate_path := {| columns := ["price_czk"; "detail"]; rows := [] |}]>
       (<[stations_path := metro_three]> ∅)).
Proof.
  apply (process_raw_data_required_columns (literal_eval_of readings)
           get_dummies_one_level to_numeric_digits astype_int_exact
           _ estate_path stations_path None
           {| columns := ["price_czk"; "detail"]; rows := [] |} metro_three);
    [reflexivity | reflexivity | by repeat constructor | decide_labels].
Defined.

Lemma flag_columns_binary_witness :
  binary (cell (enriched 9000000 120 1 0 0 "500m_bus" (PInt 0)) "1000m_dist_A") ∧
  binary (cell (enriched 9000000 120 1 0 0 "500m_bus" (PInt 0)) "500m_bus").
Proof.
  destruct (flag_columns_binary (literal_eval_of readings) get_dummies_one_level
              to_numeric_digits astype_int_exact get_dummies_one_level_keeps
              three_listings metro_three two_enriched 1%nat
              (enriched 9000000 120 1 0 0 "500m_bus" (PInt 0))
              enrich_three_listings eq_refl)
    as (HA & _ & _ & Hpoi).
  split; [exact HA|].
  apply (Hpoi "poi_bus"); [by repeat constructor | reflexivity].
Defined.

Lemma metro_distance_cells_witness :
  cell (enriched 5000000 54 0 1 2 "500m_bus" (PInt 1)) "metro_dist_A" = PFloat NaN ∨
  within_sentinel (cell (enriched 5000000 54 0 1 2 "500m_bus" (PInt 1)) "metro_dist_A").
Proof.
  destruct (metro_distance_cells (literal_eval_of readings) get_dummies_one_level
              to_numeric_digits astype_int_exact get_dummies_one_level_keeps
              three_listings metro_three two_enriched 0%nat
              (enriched 5000000 54 0 1 2 "500m_bus" (PInt 1))
              enrich_three_listings eq_refl)
    as [(_ & HA & _)|(_ & _ & HA & _)]; [by left | by right].
Defined.

End PipelineOutputFacts.

(** ** The derived columns of the output *)

Module PipelineValueFacts.
Import PyMath Text Parser Floor Geo GeoScan Pandas Pipeline PipelineReadings PandasFacts PipelineFacts.

Section Stages.

Variable literal_eval : pyval → outcome pyval.
Variable get_dummies : DataFrame → list string → outcome DataFrame.
Variable to_numeric_cleaned : pyval → pyval.
Variable astype_int : pyval → outcome pyval.
Hypothesis get_dummies_frame : get_dummies_keeps get_dummies.

Lemma extract_locality_values df df' i r r' :
  extract_locality literal_eval df = Ok df' →
  rows df !! i = Some r → rows df' !! i = Some r' →
  ∃ loc, safe_eval literal_eval (cell r "locality") = Ok loc ∧
         cell r' "lat" = dict_field "gps_lat" loc ∧
         cell r' "lon" = dict_field "gps_lon" loc.
Proof.
  unfold extract_locality. intros H Hr Hr'.
  apply bind_Ok in H as (locality & Hcol & H).
  apply bind_Ok in H as (dicts & Hmap & H). injection H as <-.
  apply column_Ok in Hcol as [_ ->].
  destruct (mapM_Ok_lookup _ _ _ Hmap) as [_ Hall].
  destruct (Hall i (cell r "locality")) as (loc & Hloc & Heval).
  { by rewrite list_lookup_fmap, Hr. }
  exists loc. split; [assumption|].
  cbn [rows assign] in Hr'.
  apply lookup_zip_with_Some in Hr' as (r4 & v5 & -> & Hr4 & Hv5).
  apply lookup_zip_with_Some in Hr4 as (r3 & v4 & -> & Hr3 & Hv4).
  rewrite list_lookup_fmap, Hloc in Hv5. injection Hv5 as <-.
  rewrite list_lookup_fmap, Hloc in Hv4. injection Hv4 as <-.
  rewrite !cell_insert.
  repeat case_decide; first [by split | congruence].
Qed.

(** X14.  The coordinates of an output row are the entries [gps_lat] and
    [gps_lon] of the locality blob of its listing, and [None] when the blob
    does not evaluate to a mapping. *)
Theorem coordinates_from_locality df metro out i r o :
  enrich literal_eval get_dummies to_numeric_cleaned astype_int df metro = Ok out →
  filter (fun r => isna (cell r "price_czk") = false) (rows df) !! i = Some r →
  rows out !! i = Some o →
  ∃ loc, safe_eval literal_eval (cell r "locality") = Ok loc ∧
         cell o "latitude" = dict_field "gps_lat" loc ∧
         cell o "longitude" = dict_field "gps_lon" loc ∧
         ((∀ kv, loc ≠ PDict kv) →
          cell o "latitude" = PNone ∧ cell o "longitude" = PNone).
Proof using get_dummies_frame.
  intros Hrun Hr Ho.
  destruct (enrich_stages _ _ _ _ _ _ _ Hrun)
    as (d1 & d2 & d3 & d4 & d6 & d7 & d8 & d9 & d10 &
        H1 & H2 & H3 & H4 & H6 & H7 & H8 & H9 & H10 & H11).
  assert (Hr0 : rows (keep_priced df) !! i = Some (foldr delete r cols_to_drop)).
  { by rewrite keep_priced_rows_filter, list_lookup_fmap, Hr. }
  destruct (same_cells_row _ _ _ _ _ (proj1 (extract_locality_spec _ _ _ H1)) Hr0)
    as (r1 & Hr1 & _).
  destruct (extract_locality_values _ _ _ _ _ H1 Hr0 Hr1) as (loc & Hloc & Elat & Elon).
  rewrite cell_foldr_delete in Hloc by decide_labels.
  destruct (same_cells_row _ _ _ _ _ (extract_categories_spec _ _ _ H2) Hr1)
    as (r2 & Hr2 & E2).
  destruct (same_cells_row _ _ _ _ _ (extract_property_details_spec _ _ _ H3) Hr2)
    as (r3 & Hr3 & E3).
  destruct (same_cells_row _ _ _ _ _ (clean_details_spec _ _ _ _ H4) Hr3)
    as (r4 & Hr4 & E4).
  destruct (lat_lon_cleaned _ _ _ _ _ _ _ _ H1 H2 H3 H4) as [Hlat4 Hlon4].
  destruct (renamed_cells get_dummies get_dummies_frame _ _ _ _ _ _ _ _ "lat" "latitude"
              H6 H7 H8 H9 H10 H11) as [_ Clat]; [decide_labels | assumption |].
  destruct (renamed_cells get_dummies get_dummies_frame _ _ _ _ _ _ _ _ "lon" "longitude"
              H6 H7 H8 H9 H10 H11) as [_ Clon]; [decide_labels | assumption |].
  assert (Flat : cell o "latitude" = dict_field "gps_lat" loc).
  { rewrite (Clat i r4 o Hr4 Ho), E4, E3, E2 by decide_labels. exact Elat. }
  assert (Flon : cell o "longitude" = dict_field "gps_lon" loc).
  { rewrite (Clon i r4 o Hr4 Ho), E4, E3, E2 by decide_labels. exact Elon. }
  exists loc. do 3 (split; [assumption|]).
  intros Hno. rewrite Flat, Flon. destruct loc; try by split. by destruct (Hno kv).
Qed.

Lemma record_columns_intro records d k :
  d ∈ records → k ∈ (fst <$> d) → k ∈ record_columns records.
Proof.
  intros Hd Hk. unfold record_columns.
  assert (Hgen : ∀ keys acc, k ∈ acc ∨ k ∈ keys →
    k ∈ foldl (fun (acc : list string) k0 =>
                 if decide (k0 ∈ acc) then acc else (acc ++ [k0])%list) acc keys).
  { induction keys as [|k0 keys IH]; intros acc [Hacc|Hkeys]; cbn [foldl].
    - assumption.
    - by apply elem_of_nil in Hkeys.
    - apply IH. left. case_decide; [assumption|]. apply elem_of_app. by left.
    - apply IH. apply elem_of_cons in Hkeys as [->|Hkeys]; [|by right].
      left. case_decide; [assumption|]. apply elem_of_app. right. by left. }
  apply Hgen. right. apply list_elem_of_join. exists (fst <$> d).
  split; [assumption|]. apply list_elem_of_fmap. by exists d.
Qed.

Lemma extract_property_details_values df df' :
  extract_property_details literal_eval df = Ok df' →
  (∀ j rj dj k, rows df !! j = Some rj →
     extract_details literal_eval (cell rj "detail") = Ok dj →
     k ∈ (fst <$> dj) → k ∈ columns df') ∧
  ∀ i r r', rows df !! i = Some r → rows df' !! i = Some r' →
    ∃ d, extract_details literal_eval (cell r "detail") = Ok d ∧
         ∀ k, k ∈ columns df' → k ∉ columns df →
              cell r' k = default (PFloat NaN) (dict_lookup k d).
Proof.
  unfold extract_property_details. intros H.
  apply bind_Ok in H as (detail & Hcol & H).
  apply bind_Ok in H as (records & Hmap & H).
  apply column_Ok in Hcol as [_ ->].
  destruct (mapM_Ok_lookup _ _ _ Hmap) as [Hlen Hall].
  unfold concat_records in H. destruct (decide _) as [|Hfresh]; [discriminate|].
  injection H as <-. cbn [columns rows]. split.
  - intros j rj dj k Hrj Hdj Hk. apply elem_of_app. right.
    destruct (Hall j (cell rj "detail")) as (d' & Hd' & Hx).
    { by rewrite list_lookup_fmap, Hrj. }
    assert (d' = dj) as -> by congruence.
    apply (record_columns_intro _ dj); [|assumption].
    by eapply list_elem_of_lookup_2.
  - intros i r r' Hr Hr'.
    apply lookup_zip_with_Some in Hr' as (r0 & d & -> & Hr0 & Hd).
    assert (r0 = r) as -> by congruence.
    destruct (Hall i (cell r "detail")) as (d' & Hd' & Hx).
    { by rewrite list_lookup_fmap, Hr. }
    assert (d' = d) as -> by congruence.
    exists d. split; [assumption|]. intros k Hk Hnew.
    rewrite (cell_foldr_insert (fun c' => default (PFloat NaN) (dict_lookup c' d))).
    apply elem_of_app in Hk as [?|Hk]; [contradiction|].
    by rewrite decide_True.
Qed.

Lemma clean_details_floor df df' :
  clean_details to_numeric_cleaned astype_int df = Ok df' →
  "floor" ∈ columns df →
  "floor_num" ∈ columns df' ∧
  ∀ i r r', rows df !! i = Some r → rows df' !! i = Some r' →
            cell r' "floor_num" = PInt (extract_floor_num (cell r "floor")).
Proof.
  unfold clean_details. intros H Hfloor.
  apply bind_Ok in H as (d1 & H1 & H). apply bind_Ok in H as (d2 & H2 & H).
  pose proof (apply_if_present_same_cells _ _ _ _ H1) as S1.
  assert (S3 : same_cells (fun c => c ∉ ["terrace"; "elevator"]) d2 df').
  { eapply apply_if_present_fold; [|exact H]. by intros c Hc. }
  assert (Hfloor1 : "floor" ∈ columns d1)
    by (destruct S1 as (_ & Hc & _); by apply Hc).
  rewrite decide_True in H2 by assumption.
  apply bind_Ok in H2 as (floor & Hcol & H2). injection H2 as <-.
  apply column_Ok in Hcol as [_ ->]. split.
  - destruct S3 as (_ & Hc & _). apply Hc; [decide_labels|].
    apply assign_columns. by left.
  - intros i r r' Hr Hr'.
    destruct (same_cells_row_back _ _ _ _ _ S3 Hr') as (r2 & Hr2 & E3).
    destruct (same_cells_row _ _ _ _ _ S1 Hr) as (r1 & Hr1 & E1).
    destruct (assign_row _ _ _ _ _ _ Hr1 Hr2) as (v & Hv & ->).
    rewrite list_lookup_fmap, list_lookup_fmap, Hr1 in Hv. injection Hv as <-.
    rewrite E3 by decide_labels. rewrite cell_insert, decide_True by reflexivity.
    by rewrite E1.
Qed.

(** X15.  When the listing table has no column [floor] of its own and the
    detail blob of some priced listing has a floor entry, the output has the
    column [floor_number], and in every row it holds [extract_floor_num] of
    the floor entry that [extract_details] finds in the detail blob of the
    listing; for a listing without a floor entry that is 0. *)
Theorem floor_number_from_detail df metro out :
  enrich literal_eval get_dummies to_numeric_cleaned astype_int df metro = Ok out →
  "floor" ∉ columns df →
  let priced := filter (fun r => isna (cell r "price_czk") = false) (rows df) in
  (∃ j rj dj, priced !! j = Some rj ∧
     extract_details literal_eval (cell rj "detail") = Ok dj ∧
     "floor" ∈ (fst <$> dj)) →
  "floor_number" ∈ columns out ∧
  ∀ i r o, priced !! i = Some r → rows out !! i = Some o →
    ∃ d, extract_details literal_eval (cell r "detail") = Ok d ∧
         cell o "floor_number"
         = PInt (extract_floor_num (default (PFloat NaN) (dict_lookup "floor" d))) ∧
         (dict_lookup "floor" d = None → cell o "floor_number" = PInt 0).
Proof using get_dummies_frame.
  intros Hrun Hno priced (j & rj & dj & Hrj & Hdj & Hkey).
  destruct (enrich_stages _ _ _ _ _ _ _ Hrun)
    as (d1 & d2 & d3 & d4 & d6 & d7 & d8 & d9 & d10 &
        H1 & H2 & H3 & H4 & H6 & H7 & H8 & H9 & H10 & H11).
  pose proof (proj1 (extract_locality_spec _ _ _ H1)) as S1.
  pose proof (extract_categories_spec _ _ _ H2) as S2.
  destruct (extract_property_details_values _ _ H3) as [Hkeys Hvals].
  (* the rows of the priced listings as the parser finds them *)
  assert (Hrow : ∀ i r, priced !! i = Some r →
            ∃ r2, rows d2 !! i = Some r2 ∧ cell r2 "detail" = cell r "detail").
  { intros i r Hr.
    assert (Hr0 : rows (keep_priced df) !! i = Some (foldr delete r cols_to_drop)).
    { rewrite keep_priced_rows_filter, list_lookup_fmap. fold priced. by rewrite Hr. }
    destruct (same_cells_row _ _ _ _ _ S1 Hr0) as (r1 & Hr1 & E1).
    destruct (same_cells_row _ _ _ _ _ S2 Hr1) as (r2 & Hr2 & E2).
    exists r2. split; [assumption|].
    rewrite E2, E1 by decide_labels. apply cell_foldr_delete. decide_labels. }
  assert (Hno2 : "floor" ∉ columns d2).
  { intros Hin. destruct S2 as (_ & Hc2 & _). apply Hc2 in Hin; [|decide_labels].
    destruct S1 as (_ & Hc1 & _). apply Hc1 in Hin; [|decide_labels].
    apply keep_priced_columns in Hin. tauto. }
  assert (Hfloor3 : "floor" ∈ columns d3).
  { destruct (Hrow j rj Hrj) as (r2 & Hr2 & E).
    apply (Hkeys j r2 dj); [assumption | by rewrite E | assumption]. }
  destruct (clean_details_floor _ _ H4 Hfloor3) as [Hnum4 Hnum].
  destruct (renamed_cells get_dummies get_dummies_frame _ _ _ _ _ _ _ _
              "floor_num" "floor_number" H6 H7 H8 H9 H10 H11)
    as [Hcol Hcell]; [decide_labels | assumption |].
  split; [assumption|].
  intros i r o Hr Ho. destruct (Hrow i r Hr) as (r2 & Hr2 & E).
  destruct (same_cells_row _ _ _ _ _ (extract_property_details_spec _ _ _ H3) Hr2)
    as (r3 & Hr3 & _).
  destruct (same_cells_row _ _ _ _ _ (clean_details_spec _ _ _ _ H4) Hr3)
    as (r4 & Hr4 & _).
  destruct (Hvals i r2 r3 Hr2 Hr3) as (d & Hd & Hval).
  exists d. rewrite E in Hd. split; [assumption|].
  assert (Hcellv : cell o "floor_number"
            = PInt (extract_floor_num (default (PFloat NaN) (dict_lookup "floor" d)))).
  { rewrite (Hcell i r4 o Hr4 Ho), (Hnum i r3 r4 Hr3 Hr4).
    by rewrite (Hval "floor" Hfloor3 Hno2). }
  split; [assumption|]. intros Hnone. rewrite Hcellv, Hnone. reflexivity.
Qed.

End Stages.

Lemma coordinates_from_locality_witness :
  cell (enriched 5000000 54 0 1 2 "500m_bus" (PInt 1)) "latitude" = PNone ∧
  cell (enriched 5000000 54 0 1 2 "500m_bus" (PInt 1)) "longitude" = PNone.
Proof.
  destruct (coordinates_from_locality (literal_eval_of readings)
              get_dummies_one_level to_numeric_digits astype_int_exact
              get_dummies_one_level_keeps three_listings metro_three two_enriched
              0%nat (listing 11 (PInt 5000000) detail_blob_flat 500)
              (enriched 5000000 54 0 1 2 "500m_bus" (PInt 1))
              PipelineOutputFacts.enrich_three_listings eq_refl eq_refl)
    as (loc & Hloc & Hlat & Hlon & _).
  injection Hloc as <-. by split.
Defined.

Lemma floor_number_from_detail_witness :
  "floor_number" ∈ columns two_enriched ∧
  ((λ o, cell o "floor_number") <$> rows two_enriched) = [PInt 2; PInt 0].
Proof.
  destruct (floor_number_from_detail (literal_eval_of readings)
              get_dummies_one_level to_numeric_digits astype_int_exact
              get_dummies_one_level_keeps three_listings metro_three two_enriched
              PipelineOutputFacts.enrich_three_listings)
    as [Hcol _].
  - decide_labels.
  - exists 0%nat, (listing 11 (PInt 5000000) detail_blob_flat 500),
      [("usable_area", PStr "54"); ("floor", PStr "2. patro");
       ("elevator", PBool true)].
    split; [reflexivity|]. split; [reflexivity | by repeat constructor].
  - split; [exact Hcol | reflexivity].
Defined.

End PipelineValueFacts.

(** ** Listing scraper *)

Module ScrapeFacts.
Import PyMath Parser Scrape.
Local Open Scope Z_scope.

Section Server.
Variable fetch : Z → Z → option pyval.

Lemma pages_more_fuel fuel fuel' condition offset total all r :
  pages fetch fuel condition offset total all = Some r → (fuel ≤ fuel')%nat →
  pages fetch fuel' condition offset total all = Some r.
Proof.
  revert fuel' offset total all.
  induction fuel as [|fuel IH]; intros fuel' offset total all Hr Hle; [discriminate|].
  destruct fuel' as [|fuel']; [lia|]. cbn [pages] in *.
  destruct (page_pass fetch condition offset total all); [|assumption].
  apply IH; [assumption | lia].
Qed.

Lemma pages_unfold fuel condition offset total all :
  pages fetch (S fuel) condition offset total all
  = match page_pass fetch condition offset total all with
    | Stop r => Some r
    | Next offset total all => pages fetch fuel condition offset total all
    end.
Proof. reflexivity. Qed.








(** *** A server that pages its listings *)

Lemma consistent_pass condition L k :
  consistent fetch condition L → (22 * k < length L)%nat →
  page_pass fetch condition (Z.of_nat (22 * k))
    (Some (PInt (Z.of_nat (length L)))) (take (22 * k) L)
  = Next (Z.of_nat (22 * S k)) (Some (PInt (Z.of_nat (length L))))
         (take (22 * S k) L).
Proof.
  intros Hserver Hlt.
  destruct (Hserver (Z.of_nat (22 * k))) as (kv & Hfetch & Hresults & _); [lia|].
  unfold page_pass, int_lt.
  assert ((Z.of_nat (22 * k) <? Z.of_nat (length L)) = true) as ->
    by (apply Z.ltb_lt; lia).
  rewrite Hfetch. cbn [get_default]. rewrite Hresults, Nat2Z.id.
  destruct (take 22 (drop (22 * k) L)) as [|x rest] eqn:Hpage.
  { apply (f_equal length) in Hpage. rewrite length_take, length_drop in Hpage.
    cbn [length] in Hpage. lia. }
  cbn [truthy negb extend]. rewrite <- Hpage, take_take_drop.
  unfold limit. do 2 f_equal; [lia | f_equal; lia].
Qed.

Lemma consistent_pages condition L n k :
  consistent fetch condition L → (length L ≤ 22 * k + 22 * n)%nat →
  pages fetch (S n) condition (Z.of_nat (22 * k))
    (Some (PInt (Z.of_nat (length L)))) (take (22 * k) L)
  = Some (Done L).
Proof.
  intros Hserver. revert k. induction n as [|n IH]; intros k Hlen;
    cbn [pages];
    destruct (decide (22 * k < length L)%nat) as [Hlt|Hge]; try lia.
  - unfold page_pass, int_lt.
    assert ((Z.of_nat (22 * k) <? Z.of_nat (length L)) = false) as ->
      by (apply Z.ltb_ge; lia).
    by rewrite take_ge by lia.
  - rewrite (consistent_pass _ _ _ Hserver Hlt). apply IH. lia.
  - unfold page_pass, int_lt.
    assert ((Z.of_nat (22 * k) <? Z.of_nat (length L)) = false) as ->
      by (apply Z.ltb_ge; lia).
    by rewrite take_ge by lia.
Qed.

(** X18.  From a server that answers every request with the page of the
    listings at the offset and with the number of listings, the download
    collects every listing once, in the server's order, within
    [length L / 22 + 2] passes through the loop. *)
Theorem download_collects_all condition L fuel :
  consistent fetch condition L → (length L / 22 + 2 ≤ fuel)%nat →
  download fetch fuel condition = Some (Done L).
Proof.
  intros Hserver Hfuel. apply (pages_more_fuel (S (S (length L / 22)))); [|lia].
  rewrite pages_unfold.
  destruct (Hserver 0) as (kv & Hfetch & Hresults & kv' & Hpag & Htotal); [lia|].
  change (Z.to_nat 0) with 0%nat in Hresults. rewrite drop_0 in Hresults.
  unfold page_pass. rewrite Hfetch. cbn [get_default]. rewrite Hresults.
  destruct (take 22 L) as [|x rest] eqn:Hpage.
  { destruct L; [reflexivity | discriminate]. }
  cbn [truthy negb extend subscript app]. rewrite Hpag.
  cbn [mbind outcome_mbind outcome_bind subscript]. rewrite Htotal.
  rewrite <- Hpage.
  change (0 + limit) with (Z.of_nat (22 * 1)).
  change (take 22 L) with (take (22 * 1) L).
  apply consistent_pages; [assumption|].
  pose proof (Nat.div_mod_eq (length L) 22).
  pose proof (Nat.mod_upper_bound (length L) 22). lia.
Qed.

End Server.

Lemma page_of_consistent (L : list pyval) :
  consistent (fun _ offset => Some (page_of L offset)) 1 L.
Proof.
  intros offset _. eexists. split; [reflexivity|]. split; [reflexivity|].
  eexists. by split.
Qed.

Lemma download_collects_all_witness :
  download (fun _ offset => Some (page_of (PInt <$> seqZ 0 50) offset)) 5 1
  = Some (Done (PInt <$> seqZ 0 50)).
Proof.
  apply download_collects_all; [apply page_of_consistent|].
  vm_compute. lia.
Defined.

Section Outcome.
Variable fetch : Z → Z → option pyval.

Lemma scrape_conditions_done fuel conditions acc dfs :
  scrape_conditions fetch fuel conditions acc = Some (Done dfs) →
  dfs = (acc ++ omap (kept fetch fuel) conditions)%list ∧
  ∀ code name, (code, name) ∈ conditions →
    download fetch fuel code = Some RequestFailed ∨
    ∃ recs, download fetch fuel code = Some (Done recs).
Proof.
  revert acc. induction conditions as [|[code name] conditions IH]; intros acc.
  - intros [= <-]. split; [by rewrite app_nil_r|]. by intros ? ? ?%elem_of_nil.
  - cbn [scrape_conditions omap list_omap]. unfold kept at 1. cbn [fst snd].
    destruct (download fetch fuel code) as [[recs| |e]|] eqn:Hd; try discriminate;
      intros [-> Hall]%IH; (split; [by rewrite <- ?app_assoc|]);
      intros code' name' [[= -> ->]|Hin]%elem_of_cons; eauto.
Qed.

Lemma scrape_conditions_crashed fuel conditions acc e :
  scrape_conditions fetch fuel conditions acc = Some (Crashed e) →
  ∃ code name, (code, name) ∈ conditions ∧
               download fetch fuel code = Some (Crashed e).
Proof.
  revert acc. induction conditions as [|[code name] conditions IH]; intros acc;
    [discriminate|].
  cbn [scrape_conditions].
  destruct (download fetch fuel code) as [[recs| |e']|] eqn:Hd; try discriminate.
  - intros (c & n & Hin & Hc)%IH. exists c, n. split; [by right | assumption].
  - intros (c & n & Hin & Hc)%IH. exists c, n. split; [by right | assumption].
  - intros [= ->]. exists code, name. split; [by left | assumption].
Qed.

Lemma scrape_conditions_not_failed fuel conditions acc :
  scrape_conditions fetch fuel conditions acc ≠ Some RequestFailed.
Proof.
  revert acc. induction conditions as [|[code name] conditions IH]; intros acc;
    [discriminate|].
  cbn [scrape_conditions].
  destruct (download fetch fuel code) as [[recs| |e']|]; try discriminate; apply IH.
Qed.

(** X19.  What a scrape that ends has done.  A table returned is made of the
    conditions whose download went through to the end, in the order of the
    conditions, and of nothing else: of a condition with a failed request
    nothing is kept, also not the pages received before the failure.  A
    request failure never leaves the function; an exception that does is one
    that a download raised, or the [ValueError] of [pd.concat] when the
    requests of all four conditions failed. *)
Theorem sreality_scrape_outcome fuel r :
  sreality_scrape fetch fuel = Some r →
  match r with
  | Done dfs => dfs ≠ [] ∧ dfs = omap (kept fetch fuel) condition_map
  | RequestFailed => False
  | Crashed e =>
      (∃ code name, (code, name) ∈ condition_map ∧
                    download fetch fuel code = Some (Crashed e)) ∨
      (e = ValueError "No objects to concatenate" ∧
       ∀ code name, (code, name) ∈ condition_map →
                    download fetch fuel code = Some RequestFailed)
  end.
Proof.
  unfold sreality_scrape.
  destruct (scrape_conditions fetch fuel condition_map []) as [[dfs| |e]|] eqn:Hrun;
    [| |intros [= <-]|discriminate].
  - destruct (scrape_conditions_done _ _ _ _ Hrun) as [Hdfs Hall].
    cbn [app] in Hdfs. destruct dfs as [|df dfs].
    + intros [= <-]. right. split; [reflexivity|]. intros code name Hin.
      destruct (Hall code name Hin) as [?|[recs Hdone]]; [assumption|].
      assert (Hkept : (name, recs) ∈ omap (kept fetch fuel) condition_map).
      { apply list_elem_of_omap. exists (code, name). split; [assumption|].
        unfold kept. cbn [fst snd]. by rewrite Hdone. }
      rewrite <- Hdfs in Hkept. by apply elem_of_nil in Hkept.
    + intros [= <-]. by split.
  - by destruct (scrape_conditions_not_failed fuel condition_map []).
  - left. by apply (scrape_conditions_crashed _ _ []).
Qed.

End Outcome.

Lemma first_pass fetch condition L kv kv' total :
  fetch condition 0 = Some (PDict kv) →
  entry "results" kv = Some (PList (take 22 L)) →
  entry "pagination" kv = Some (PDict kv') → entry "total" kv' = Some total →
  L ≠ [] →
  page_pass fetch condition 0 None []
  = Next (0 + limit) (Some total) (take 22 L).
Proof.
  intros Hfetch Hresults Hpag Htotal HL.
  unfold page_pass. rewrite Hfetch. cbn [get_default]. rewrite Hresults.
  destruct (take 22 L) as [|x rest] eqn:Hpage.
  { destruct L; [contradiction | discriminate]. }
  cbn [truthy negb extend subscript app]. rewrite Hpag.
  cbn [mbind outcome_mbind outcome_bind subscript]. by rewrite Htotal.
Qed.

Lemma download_first_page_only L code :
  (22 < length L)%nat →
  download (first_page_only L) 3 code = Some RequestFailed.
Proof.
  intros Hlen. unfold download. rewrite pages_unfold.
  erewrite (first_pass (first_page_only L) code L);
    [|reflexivity..|intros ->; cbn in Hlen; lia].
  rewrite pages_unfold. unfold page_pass, int_lt, first_page_only, limit.
  cbn [snd].
  assert ((0 + 22 <? Z.of_nat (length L)) = true) as -> by (apply Z.ltb_lt; lia).
  reflexivity.
Qed.

Lemma sreality_scrape_outcome_witness :
  sreality_scrape (first_page_only (PInt <$> seqZ 0 50)) 3
  = Some (Crashed (ValueError "No objects to concatenate")) ∧
  ((∃ code name, (code, name) ∈ condition_map ∧
      download (first_page_only (PInt <$> seqZ 0 50)) 3 code
      = Some (Crashed (ValueError "No objects to concatenate"))) ∨
   (ValueError "No objects to concatenate" = ValueError "No objects to concatenate" ∧
    ∀ code name, (code, name) ∈ condition_map →
      download (first_page_only (PInt <$> seqZ 0 50)) 3 code = Some RequestFailed)).
Proof.
  assert (Hd : ∀ code, download (first_page_only (PInt <$> seqZ 0 50)) 3 code
                       = Some RequestFailed).
  { intros code. apply download_first_page_only. vm_compute. lia. }
  assert (Hrun : sreality_scrape (first_page_only (PInt <$> seqZ 0 50)) 3
                 = Some (Crashed (ValueError "No objects to concatenate"))).
  { unfold sreality_scrape. cbn [scrape_conditions condition_map]. by rewrite !Hd. }
  split; [exact Hrun|]. exact (sreality_scrape_outcome _ _ _ Hrun).
Defined.

End ScrapeFacts.

(** ** A listing that aborts the run *)

Module PipelineAbortFacts.
Import PyMath Text Parser ParserErrors Floor Geo Pandas Pipeline PipelineReadings PipelineAbort PandasFacts PipelineFacts.

Lemma mapM_first_raise {A B} (f : A → outcome B) l i x e :
  l !! i = Some x → f x = Raise e →
  (∀ j y, (j < i)%nat → l !! j = Some y → returns (f y)) →
  mapM f l = Raise e.
Proof.
  revert i. induction l as [|y l IH]; intros i Hx He Hbefore; [by destruct i|].
  rewrite mapM_Ok_cons. destruct i as [|i].
  - injection Hx as ->. by rewrite He.
  - destruct (Hbefore 0%nat y) as [b ->]; [lia | reflexivity |].
    cbn [mbind outcome_mbind outcome_bind].
    rewrite (IH i Hx He); [reflexivity|].
    intros j z Hj Hz. apply (Hbefore (S j)); [lia | assumption].
Qed.

Section Stages.

Variable literal_eval : pyval → outcome pyval.
Variable get_dummies : DataFrame → list string → outcome DataFrame.
Variable to_numeric_cleaned : pyval → pyval.
Variable astype_int : pyval → outcome pyval.

(** X16.  One priced listing whose detail blob evaluates to a list with an entry
    named by a number aborts the whole run with [TypeError], which the
    caller does not catch: when the two stages before the parser return and
    the parser returns on the listings before it, [process_raw_data] raises
    [TypeError] and writes nothing. *)
Theorem process_raw_data_risky_detail
    fs raw_data_path metro_path output_path df metro i r items :
  fs !! raw_data_path = Some df → fs !! metro_path = Some metro →
  "price_czk" ∈ columns df → "detail" ∈ columns df →
  (∃ d1, extract_locality literal_eval (keep_priced df) = Ok d1 ∧
         returns (extract_categories literal_eval d1)) →
  filter (fun r => isna (cell r "price_czk") = false) (rows df) !! i = Some r →
  literal_eval (cell r "detail") = Ok (PList items) →
  existsb risky items = true →
  (∀ j rj, (j < i)%nat →
     filter (fun r => isna (cell r "price_czk") = false) (rows df) !! j = Some rj →
     returns (extract_details literal_eval (cell rj "detail"))) →
  process_raw_data literal_eval get_dummies to_numeric_cleaned astype_int
    fs raw_data_path metro_path output_path
  = (Raise TypeError, fs).
Proof.
  intros Hdf Hmetro Hprice Hdetail (d1 & H1 & d2 & H2) Hr Hitems Hrisky Hbefore.
  pose proof (proj1 (extract_locality_spec _ _ _ H1)) as S1.
  pose proof (extract_categories_spec _ _ _ H2) as S2.
  assert (Hrow : ∀ j r2, rows d2 !! j = Some r2 →
            ∃ rj, filter (fun r => isna (cell r "price_czk") = false) (rows df) !! j
                  = Some rj ∧ cell r2 "detail" = cell rj "detail").
  { intros j r2 Hr2.
    destruct (same_cells_row_back _ _ _ _ _ S2 Hr2) as (r1 & Hr1 & E2).
    destruct (same_cells_row_back _ _ _ _ _ S1 Hr1) as (r0 & Hr0 & E1).
    rewrite keep_priced_rows_filter, list_lookup_fmap in Hr0.
    destruct (filter _ (rows df) !! j) as [rj|]; [|discriminate].
    injection Hr0 as <-. exists rj. split; [reflexivity|].
    rewrite E2 by decide_labels. rewrite E1 by decide_labels.
    apply (cell_foldr_delete rj cols_to_drop). decide_labels. }
  assert (Hlen : length (rows d2)
                 = length (filter (fun r => isna (cell r "price_czk") = false) (rows df))).
  { destruct S2 as (-> & _). destruct S1 as (-> & _).
    by rewrite keep_priced_rows_filter, length_fmap. }
  assert (Hcol : "detail" ∈ columns d2).
  { destruct S2 as (_ & Hc2 & _). apply Hc2; [decide_labels|].
    destruct S1 as (_ & Hc1 & _). apply Hc1; [decide_labels|].
    apply keep_priced_columns. split; [decide_labels | assumption]. }
  destruct (lookup_lt_is_Some_2 (rows d2) i) as [r2 Hr2].
  { rewrite Hlen. by eapply lookup_lt_Some. }
  assert (Hparse : extract_property_details literal_eval d2 = Raise TypeError).
  { unfold extract_property_details, column. rewrite decide_True by assumption.
    cbn [mbind outcome_mbind outcome_bind].
    rewrite (mapM_first_raise _ _ i (cell r2 "detail") TypeError); [reflexivity | | |].
    - by rewrite list_lookup_fmap, Hr2.
    - destruct (Hrow i r2 Hr2) as (ri & Hri & ->).
      assert (ri = r) as -> by congruence.
      transitivity (foldM collect_item items []);
        [unfold extract_details, safe_eval; by rewrite Hitems|].
      by apply ParserErrorFacts.collect_items_risky.
    - intros j y Hj Hy. rewrite list_lookup_fmap in Hy.
      destruct (rows d2 !! j) as [rj2|] eqn:Hrj2; [|discriminate].
      injection Hy as <-. destruct (Hrow j rj2 Hrj2) as (rj & Hrj & ->).
      by apply (Hbefore j). }
  unfold process_raw_data, read_csv. rewrite Hdf, Hmetro.
  rewrite decide_False by (intros Hn; by apply Hn).
  unfold enrich. rewrite H1. cbn [mbind outcome_mbind outcome_bind].
  rewrite H2. cbn [mbind outcome_mbind outcome_bind]. by rewrite Hparse.
Qed.

End Stages.

Lemma process_raw_data_risky_detail_witness :
  process_raw_data
    (literal_eval_of ((blob_numeric_name, numeric_name) :: readings))
    get_dummies_one_level to_numeric_digits astype_int_exact
    (<[estate_path := risky_listings]> (<[stations_path := metro_three]> ∅))
    estate_path stations_path (Some processed_path)
  = (Raise TypeError,
     <[estate_path := risky_listings]> (<[stations_path := metro_three]> ∅)).
Proof.
  eapply (process_raw_data_risky_detail _ _ _ _ _ _ _ _ risky_listings metro_three
            0%nat _ [PDict [(PStr "name", PInt 1); (PStr "value", PInt 2)]]);
    try reflexivity.
  - by repeat constructor.
  - by repeat constructor.
  - eexists. split; [vm_compute; reflexivity|]. eexists. vm_compute. reflexivity.
  - intros j rj Hj. lia.
Defined.

End PipelineAbortFacts.
